(** * Sentiment analysis notebook (chapter07-rnn/sentiment_analysis.ipynb)

    A shallow embedding of the notebook's Python cells.  The notebook is glue
    code over PyTorch and torchtext: the numerical layers, automatic
    differentiation and the optimizer are library code.  The embedding keeps
    the glue as it is written (the two loops, the model wiring, the weight
    initialisation, the driver) and takes the library operations as the
    fields of an interface, so every theorem holds for every behaviour of
    the library operations, including the ones that raise. *)

From Stdlib Require Import ZArith Lia.
From Stdlib Require DecimalString.
From stdpp Require Import base list strings sorting pretty.

(** ** Python values, exceptions and results *)

(** A raised Python exception: its class name and its message. *)
Record exn := Exn { exn_class : string; exn_msg : string }.

(** The outcome of evaluating an expression: a value or a raised exception. *)
Inductive Result (A : Type) : Type :=
| Ok (a : A)
| Raise (e : exn).
Arguments Ok {A} a.
Arguments Raise {A} e.

Definition is_ok {A} (r : Result A) : bool :=
  match r with Ok _ => true | Raise _ => false end.

(** The exception a result carries, if any. *)
Definition exn_of {A} (r : Result A) : option exn :=
  match r with Ok _ => None | Raise e => Some e end.

(** Sequencing of fallible expressions (no state). *)
Definition rbind {A B} (r : Result A) (f : A → Result B) : Result B :=
  match r with Ok a => f a | Raise e => Raise e end.

(** [0.0 / 0] and friends. *)
Definition ZeroDivisionError : exn :=
  Exn "ZeroDivisionError" "float division by zero".

(** [(0).double()]. *)
Definition AttributeError_int_double : exn :=
  Exn "AttributeError" "'int' object has no attribute 'double'".

(** ** The library interface

    [Tensor] is a torch tensor together with whatever autograd history it
    carries; [Float] is a Python float.  Every library call may raise. *)
Class Torch := {
  Tensor : Type;
  Float : Type;
  Grads : Type;                               (* the .grad of every parameter *)
  (* Python float arithmetic *)
  float_zero : Float;                         (* 0.0 *)
  float_add : Float → Float → Float;          (* float + float *)
  float_mul_int : Float → Z → Float;          (* float * int *)
  float_div_int : Float → Z → Float;          (* float / int, int <> 0 *)
  format_float : Float → Result string;       (* '{:.4f}'.format(float) *)
  (* tensor operations *)
  t_squeeze : Tensor → Result Tensor;         (* x.squeeze() *)
  t_item : Tensor → Result Float;             (* x.item() *)
  t_sigmoid : Tensor → Result Tensor;         (* torch.sigmoid(x) *)
  t_round : Tensor → Result Tensor;           (* torch.round(x), x.round() *)
  t_data : Tensor → Tensor;                   (* x.data *)
  t_eq : Tensor → Tensor → Result Tensor;     (* x == y *)
  t_sum : Tensor → Result Tensor;             (* torch.sum(x) *)
  t_radd_int : Z → Tensor → Result Tensor;    (* int + tensor *)
  t_iadd : Tensor → Tensor → Result Tensor;   (* tensor += tensor *)
  t_double : Tensor → Result Tensor;          (* x.double() *)
  t_div_int : Tensor → Z → Result Tensor;     (* tensor / int *)
  format_tensor : Tensor → Result string;     (* '{:.4f}'.format(tensor) *)
  (* autograd *)
  backward : Tensor → Grads → Result Grads;   (* loss.backward() *)
}.

(** The flags a forward call reads: [model.training] and
    [torch.is_grad_enabled()]. *)
Record Ctx := { training : bool; grad : bool }.

(** A batch of the iterators: [batch.text] is the pair of the token-index
    tensor and the 1-D tensor of lengths (the field has
    [include_lengths=True]); the lengths are kept as the list of their
    entries, so [text_lengths.shape[0]] is the length of the list. *)
Record Batch `{Torch} := {
  batch_text : Tensor * list Z;
  batch_label : Tensor;
}.

(** A [torch.nn.Module]: calling it reads its parameters and the flags;
    [model.train(mode)] ([model.eval()] is [model.train(False)]) sets
    [model.training] unless it raises. *)
Record Model `{Torch} (P : Type) := {
  forward : Ctx → P → Tensor → list Z → Result Tensor;
  module_train : bool → Result unit;
}.
Arguments forward {_ _} _ _ _ _ _.
Arguments module_train {_ _} _ _.

(** A loss function, called under some grad mode. *)
Definition LossFn `{Torch} : Type := bool → Tensor → Tensor → Result Tensor.

(** An optimizer over parameters [P] with internal state [S]. *)
Record Optimizer `{Torch} (P S : Type) := {
  opt_zero_grad : Grads → Result Grads;          (* optimizer.zero_grad() *)
  opt_step : S → P → Grads → Result (S * P);     (* optimizer.step() *)
}.
Arguments opt_zero_grad {_ _ _} _ _.
Arguments opt_step {_ _ _} _ _ _ _.

(** One pass over an iterable, as a [for] statement draws it: every
    [next()] on the iterator yields an element, or ends the pass
    ([StopIteration]), or raises; [r] is the iterator's random state after
    that [next()].  Nothing is drawn before it is asked for.  A pass has
    finitely many elements. *)
Inductive Pass (B R : Type) : Type :=
| Stop (r : R)
| Fails (e : exn) (r : R)
| Yield (b : B) (r : R) (rest : Pass B R).
Arguments Stop {B R} r.
Arguments Fails {B R} e r.
Arguments Yield {B R} b r rest.

(** The elements a pass yields when it is drawn to its end. *)
Fixpoint pass_batches {B R} (it : Pass B R) : list B :=
  match it with
  | Stop _ | Fails _ _ => []
  | Yield b _ rest => b :: pass_batches rest
  end.

(** The exception that ends the pass, if it does not end by itself. *)
Fixpoint pass_exn {B R} (it : Pass B R) : option exn :=
  match it with
  | Stop _ => None
  | Fails e _ => Some e
  | Yield _ _ rest => pass_exn rest
  end.

(** The random state after the last [next()] of the pass. *)
Fixpoint pass_end {B R} (it : Pass B R) : R :=
  match it with
  | Stop r | Fails _ r => r
  | Yield _ _ rest => pass_end rest
  end.

(** The random states after each [next()] of the pass, in order. *)
Fixpoint pass_states {B R} (it : Pass B R) : list R :=
  match it with
  | Stop r | Fails _ r => [r]
  | Yield _ r rest => r :: pass_states rest
  end.

(** The pass that yields the elements of a list and leaves the random
    state alone. *)
Fixpoint pass_of_list {B R} (r : R) (l : list B) : Pass B R :=
  match l with
  | [] => Stop r
  | b :: l' => Yield b r (pass_of_list r l')
  end.

(** The pass whose elements are mapped as they are drawn. *)
Fixpoint pass_map {A B R} (f : A → B) (it : Pass A R) : Pass B R :=
  match it with
  | Stop r => Stop r
  | Fails e r => Fails e r
  | Yield a r rest => Yield (f a) r (pass_map f rest)
  end.

(** A data loader: [len(data_loader.dataset)], and [iter(data_loader)] as
    a function of the iterator's random state. *)
Record DataLoader `{Torch} (Rng : Type) := {
  dataset_len : nat;
  dl_iter : Rng → Result (Pass Batch Rng);
}.
Arguments dataset_len {_ _} _.
Arguments dl_iter {_ _} _ _.

(** What the functions of the notebook return. *)
Inductive PyVal `{Torch} : Type :=
| PyNone
| PyFloat (f : Float)
| PyTensor (t : Tensor)
| PyTuple2 (a b : PyVal).

(** The accuracy accumulator starts as the Python int [0] and becomes a
    tensor at the first [+=] with a tensor. *)
Inductive Acc `{Torch} : Type :=
| AccInt (z : Z)
| AccTensor (t : Tensor).

(** ** Operations observed in a run *)
Inductive Op : Type :=
| OpModelTrain (mode : bool)     (* model.train() / model.eval() *)
| OpIter                         (* enumerate(data_loader) *)
| OpNext                         (* next() on the iterator, by the for statement *)
| OpZeroGrad                     (* optimizer.zero_grad() *)
| OpForward (c : Ctx)            (* model(text, text_lengths) *)
| OpSqueeze
| OpLoss (g : bool)              (* loss_function(outputs, batch.label) *)
| OpBackward                     (* loss.backward() *)
| OpStep                         (* optimizer.step() *)
| OpItem                         (* loss.item() *)
| OpSigmoid
| OpRound
| OpEq
| OpSum
| OpAdd                          (* current_acc += ... *)
| OpTrueDiv                      (* current_loss / len(...) *)
| OpDouble                       (* current_acc.double() *)
| OpDiv                          (* tensor / len(...) *)
| OpFormat                       (* '...'.format(total_loss, total_acc) *)
| OpPrint
| OpNewOptimizer                 (* torch.optim.Adam(model.parameters()) *)
| OpNewLoss                      (* torch.nn.BCEWithLogitsLoss() *)
| OpTo.                          (* .to(device) *)

(** One entry of a run's trace: a call with the exception it raised, if
    any, or a line written to standard output. *)
Inductive Event : Type :=
| Call (op : Op) (raised : option exn)
| Printed (s : string).

Definition ev_op (e : Event) : Op :=
  match e with Call op _ => op | Printed _ => OpPrint end.

Definition ev_raised (e : Event) : option exn :=
  match e with Call _ r => r | Printed _ => None end.

Definition ev_printed (e : Event) : option string :=
  match e with Call _ _ => None | Printed s => Some s end.

(** The operations of a trace, the exceptions raised in it and the lines
    printed in it, each in order. *)
Definition ops (t : list Event) : list Op := map ev_op t.
Definition raised (t : list Event) : list exn := omap ev_raised t.
Definition printed (t : list Event) : list string := omap ev_printed t.

(** ** The state the notebook's functions act on, and the monad they run in *)
Section Run.
Context `{Torch} {Params OptState Rng : Type}.

(** The objects shared between the model, the optimizer and the iterators.
    The optimizer holds references to the model's parameters, so there is
    one parameter store: [optimizer.step()] writes what the next
    [model(...)] reads. *)
Record World := {
  params : Params;          (* the model's parameters *)
  grads : Grads;            (* their .grad *)
  model_training : bool;    (* model.training *)
  grad_enabled : bool;      (* torch.is_grad_enabled() *)
  opt_state : OptState;     (* the optimizer's internal state *)
  rng : Rng;                (* the iterators' random state *)
}.

Definition set_params (p : Params) (w : World) : World :=
  {| params := p; grads := grads w; model_training := model_training w;
     grad_enabled := grad_enabled w; opt_state := opt_state w; rng := rng w |}.
Definition set_grads (g : Grads) (w : World) : World :=
  {| params := params w; grads := g; model_training := model_training w;
     grad_enabled := grad_enabled w; opt_state := opt_state w; rng := rng w |}.
Definition set_model_training (b : bool) (w : World) : World :=
  {| params := params w; grads := grads w; model_training := b;
     grad_enabled := grad_enabled w; opt_state := opt_state w; rng := rng w |}.
Definition set_grad_enabled (b : bool) (w : World) : World :=
  {| params := params w; grads := grads w; model_training := model_training w;
     grad_enabled := b; opt_state := opt_state w; rng := rng w |}.
Definition set_opt_state (s : OptState) (w : World) : World :=
  {| params := params w; grads := grads w; model_training := model_training w;
     grad_enabled := grad_enabled w; opt_state := s; rng := rng w |}.
Definition set_rng (r : Rng) (w : World) : World :=
  {| params := params w; grads := grads w; model_training := model_training w;
     grad_enabled := grad_enabled w; opt_state := opt_state w; rng := r |}.

(** The flags a forward call sees in a given state. *)
Definition ctx_of (w : World) : Ctx :=
  {| training := model_training w; grad := grad_enabled w |}.

(** A run's outcome: the result, the final state (mutations made before an
    exception stay) and the trace of calls, oldest first. *)
Record Out (A : Type) := MkOut {
  res : Result A;
  world : World;
  trace : list Event;
}.
Arguments MkOut {A} _ _ _.
Arguments res {A} _.
Arguments world {A} _.
Arguments trace {A} _.

Definition M (A : Type) : Type := World → Out A.

Definition ret {A} (a : A) : M A := λ w, MkOut (Ok a) w [].

(** Statement sequencing: an exception ends the run where it is raised. *)
Definition bind {A B} (m : M A) (f : A → M B) : M B := λ w,
  let o := m w in
  match res o with
  | Ok a => let o' := f a (world o) in
            MkOut (res o') (world o') (trace o ++ trace o')
  | Raise e => MkOut (Raise e) (world o) (trace o)
  end.

(** A library call that has no effect on the shared state. *)
Definition call {A} (op : Op) (r : Result A) : M A := λ w,
  MkOut r w [Call op (exn_of r)].

(** A library call that updates the shared state when it returns, and
    leaves it as it was when it raises. *)
Definition call_upd (op : Op) (r : World → Result World) : M unit := λ w,
  match r w with
  | Ok w' => MkOut (Ok tt) w' [Call op None]
  | Raise e => MkOut (Raise e) w [Call op (Some e)]
  end.

(** [print(s)]. *)
Definition print (s : string) : M unit := λ w, MkOut (Ok tt) w [Printed s].

(** [for x in l: s = body(s, x)] over a list ([range(n)]), with the
    loop-carried variables [s]. *)
Fixpoint for_each {A S} (l : list A) (s : S) (body : S → A → M S) : M S :=
  match l with
  | [] => ret s
  | x :: l' => bind (body s x) (λ s', for_each l' s' body)
  end.

(** One [next()] made by a [for] statement: it leaves the iterator's
    random state at [r], whether it returns or raises. *)
Definition pull {A} (r : Rng) (x : Result A) : M A := λ w,
  MkOut x (set_rng r w) [Call OpNext (exn_of x)].

(** [for x in it: s = body(s, x)] over an iterator: the statement calls
    [next()] before every round; [StopIteration] ends the loop, any other
    exception of [next()] leaves it. *)
Fixpoint for_pass {B S} (it : Pass B Rng) (s : S) (body : S → B → M S)
    : M S :=
  match it with
  | Stop r => pull r (Ok s)
  | Fails e r => pull r (Raise e)
  | Yield b r rest =>
      bind (pull r (Ok tt)) (λ _,
      bind (body s b) (λ s', for_pass rest s' body))
  end.

(** [try: body / except Exception as e: handler(e)].  The notebook has no
    such statement: it is what "catching an exception" means for a
    computation. *)
Definition try_except {A} (body : M A) (handler : exn → M A) : M A := λ w,
  let o := body w in
  match res o with
  | Ok _ => o
  | Raise e => let o' := handler e (world o) in
               MkOut (res o') (world o') (trace o ++ trace o')
  end.

(** [with torch.set_grad_enabled(mode): body].  The mode is set on entry
    and the previous mode restored on exit, also when [body] raises; the
    exit does not swallow the exception. *)
Definition with_grad_enabled {A} (mode : bool) (body : M A) : M A := λ w,
  let prev := grad_enabled w in
  let o := body (set_grad_enabled mode w) in
  MkOut (res o) (set_grad_enabled prev (world o)) (trace o).

End Run.

Arguments World {_} _ _ _.
Arguments Out {_} _ _ _ _.
Arguments M {_} _ _ _ _.
Arguments MkOut {_ _ _ _ _} _ _ _.
Arguments res {_ _ _ _ _} _.
Arguments world {_ _ _ _ _} _.
Arguments trace {_ _ _ _ _} _.

Declare Scope py_scope.
Delimit Scope py_scope with py.
Notation "x <- m ;; k" := (bind m (λ x, k))
  (at level 100, m at next level, right associativity) : py_scope.
Notation "m ;; k" := (bind m (λ _, k))
  (at level 100, right associativity) : py_scope.
Open Scope py_scope.

(** ** Cells 5 and 6: the training and the evaluation loop *)
Section Loops.
Context `{Torch} {Params OptState Rng : Type}.

#[local] Abbreviation World := (World Params OptState Rng).
#[local] Abbreviation M := (M Params OptState Rng).

(** [model.train()] and [model.eval()]: set [model.training]. *)
Definition model_train (model : Model Params) (mode : bool) : M unit :=
  call_upd (OpModelTrain mode)
    (λ w, rbind (module_train model mode)
            (λ _, Ok (set_model_training mode w))).

(** [enumerate(data_loader)]: the iterator the [for] statement draws
    from.  (The index it counts is not used by the loops.) *)
Definition enumerate (data_loader : DataLoader Rng) : M (Pass Batch Rng) :=
  λ w, call OpIter (dl_iter data_loader (rng w)) w.

(** [optimizer.zero_grad()]. *)
Definition zero_grad (optimizer : Optimizer Params OptState) : M unit :=
  call_upd OpZeroGrad
    (λ w, rbind (opt_zero_grad optimizer (grads w))
            (λ g, Ok (set_grads g w))).

(** [model(text, text_lengths)], under the flags in force. *)
Definition model_call (model : Model Params) (text : Tensor)
    (text_lengths : list Z) : M Tensor := λ w,
  call (OpForward (ctx_of w))
       (forward model (ctx_of w) (params w) text text_lengths) w.

(** [loss_function(outputs, label)], under the grad mode in force. *)
Definition loss_call (loss_function : LossFn) (outputs label : Tensor)
    : M Tensor := λ w,
  call (OpLoss (grad_enabled w))
       (loss_function (grad_enabled w) outputs label) w.

(** [loss.backward()]: accumulates into the parameters' [.grad]. *)
Definition loss_backward (loss : Tensor) : M unit :=
  call_upd OpBackward
    (λ w, rbind (backward loss (grads w)) (λ g, Ok (set_grads g w))).

(** [optimizer.step()]: updates the parameters and the optimizer state. *)
Definition step (optimizer : Optimizer Params OptState) : M unit :=
  call_upd OpStep
    (λ w, rbind (opt_step optimizer (opt_state w) (params w) (grads w))
            (λ sp, Ok (set_params sp.2 (set_opt_state sp.1 w)))).

(** [current_acc += t]. *)
Definition acc_iadd (current_acc : Acc) (t : Tensor) : M Acc :=
  match current_acc with
  | AccInt z => r <- call OpAdd (t_radd_int z t) ;; ret (AccTensor r)
  | AccTensor s => r <- call OpAdd (t_iadd s t) ;; ret (AccTensor r)
  end.

(** [current_loss / n] on a Python float. *)
Definition float_truediv (x : Float) (n : nat) : M Float :=
  call OpTrueDiv
    (if decide (n = 0) then Raise ZeroDivisionError
     else Ok (float_div_int x (Z.of_nat n))).

(** [current_acc.double()]: an int has no such method. *)
Definition acc_double (current_acc : Acc) : M Tensor :=
  call OpDouble
    (match current_acc with
     | AccInt _ => Raise AttributeError_int_double
     | AccTensor t => t_double t
     end).

(** ['<pre>{:.4f}<mid>{:.4f}'.format(x, y)]. *)
Definition format2 (pre mid : string) (x : Float) (y : Tensor) : M string :=
  call OpFormat
    (rbind (format_float x) (λ sx,
     rbind (format_tensor y) (λ sy,
     Ok (pre +:+ sx +:+ mid +:+ sy)))).

(** Cell 5. *)
Definition train_model (model : Model Params) (loss_function : LossFn)
    (optimizer : Optimizer Params OptState) (data_loader : DataLoader Rng)
    : M PyVal :=
  (* set model to training mode *)
  model_train model true ;;
  let current_loss := float_zero in
  let current_acc := AccInt 0 in
  (* iterate over the training data *)
  it <- enumerate data_loader ;;
  totals <-
    for_pass it (current_loss, current_acc)
      (λ '(current_loss, current_acc) batch,
        (* zero the parameter gradients *)
        zero_grad optimizer ;;
        let '(text, text_lengths) := batch_text batch in
        ol <- with_grad_enabled true (
          (* forward *)
          o <- model_call model text text_lengths ;;
          outputs <- call OpSqueeze (t_squeeze o) ;;
          loss <- loss_call loss_function outputs (batch_label batch) ;;
          (* backward *)
          loss_backward loss ;;
          step optimizer ;;
          ret (outputs, loss)) ;;
        let '(outputs, loss) := ol in
        (* statistics *)
        l <- call OpItem (t_item loss) ;;
        let current_loss :=
          float_add current_loss
            (float_mul_int l (Z.of_nat (length text_lengths))) in
        s <- call OpSigmoid (t_sigmoid outputs) ;;
        r <- call OpRound (t_round s) ;;
        r <- call OpRound (t_round r) ;;
        e <- call OpEq (t_eq r (t_data (batch_label batch))) ;;
        c <- call OpSum (t_sum e) ;;
        current_acc <- acc_iadd current_acc c ;;
        ret (current_loss, current_acc)) ;;
  let '(current_loss, current_acc) := totals in
  total_loss <- float_truediv current_loss (dataset_len data_loader) ;;
  d <- acc_double current_acc ;;
  total_acc <- call OpDiv (t_div_int d (Z.of_nat (dataset_len data_loader))) ;;
  s <- format2 "Train Loss: " "; Accuracy: " total_loss total_acc ;;
  print s ;;
  ret PyNone.

(** Cell 6. *)
Definition test_model (model : Model Params) (loss_function : LossFn)
    (data_loader : DataLoader Rng) : M PyVal :=
  (* set model in evaluation mode *)
  model_train model false ;;
  let current_loss := float_zero in
  let current_acc := AccInt 0 in
  (* iterate over the validation data *)
  it <- enumerate data_loader ;;
  totals <-
    for_pass it (current_loss, current_acc)
      (λ '(current_loss, current_acc) batch,
        let '(text, text_lengths) := batch_text batch in
        (* forward *)
        ol <- with_grad_enabled false (
          o <- model_call model text text_lengths ;;
          outputs <- call OpSqueeze (t_squeeze o) ;;
          loss <- loss_call loss_function outputs (batch_label batch) ;;
          ret (outputs, loss)) ;;
        let '(outputs, loss) := ol in
        (* statistics *)
        l <- call OpItem (t_item loss) ;;
        let current_loss :=
          float_add current_loss
            (float_mul_int l (Z.of_nat (length text_lengths))) in
        s <- call OpSigmoid (t_sigmoid outputs) ;;
        r <- call OpRound (t_round s) ;;
        r <- call OpRound (t_round r) ;;
        e <- call OpEq (t_eq r (t_data (batch_label batch))) ;;
        c <- call OpSum (t_sum e) ;;
        current_acc <- acc_iadd current_acc c ;;
        ret (current_loss, current_acc)) ;;
  let '(current_loss, current_acc) := totals in
  total_loss <- float_truediv current_loss (dataset_len data_loader) ;;
  d <- acc_double current_acc ;;
  total_acc <- call OpDiv (t_div_int d (Z.of_nat (dataset_len data_loader))) ;;
  s <- format2 "Test Loss: " "; Accuracy: " total_loss total_acc ;;
  print s ;;
  ret (PyTuple2 (PyFloat total_loss) (PyTensor total_acc)).

End Loops.

(** ** Cell 3: the model *)

#[global] Instance Result_ret : MRet Result := λ A a, Ok a.
#[global] Instance Result_bind : MBind Result := λ A B f r, rbind r f.

(** The layers of [torch.nn] the model is built from, and
    [torch.nn.utils.rnn.pack_padded_sequence]'s internals. *)
Class Layers `{Torch} := {
  Scalar : Type;                           (* an entry of a weight matrix *)
  scalar_zero : Scalar;
  LSTMWeights : Type;
  LinearWeights : Type;
  Packed : Type;                           (* a PackedSequence *)
  (* fresh weights, as the constructors draw them *)
  init_embedding : nat → nat → Scalar;     (* entry (i, j) of the table *)
  init_lstm : nat → nat → LSTMWeights;
  init_linear : nat → nat → LinearWeights;
  (* the layers' forward functions *)
  embedding_fwd : Ctx → list (list Scalar) → nat → Tensor → Result Tensor;
  lstm_fwd : Ctx → LSTMWeights → Packed → Result (Packed * (Tensor * Tensor));
  linear_fwd : Ctx → LinearWeights → Tensor → Result Tensor;
  (* packing: the argument checks other than the order of the lengths,
     and the packing itself *)
  pack_checks : Tensor → list Z → Result unit;
  pack_data : Tensor → list Z → Result Packed;
}.

(** [`lengths` array must be sorted in decreasing order when
    `enforce_sorted` is True.] *)
Definition RuntimeError_unsorted : exn :=
  Exn "RuntimeError"
      "`lengths` array must be sorted in decreasing order when `enforce_sorted` is True. You can pass `enforce_sorted=False` to pack_padded_sequence and/or pack_sequence to sidestep this requirement if you do not need ONNX exportability.".

Definition AssertionError_padding_idx : exn :=
  Exn "AssertionError" "Padding_idx must be within num_embeddings".

(** Indexing a tensor of [size] rows at [index]. *)
Definition IndexError_row (index size : nat) : exn :=
  Exn "IndexError"
      ("index " +:+ pretty index
       +:+ " is out of bounds for dimension 0 with size " +:+ pretty size).

(** Broadcasting sizes [a] and [b], neither of them 1, along dimension
    [dim]. *)
Definition RuntimeError_size (a b dim : nat) : exn :=
  Exn "RuntimeError"
      ("The size of tensor a (" +:+ pretty a
       +:+ ") must match the size of tensor b (" +:+ pretty b
       +:+ ") at non-singleton dimension " +:+ pretty dim).

(** Writing in place into a tensor of shape [[n, d]] what broadcasts to
    the other shape [[n', d']]. *)
Definition RuntimeError_output (n d n' d' : nat) : exn :=
  Exn "RuntimeError"
      ("output with shape [" +:+ pretty n +:+ ", " +:+ pretty d
       +:+ "] doesn't match the broadcast shape [" +:+ pretty n'
       +:+ ", " +:+ pretty d' +:+ "]").

(** Expanding a 1-D tensor of size [k], not 1, to the size [d]. *)
Definition RuntimeError_expand (d k : nat) : exn :=
  Exn "RuntimeError"
      ("The expanded size of the tensor (" +:+ pretty d
       +:+ ") must match the existing size (" +:+ pretty k
       +:+ ") at non-singleton dimension 0.  Target sizes: ["
       +:+ pretty d +:+ "].  Tensor sizes: [" +:+ pretty k +:+ "]").

(** [torch.nn.LSTM] with a hidden size of zero.  (Releases before the
    check was added fail in [reset_parameters], dividing by the square
    root of the hidden size.) *)
Definition ValueError_hidden_size : exn :=
  Exn "ValueError" "hidden_size must be greater than zero".

(** The order the packing wants: every length at least the next one. *)
Fixpoint sorted_decreasing (lengths : list Z) : bool :=
  match lengths with
  | [] => true
  | x :: rest =>
      match rest with
      | [] => true
      | y :: _ => (y <=? x)%Z && sorted_decreasing rest
      end
  end.

Section LSTMModel.
Context `{Layers}.

(** [pack_padded_sequence(input, lengths)] with the default
    [enforce_sorted=True], the only way the notebook calls it. *)
Definition pack_padded_sequence (input : Tensor) (lengths : list Z)
    : Result Packed :=
  _ ← pack_checks input lengths;
  if sorted_decreasing lengths then pack_data input lengths
  else Raise RuntimeError_unsorted.

Record Embedding := {
  num_embeddings : nat;
  embedding_dim : nat;
  padding_idx : nat;
  weight : list (list Scalar);      (* one row per token index *)
}.

Record LSTM := {
  input_size : nat;
  hidden_size : nat;
  lstm_weights : LSTMWeights;
}.

Record Linear := {
  in_features : nat;
  out_features : nat;
  linear_weights : LinearWeights;
}.

Record LSTMModel := {
  embedding : Embedding;
  rnn : LSTM;
  fc : Linear;
}.

(** [torch.zeros(n)]. *)
Definition zeros (n : nat) : list Scalar := replicate n scalar_zero.

(** [torch.nn.Embedding(num_embeddings, embedding_dim, padding_idx)]:
    a positive padding index is asserted to be within the table; the table
    is drawn afresh and its padding row filled with zeros
    ([self.weight[self.padding_idx].fill_(0)]). *)
Definition Embedding_new (num_embeddings embedding_dim padding_idx : nat)
    : Result Embedding :=
  if decide (0 < padding_idx ∧ ¬ padding_idx < num_embeddings) then
    Raise AssertionError_padding_idx
  else
    let table :=
      map (λ i, map (init_embedding i) (seq 0 embedding_dim))
          (seq 0 num_embeddings) in
    match table !! padding_idx with
    | None => Raise (IndexError_row padding_idx num_embeddings)
    | Some _ =>
        Ok {| num_embeddings := num_embeddings;
              embedding_dim := embedding_dim;
              padding_idx := padding_idx;
              weight := <[padding_idx := zeros embedding_dim]> table |}
    end.

(** [torch.nn.LSTM(input_size, hidden_size)]: the hidden size has to be
    positive. *)
Definition LSTM_new (input_size hidden_size : nat) : Result LSTM :=
  if decide (hidden_size = 0) then Raise ValueError_hidden_size
  else
    Ok {| input_size := input_size; hidden_size := hidden_size;
          lstm_weights := init_lstm input_size hidden_size |}.

(** [torch.nn.Linear(in_features, out_features)]. *)
Definition Linear_new (in_features out_features : nat) : Linear :=
  {| in_features := in_features; out_features := out_features;
     linear_weights := init_linear in_features out_features |}.

(** [LSTMModel.__init__]. *)
Definition LSTMModel_init
    (vocab_size embedding_size hidden_size output_size pad_idx : nat)
    : Result LSTMModel :=
  (* Embedding field *)
  embedding ← Embedding_new vocab_size embedding_size pad_idx;
  (* LSTM cell *)
  rnn ← LSTM_new embedding_size hidden_size;
  (* Fully connected output *)
  let fc := Linear_new hidden_size output_size in
  Ok {| embedding := embedding; rnn := rnn; fc := fc |}.

(** [LSTMModel.forward]. *)
Definition LSTMModel_forward (c : Ctx) (self : LSTMModel)
    (text_sequence : Tensor) (text_lengths : list Z) : Result Tensor :=
  (* Extract embedding vectors *)
  embeddings ← embedding_fwd c (weight (embedding self))
                 (padding_idx (embedding self)) text_sequence;
  (* Pad the sequences to equal length *)
  packed_sequence ← pack_padded_sequence embeddings text_lengths;
  out ← lstm_fwd c (rnn self) .(lstm_weights) packed_sequence;
  let '(packed_output, (hidden, cell)) := out in
  linear_fwd c (fc self).(linear_weights) hidden.

(** The model as the loops call it.  [train] is [torch.nn.Module]'s, which
    returns for a boolean mode. *)
Definition lstm_model : Model LSTMModel :=
  {| forward := LSTMModel_forward; module_train := λ _, Ok tt |}.

(** ** Cell 4: instantiating the model and initialising its weights *)

Definition EMBEDDING_SIZE : nat := 100.
Definition HIDDEN_SIZE : nat := 256.

(** [TEXT.vocab]: the index-to-token list, the token-to-index dictionary
    (a [defaultdict], so total) and the table of word vectors. *)
Record Vocab := {
  itos : list string;
  stoi : string → nat;
  vectors : list (list Scalar);
}.

(** The field's special tokens (the defaults of [torchtext.data.Field]). *)
Definition pad_token : string := "<pad>".
Definition unk_token : string := "<unk>".

(** A 2-D tensor is the list of its rows, all of one length: its width. *)
Definition width (t : list (list Scalar)) : nat :=
  match t with [] => 0 | r :: _ => length r end.

(** The size two sizes broadcast to along dimension [dim]: they are equal,
    or one of them is 1. *)
Definition broadcast_size (dim a b : nat) : Result nat :=
  if decide (a = b) then Ok a
  else if decide (a = 1) then Ok b
  else if decide (b = 1) then Ok a
  else Raise (RuntimeError_size a b dim).

(** A row, expanded to width [d] when it has one entry. *)
Definition expand_row (d : nat) (r : list Scalar) : list Scalar :=
  match r with [x] => replicate d x | _ => r end.

(** A table, expanded to [n] rows when it has one row. *)
Definition expand_rows (n : nat) (t : list (list Scalar)) : list (list Scalar) :=
  match t with [r] => replicate n r | _ => t end.

(** [dst.copy_(src)] on 2-D tensors: the two shapes are broadcast, last
    dimension first; the result has to be the shape of [dst], whose content
    the expanded [src] replaces. *)
Definition copy_ (dst src : list (list Scalar)) : Result (list (list Scalar)) :=
  d ← broadcast_size 1 (width dst) (width src);
  n ← broadcast_size 0 (length dst) (length src);
  if decide (n = length dst ∧ d = width dst) then
    Ok (expand_rows (length dst) (map (expand_row (width dst)) src))
  else Raise (RuntimeError_output (length dst) (width dst) n d).

(** [t[i] = row] on a 2-D tensor: the row is written as it is, or expanded
    when it has one entry. *)
Definition setitem (t : list (list Scalar)) (i : nat) (row : list Scalar)
    : Result (list (list Scalar)) :=
  match t !! i with
  | None => Raise (IndexError_row i (length t))
  | Some old =>
      if decide (length row = length old) then Ok (<[i := row]> t)
      else match row with
           | [x] => Ok (<[i := replicate (length old) x]> t)
           | _ => Raise (RuntimeError_expand (length old) (length row))
           end
  end.

Definition set_weight (w : list (list Scalar)) (model : LSTMModel) : LSTMModel :=
  {| embedding :=
       {| num_embeddings := num_embeddings (embedding model);
          embedding_dim := embedding_dim (embedding model);
          padding_idx := padding_idx (embedding model);
          weight := w |};
     rnn := rnn model; fc := fc model |}.

(** Cell 4. *)
Definition init_model (TEXT_vocab : Vocab) : Result LSTMModel :=
  model ← LSTMModel_init (length (itos TEXT_vocab)) EMBEDDING_SIZE
            HIDDEN_SIZE 1 (stoi TEXT_vocab pad_token);
  w ← copy_ (weight (embedding model)) (vectors TEXT_vocab);
  w ← setitem w (stoi TEXT_vocab unk_token) (zeros EMBEDDING_SIZE);
  w ← setitem w (stoi TEXT_vocab pad_token) (zeros EMBEDDING_SIZE);
  Ok (set_weight w model).

End LSTMModel.

(** ** Cell 2: the iterators

    [torchtext.data.BucketIterator], as far as the order inside a batch goes:
    how the minibatches are cut ([batch]), and what [Iterator.__iter__] does
    to each one under [sort_within_batch].  The shuffling of the training
    data and of its pools ([pool] with the iterator's random shuffler),
    which is done as the minibatches are drawn, is a parameter. *)

(** Python's sort is stable: [sorted] and [list.sort] keep elements with
    equal keys in the order they had, also with [reverse=True].  Inserting
    each element before the first one it may precede does that. *)
Section StableSort.
Context {A : Type} (R : relation A) `{!RelDecision R}.

Fixpoint insert_sorted (x : A) (l : list A) : list A :=
  match l with
  | [] => [x]
  | y :: l' => if decide (R x y) then x :: l else y :: insert_sorted x l'
  end.

Definition stable_sort (l : list A) : list A := foldr insert_sorted [] l.

End StableSort.

Section Iterators.
Context `{Torch} {Token Label Rng : Type}.

Record Example := {
  ex_text : list Token;      (* the tokenised review *)
  ex_label : Label;
}.

(** [IMDB.sort_key]: [len(ex.text)]. *)
Definition sort_key (ex : Example) : nat := length (ex_text ex).

(** The order [sorted] and [list.sort] compare the keys with, and its
    reverse. *)
Definition key_le (a b : Example) : Prop := sort_key a ≤ sort_key b.
Definition key_ge (a b : Example) : Prop := sort_key b ≤ sort_key a.

#[global] Instance key_le_dec : RelDecision key_le.
Proof. intros a b. unfold key_le. apply _. Defined.
#[global] Instance key_ge_dec : RelDecision key_ge.
Proof. intros a b. unfold key_ge. apply _. Defined.

(** [sorted(data, key=sort_key)]. *)
Definition sorted_by_key (data : list Example) : list Example :=
  stable_sort key_le data.

(** [minibatch.sort(key=sort_key, reverse=True)]. *)
Definition sort_reverse (minibatch : list Example) : list Example :=
  stable_sort key_ge minibatch.

(** [torchtext.data.batch(data, batch_size)] with the default size
    function (the number of examples): [minibatch] is the batch being
    filled, [data] what is still to be read. *)
Fixpoint batch_from {A} (batch_size : nat) (minibatch data : list A)
    : list (list A) :=
  match data with
  | [] => match minibatch with [] => [] | _ => [minibatch] end
  | ex :: data' =>
      let minibatch' := minibatch ++ [ex] in
      if decide (length minibatch' = batch_size) then
        minibatch' :: batch_from batch_size [] data'
      else if decide (batch_size < length minibatch') then
        minibatch :: batch_from batch_size [ex] data'
      else batch_from batch_size minibatch' data'
  end.

Definition batch {A} (data : list A) (batch_size : nat) : list (list A) :=
  batch_from batch_size [] data.

Record BucketIterator := {
  bi_dataset : list Example;
  bi_batch_size : nat;
  bi_train : bool;
  bi_sort : bool;
  bi_sort_within_batch : bool;
}.

(** [Iterator.__init__] with [sort=None]: [self.sort = not train]. *)
Definition BucketIterator_new (dataset : list Example) (batch_size : nat)
    (train sort_within_batch : bool) : BucketIterator :=
  {| bi_dataset := dataset; bi_batch_size := batch_size; bi_train := train;
     bi_sort := negb train; bi_sort_within_batch := sort_within_batch |}.

(** [BucketIterator.splits((train, test), ...)]: the first dataset gets
    [train=True], the others [train=False]. *)
Definition splits (datasets : list Example * list Example)
    (sort_within_batch : bool) (batch_size : nat)
    : BucketIterator * BucketIterator :=
  (BucketIterator_new datasets.1 batch_size true sort_within_batch,
   BucketIterator_new datasets.2 batch_size false sort_within_batch).

Context (pool : list Example → nat → Rng → Pass (list Example) Rng)
        (numericalize : list (list Token) → Tensor)
        (label_tensor : list Label → Tensor).

(** [BucketIterator.create_batches]: the minibatches of a sorted iterator
    are cut from the sorted data, without any use of the random state. *)
Definition create_batches (it : BucketIterator) (r : Rng)
    : Pass (list Example) Rng :=
  if bi_sort it then
    pass_of_list r (batch (sorted_by_key (bi_dataset it)) (bi_batch_size it))
  else pool (bi_dataset it) (bi_batch_size it) r.

(** The per-minibatch step of [Iterator.__iter__]. *)
Definition within_batch (it : BucketIterator) (minibatch : list Example)
    : list Example :=
  if bi_sort_within_batch it then
    if bi_sort it then reverse minibatch else sort_reverse minibatch
  else minibatch.

(** [Batch(minibatch, dataset, device)]: the text field is processed with
    [include_lengths=True], so [batch.text] carries the length of every
    review next to the padded token indices. *)
Definition make_batch (minibatch : list Example) : Batch :=
  {| batch_text := (numericalize (map ex_text minibatch),
                    map (λ ex, Z.of_nat (sort_key ex)) minibatch);
     batch_label := label_tensor (map ex_label minibatch) |}.

(** One pass over the iterator ([Iterator.__iter__], a generator): every
    minibatch is ordered and made a batch when it is drawn. *)
Definition iterate (it : BucketIterator) (r : Rng) : Pass Batch Rng :=
  pass_map (λ minibatch, make_batch (within_batch it minibatch))
           (create_batches it r).

(** The iterator as the loops see it. *)
Definition loader (it : BucketIterator) : DataLoader Rng :=
  {| dataset_len := length (bi_dataset it);
     dl_iter := λ r, Ok (iterate it r) |}.

(** Cell 2, last statement. *)
Definition make_iters (train test : list Example)
    : BucketIterator * BucketIterator :=
  splits (train, test) true 64.

End Iterators.

(** ** Cell 7: the driver *)

(** The optimizer, the loss and the device transfer of the library. *)
Class Optim `{Torch} (Params OptState : Type) := {
  Adam_new : Params → Result OptState;   (* torch.optim.Adam(model.parameters()) *)
  Adam : Optimizer Params OptState;      (* its zero_grad and step *)
  BCEWithLogitsLoss : Result LossFn;     (* torch.nn.BCEWithLogitsLoss() *)
  loss_to_device : LossFn → Result LossFn;
  model_to_device : Params → Result Params;
}.

Section Driver.
Context `{Torch} {Params OptState Rng : Type} `{!Optim Params OptState}.

#[local] Abbreviation M' := (M Params OptState Rng).

(** The body of [for epoch in range(5)]. *)
Definition epoch_body (model : Model Params) (loss_function : LossFn)
    (optimizer : Optimizer Params OptState)
    (train_iter test_iter : DataLoader Rng) (epoch : nat) : M' unit :=
  print ("Epoch " +:+ pretty (epoch + 1) +:+ "/5") ;;
  train_model model loss_function optimizer train_iter ;;
  test_model model loss_function test_iter ;;
  ret tt.

(** Cell 7. *)
Definition main (model : Model Params)
    (train_iter test_iter : DataLoader Rng) : M' unit :=
  call_upd OpNewOptimizer
    (λ w, s ← Adam_new (params w); Ok (set_opt_state s w)) ;;
  let optimizer := Adam in
  l <- call OpNewLoss BCEWithLogitsLoss ;;
  loss_function <- call OpTo (loss_to_device l) ;;
  call_upd OpTo (λ w, p ← model_to_device (params w); Ok (set_params p w)) ;;
  for_each (seq 0 5) tt
    (λ _ epoch, epoch_body model loss_function optimizer train_iter test_iter epoch).

End Driver.

(** ** The specification's view of the model and of the two loops *)

Section ForwardStages.
Context `{Layers}.

(** Stage 1: embedding lookup on the token indices. *)
Definition embedding_lookup (c : Ctx) (self : LSTMModel) (text : Tensor)
    : Result Tensor :=
  embedding_fwd c (weight (embedding self)) (padding_idx (embedding self)) text.

(** Stage 2: the recurrent encoder, which reads the embedded sequences up
    to their true lengths and yields the final hidden state. *)
Definition recurrent_encoder (c : Ctx) (self : LSTMModel)
    (embeddings : Tensor) (lengths : list Z) : Result Tensor :=
  packed ← pack_padded_sequence embeddings lengths;
  out ← lstm_fwd c (rnn self).(lstm_weights) packed;
  Ok out.2.1.

(** Stage 3: the linear projection of the final hidden state. *)
Definition linear_projection (c : Ctx) (self : LSTMModel) (hidden : Tensor)
    : Result Tensor :=
  linear_fwd c (fc self).(linear_weights) hidden.

(** The three stages in sequence. *)
Definition forward_stages (c : Ctx) (self : LSTMModel) (text : Tensor)
    (lengths : list Z) : Result Tensor :=
  embeddings ← embedding_lookup c self text;
  hidden ← recurrent_encoder c self embeddings lengths;
  linear_projection c self hidden.

End ForwardStages.

Section MetricLoop.
Context `{Torch} {Params OptState Rng : Type}.

#[local] Abbreviation M'' := (M Params OptState Rng).

(** What distinguishes one pass over the data from another: the mode the
    model is put in, the grad mode of the forward computation, what is done
    before and after the forward computation of a batch, the tag of the
    printed line and what is handed back to the caller. *)
Record LoopKind := {
  lk_training : bool;
  lk_grad : bool;
  lk_before : M'' unit;
  lk_after : Tensor → M'' unit;
  lk_tag : string;
  lk_result : Float → Tensor → PyVal;
}.

(** The outputs and the loss of one batch. *)
Definition batch_forward (kind : LoopKind) (model : Model Params)
    (loss_function : LossFn) (batch : Batch) : M'' (Tensor * Tensor) :=
  with_grad_enabled (lk_grad kind) (
    o <- model_call model (batch_text batch).1 (batch_text batch).2 ;;
    outputs <- call OpSqueeze (t_squeeze o) ;;
    loss <- loss_call loss_function outputs (batch_label batch) ;;
    lk_after kind loss ;;
    ret (outputs, loss)).

(** The running sums after one more batch: the batch loss times the batch
    size, and the count of rounded sigmoid outputs equal to the labels. *)
Definition batch_statistics (sums : Float * Acc) (batch : Batch)
    (outputs loss : Tensor) : M'' (Float * Acc) :=
  l <- call OpItem (t_item loss) ;;
  s <- call OpSigmoid (t_sigmoid outputs) ;;
  r <- call OpRound (t_round s) ;;
  r <- call OpRound (t_round r) ;;
  e <- call OpEq (t_eq r (t_data (batch_label batch))) ;;
  c <- call OpSum (t_sum e) ;;
  current_acc <- acc_iadd sums.2 c ;;
  ret (float_add sums.1
         (float_mul_int l (Z.of_nat (length (batch_text batch).2))),
       current_acc).

(** The sums divided by the size of the dataset. *)
Definition epoch_totals (sums : Float * Acc) (data_loader : DataLoader Rng)
    : M'' (Float * Tensor) :=
  total_loss <- float_truediv sums.1 (dataset_len data_loader) ;;
  d <- acc_double sums.2 ;;
  total_acc <- call OpDiv (t_div_int d (Z.of_nat (dataset_len data_loader))) ;;
  ret (total_loss, total_acc).

(** One pass over a data loader. *)
Definition metric_loop (kind : LoopKind) (model : Model Params)
    (loss_function : LossFn) (data_loader : DataLoader Rng) : M'' PyVal :=
  model_train model (lk_training kind) ;;
  it <- enumerate data_loader ;;
  sums <- for_pass it (float_zero, AccInt 0)
    (λ sums batch,
      lk_before kind ;;
      ol <- batch_forward kind model loss_function batch ;;
      batch_statistics sums batch ol.1 ol.2) ;;
  totals <- epoch_totals sums data_loader ;;
  s <- format2 (lk_tag kind +:+ " Loss: ") "; Accuracy: " totals.1 totals.2 ;;
  print s ;;
  ret (lk_result kind totals.1 totals.2).

(** The training pass: gradients are reset before, and computed and
    applied after, the forward computation; nothing is returned. *)
Definition train_kind (optimizer : Optimizer Params OptState) : LoopKind :=
  {| lk_training := true; lk_grad := true;
     lk_before := zero_grad optimizer;
     lk_after := λ loss, loss_backward loss ;; step optimizer;
     lk_tag := "Train";
     lk_result := λ _ _, PyNone |}.

(** The evaluation pass: nothing before and nothing after the forward
    computation; the totals are returned. *)
Definition test_kind : LoopKind :=
  {| lk_training := false; lk_grad := false;
     lk_before := ret tt;
     lk_after := λ _, ret tt;
     lk_tag := "Test";
     lk_result := λ total_loss total_acc,
                    PyTuple2 (PyFloat total_loss) (PyTensor total_acc) |}.

(** The flags of the forward computation in the two passes. *)
Definition train_ctx : Ctx := {| training := true; grad := true |}.
Definition eval_ctx : Ctx := {| training := false; grad := false |}.

(** The order of the calls for one batch of a training pass, from the
    [next()] that draws it. *)
Definition train_batch_schedule : list Op :=
  [ OpNext;
    OpZeroGrad;                                          (* reset gradients *)
    OpForward {| training := true; grad := true |};      (* forward pass *)
    OpSqueeze;
    OpLoss true;                                         (* loss *)
    OpBackward;                                          (* backward pass *)
    OpStep;                                              (* optimizer step *)
    OpItem; OpSigmoid; OpRound; OpRound; OpEq; OpSum; OpAdd ].  (* statistics *)

(** The order of the calls for one batch of an evaluation pass. *)
Definition test_batch_schedule : list Op :=
  [ OpNext;
    OpForward {| training := false; grad := false |};
    OpSqueeze;
    OpLoss false;
    OpItem; OpSigmoid; OpRound; OpRound; OpEq; OpSum; OpAdd ].

(** The calls that close a pass: the [next()] that finds the iterator
    exhausted, the two totals, the formatting and the printed line. *)
Definition totals_schedule : list Op :=
  [ OpNext; OpTrueDiv; OpDouble; OpDiv; OpFormat; OpPrint ].

(** The order of the calls of a whole pass over [n] batches. *)
Definition train_schedule (n : nat) : list Op :=
  [OpModelTrain true; OpIter]
  ++ mjoin (replicate n train_batch_schedule) ++ totals_schedule.

Definition test_schedule (n : nat) : list Op :=
  [OpModelTrain false; OpIter]
  ++ mjoin (replicate n test_batch_schedule) ++ totals_schedule.

(** The pass a loader hands out in random state [r] (none when
    [iter()] raises). *)
Definition pass_of (data_loader : DataLoader Rng) (r : Rng) : Pass Batch Rng :=
  match dl_iter data_loader r with Ok it => it | Raise _ => Stop r end.

(** What the loop gets to see of a pass: its batches, and the exception
    that ends it, if any. *)
Definition drawn (data_loader : DataLoader Rng) (r : Rng)
    : Result (list Batch * option exn) :=
  it ← dl_iter data_loader r; Ok (pass_batches it, pass_exn it).

(** The order of the calls of [n] epochs of the driver, from the
    iterators' random state [r]: each pass starts in the state the pass
    before it ended in. *)
Fixpoint epochs_schedule (train_iter test_iter : DataLoader Rng)
    (n : nat) (r : Rng) : list Op :=
  match n with
  | 0 => []
  | S n' =>
      let train_pass := pass_of train_iter r in
      let test_pass := pass_of test_iter (pass_end train_pass) in
      [OpPrint] ++ train_schedule (length (pass_batches train_pass))
      ++ test_schedule (length (pass_batches test_pass))
      ++ epochs_schedule train_iter test_iter n' (pass_end test_pass)
  end.

(** The order of the calls of the driver. *)
Definition main_schedule (train_iter test_iter : DataLoader Rng) (r : Rng)
    : list Op :=
  [OpNewOptimizer; OpNewLoss; OpTo; OpTo]
  ++ epochs_schedule train_iter test_iter 5 r.




(** An event of a pass that leaves the parameters alone and tracks no
    gradients: no reset, backward pass or optimizer step, and every forward
    and loss computation under grad mode off. *)
Definition no_grad_event (e : Event) : Prop :=
  match ev_op e with
  | OpForward c => grad c = false
  | OpLoss g => g = false
  | OpZeroGrad | OpBackward | OpStep | OpNewOptimizer | OpTo => False
  | _ => True
  end.

End MetricLoop.

(** ** The formulas of the two loops

    What the specification says the loops compute, as functions of the
    parameters and the batches: the outputs and the loss of a batch, the
    two running sums and the two totals. *)
Section MetricFormulas.
Context `{Torch} {Params OptState Rng : Type}.

(** The outputs of a batch: the squeezed result of the forward pass. *)
Definition outputs_of (c : Ctx) (model : Model Params) (p : Params)
    (b : Batch) : Result Tensor :=
  o ← forward model c p (batch_text b).1 (batch_text b).2;
  t_squeeze o.

(** The loss of a batch. *)
Definition loss_of (c : Ctx) (loss_function : LossFn) (outputs : Tensor)
    (b : Batch) : Result Tensor :=
  loss_function (grad c) outputs (batch_label b).

(** The batch loss times the batch size. *)
Definition loss_term (loss : Tensor) (b : Batch) : Result Float :=
  l ← t_item loss;
  Ok (float_mul_int l (Z.of_nat (length (batch_text b).2))).

(** The count of the rounded sigmoid outputs equal to the labels. *)
Definition correct_count (outputs : Tensor) (b : Batch) : Result Tensor :=
  s ← t_sigmoid outputs;
  r ← t_round s;
  r ← t_round r;
  e ← t_eq r (t_data (batch_label b));
  t_sum e.

(** The count added to the running count, an int before the first batch. *)
Definition add_count (acc : Acc) (c : Tensor) : Result Acc :=
  match acc with
  | AccInt z => t ← t_radd_int z c; Ok (AccTensor t)
  | AccTensor s => t ← t_iadd s c; Ok (AccTensor t)
  end.

(** The running sums after one more batch. *)
Definition accumulate (sums : Float * Acc) (b : Batch)
    (outputs loss : Tensor) : Result (Float * Acc) :=
  lt ← loss_term loss b;
  c ← correct_count outputs b;
  acc ← add_count sums.2 c;
  Ok (float_add sums.1 lt, acc).

(** The totals: the sums divided by the size of the dataset. *)
Definition totals_of (sums : Float * Acc) (n : nat) : Result (Float * Tensor) :=
  total_loss ← (if decide (n = 0) then Raise ZeroDivisionError
                else Ok (float_div_int sums.1 (Z.of_nat n)));
  d ← match sums.2 with
      | AccInt _ => Raise AttributeError_int_double
      | AccTensor t => t_double t
      end;
  total_acc ← t_div_int d (Z.of_nat n);
  Ok (total_loss, total_acc).

(** The line a pass prints of its totals. *)
Definition metrics_line (pre mid : string) (totals : Float * Tensor)
    : Result string :=
  sl ← format_float totals.1;
  sa ← format_tensor totals.2;
  Ok (pre +:+ sl +:+ mid +:+ sa).

(** The lines a pass has printed: its one line if it got that far. *)
Definition lines_of (line : Result string) : list string :=
  match line with Ok s => [s] | Raise _ => [] end.

(** What the optimizer and the model share: the parameters, their
    gradients and the optimizer's state. *)
Record Store := {
  st_params : Params;
  st_grads : Grads;
  st_opt : OptState;
}.

Definition store_of (w : World Params OptState Rng) : Store :=
  {| st_params := params w; st_grads := grads w; st_opt := opt_state w |}.

(** The pass ends by itself, or with the exception of a [next()]. *)
Definition pass_check {B R} (it : Pass B R) : Result unit :=
  match pass_exn it with Some e => Raise e | None => Ok tt end.

(** One batch of an evaluation pass, at the parameters [p]: the outputs
    and the loss in evaluation mode without gradient tracking, and the
    sums. *)
Definition evaluation_batch (model : Model Params) (loss_function : LossFn)
    (p : Params) (sums : Float * Acc) (b : Batch) : Result (Float * Acc) :=
  outputs ← outputs_of eval_ctx model p b;
  loss ← loss_of eval_ctx loss_function outputs b;
  accumulate sums b outputs loss.

(** The sums of an evaluation pass over the batches [bs]. *)
Fixpoint evaluation_sums (model : Model Params) (loss_function : LossFn)
    (p : Params) (bs : list Batch) (sums : Float * Acc)
    : Result (Float * Acc) :=
  match bs with
  | [] => Ok sums
  | b :: bs' =>
      sums' ← evaluation_batch model loss_function p sums b;
      evaluation_sums model loss_function p bs' sums'
  end.

(** One batch of a training pass, from the store [st]: the gradients are
    reset, the outputs and the loss are computed in training mode with
    gradient tracking at the parameters in force, the backward pass adds
    to the reset gradients, the optimizer steps from them, and then the
    sums are taken. *)
Definition training_batch (model : Model Params) (loss_function : LossFn)
    (optimizer : Optimizer Params OptState) (st : Store)
    (sums : Float * Acc) (b : Batch) : Result (Store * (Float * Acc)) :=
  g0 ← opt_zero_grad optimizer (st_grads st);
  outputs ← outputs_of train_ctx model (st_params st) b;
  loss ← loss_of train_ctx loss_function outputs b;
  g1 ← backward loss g0;
  sp ← opt_step optimizer (st_opt st) (st_params st) g1;
  sums' ← accumulate sums b outputs loss;
  Ok ({| st_params := sp.2; st_grads := g1; st_opt := sp.1 |}, sums').

(** The store and the sums of a training pass over the batches [bs]: each
    batch starts from the store the batch before it left. *)
Fixpoint training_pass (model : Model Params) (loss_function : LossFn)
    (optimizer : Optimizer Params OptState) (st : Store) (bs : list Batch)
    (sums : Float * Acc) : Result (Store * (Float * Acc)) :=
  match bs with
  | [] => Ok (st, sums)
  | b :: bs' =>
      x ← training_batch model loss_function optimizer st sums b;
      training_pass model loss_function optimizer x.1 bs' x.2
  end.

(** The totals of [test_model], from the parameters [p] and the
    iterator's random state [r]. *)
Definition evaluation_result (model : Model Params) (loss_function : LossFn)
    (data_loader : DataLoader Rng) (p : Params) (r : Rng)
    : Result (Float * Tensor) :=
  _ ← module_train model false;
  it ← dl_iter data_loader r;
  sums ← evaluation_sums model loss_function p (pass_batches it)
           (float_zero, AccInt 0);
  _ ← pass_check it;
  totals_of sums (dataset_len data_loader).

(** The store after, and the totals of, [train_model], from the store
    [st] and the iterator's random state [r]. *)
Definition training_result (model : Model Params) (loss_function : LossFn)
    (optimizer : Optimizer Params OptState) (data_loader : DataLoader Rng)
    (st : Store) (r : Rng) : Result (Store * (Float * Tensor)) :=
  _ ← module_train model true;
  it ← dl_iter data_loader r;
  x ← training_pass model loss_function optimizer st (pass_batches it)
        (float_zero, AccInt 0);
  _ ← pass_check it;
  totals ← totals_of x.2 (dataset_len data_loader);
  Ok (x.1, totals).

End MetricFormulas.

Arguments Store {_} _ _.

(** ** A small concrete library, to run the definitions on

    Tensors and floats are integers, the model multiplies its single
    weight by the input, the optimizer is plain gradient descent. *)
Module Toy.

(** The decimal digits of an integer. *)
Definition show (x : Z) : string :=
  DecimalString.NilZero.string_of_int (Z.to_int x).

Definition torch : Torch := {|
  Tensor := Z;
  Float := Z;
  Grads := Z;
  float_zero := 0%Z;
  float_add := Z.add;
  float_mul_int := Z.mul;
  float_div_int := Z.div;
  format_float := λ x, Ok (show x);
  t_squeeze := λ x, Ok x;
  t_item := λ x, Ok x;
  t_sigmoid := λ x, Ok (if (0 <? x)%Z then 1%Z else 0%Z);
  t_round := λ x, Ok x;
  t_data := λ x, x;
  t_eq := λ x y, Ok (if (x =? y)%Z then 1%Z else 0%Z);
  t_sum := λ x, Ok x;
  t_radd_int := λ z x, Ok (z + x)%Z;
  t_iadd := λ x y, Ok (x + y)%Z;
  t_double := λ x, Ok x;
  t_div_int := λ x n, Ok (x / n)%Z;
  format_tensor := λ x, Ok (show x);
  backward := λ loss g, Ok (g + loss)%Z;
|}.

Definition model : @Model torch Z :=
  @Build_Model torch Z
    (λ (c : Ctx) (p text : Z) (lengths : list Z), Ok (p * text)%Z)
    (λ _ : bool, Ok tt).

Definition loss_function : @LossFn torch :=
  λ (g : bool) (outputs label : Z), Ok (outputs - label)%Z.

(** A loss function that rejects the label 0, as the library's loss does
    a target of the wrong shape. *)
Definition ValueError : exn :=
  Exn "ValueError" "Target size must be the same as input size".

Definition picky_loss : @LossFn torch :=
  λ (g : bool) (outputs label : Z),
    if (label =? 0)%Z then Raise ValueError else Ok (outputs - label)%Z.

Definition optimizer : @Optimizer torch Z nat :=
  @Build_Optimizer torch Z nat
    (λ _ : Z, Ok 0%Z)
    (λ (s : nat) (p g : Z), Ok (S s, (p - g)%Z)).

Definition optim : @Optim torch Z nat :=
  @Build_Optim torch Z nat
    (λ _ : Z, Ok 0)                       (* Adam_new *)
    optimizer                             (* Adam *)
    (Ok loss_function)                    (* BCEWithLogitsLoss *)
    (λ l, Ok l)                           (* loss_to_device *)
    (λ p : Z, Ok p).                      (* model_to_device *)

Definition batch1 : @Batch torch := @Build_Batch torch (3%Z, [5; 4; 2]%Z) 1%Z.
Definition batch2 : @Batch torch := @Build_Batch torch ((-2)%Z, [7; 7]%Z) 0%Z.

(** A loader over five reviews in two batches; every [next()] advances
    the random state by one. *)
Definition data_loader : @DataLoader torch nat :=
  @Build_DataLoader torch nat 5
    (λ r, Ok (Yield batch1 (r + 1) (Yield batch2 (r + 2) (Stop (r + 3))))).

(** A loader over two reviews in one batch. *)
Definition test_loader : @DataLoader torch nat :=
  @Build_DataLoader torch nat 2
    (λ r, Ok (Yield batch2 (r + 1) (Stop (r + 2)))).

(** A loader that yields no batch, over a dataset of [n] reviews. *)
Definition empty_loader (n : nat) : @DataLoader torch nat :=
  @Build_DataLoader torch nat n (λ r, Ok (Stop (r + 1))).

(** A loader whose second [next()] raises. *)
Definition OSError : exn := Exn "OSError" "read failed".

Definition broken_loader : @DataLoader torch nat :=
  @Build_DataLoader torch nat 5
    (λ r, Ok (Yield batch1 (r + 1) (Fails OSError (r + 2)))).

Definition world0 : @World torch Z nat nat :=
  @Build_World torch Z nat nat 2%Z 0%Z false true 0 0.

(** Layers over integers: the embedding adds the number of rows of its
    table, the recurrent layer and the linear layer add their weight. *)
Definition layers : @Layers torch :=
  @Build_Layers torch
    Z 0%Z                                 (* Scalar, scalar_zero *)
    Z Z Z                                 (* LSTMWeights, LinearWeights, Packed *)
    (λ i j, Z.of_nat (i + j + 1))         (* init_embedding *)
    (λ i h, Z.of_nat (i + h))             (* init_lstm *)
    (λ i o, Z.of_nat (i + o))             (* init_linear *)
    (λ (c : Ctx) (w : list (list Z)) (pad : nat) (text : Z),
       Ok (text + Z.of_nat (length w))%Z) (* embedding_fwd *)
    (λ (c : Ctx) (w p : Z), Ok (p, ((p + w)%Z, 0%Z)))   (* lstm_fwd *)
    (λ (c : Ctx) (w h : Z), Ok (h + w)%Z) (* linear_fwd *)
    (λ (input : Z) (lengths : list Z), Ok tt)            (* pack_checks *)
    (λ (input : Z) (lengths : list Z),
       Ok (input + foldr Z.add 0 lengths)%Z).            (* pack_data *)

(** A vocabulary of four tokens with 100-dimensional vectors. *)
Definition vocab : @Vocab torch layers :=
  @Build_Vocab torch layers
    ["<unk>"; "<pad>"; "the"; "film"]
    (λ tok, if String.eqb tok "<pad>" then 1
            else if String.eqb tok "the" then 2
            else if String.eqb tok "film" then 3 else 0)
    [replicate 100 5%Z; replicate 100 6%Z;
     replicate 100 7%Z; replicate 100 8%Z].

(** Three tokenised reviews of lengths 2, 5 and 3, and two more. *)
Definition reviews : list (@Example nat bool) :=
  [ @Build_Example nat bool [4; 9] true;
    @Build_Example nat bool [4; 7; 7; 2; 3] false;
    @Build_Example nat bool [8; 2; 6] true ].

Definition reviews' : list (@Example nat bool) :=
  [ @Build_Example nat bool [1; 1; 1; 1] true;
    @Build_Example nat bool [5] false ].

(** A shuffler that cuts the data in order, and advances the random state
    with the first minibatch. *)
Definition pool (data : list (@Example nat bool)) (batch_size : nat) (r : nat)
    : Pass (list (@Example nat bool)) nat :=
  pass_of_list (S r) (batch data batch_size).

Definition numericalize (texts : list (list nat)) : Z :=
  Z.of_nat (length texts).

Definition label_tensor (labels : list bool) : Z :=
  Z.of_nat (length (filter (λ b, b = true) labels)).

End Toy.

(** ** Judgements on runs *)
Section Judgements.
Context `{Torch} {Params OptState Rng : Type}.

#[local] Abbreviation World := (World Params OptState Rng).
#[local] Abbreviation M := (M Params OptState Rng).

(** A run hands on what its calls raise: if it returns, no call has
    raised; if it raises [e], it ends with a call that raised [e], the
    first call of the run to raise.  So no exception of a call is caught
    or replaced, nothing is done after it, and no exception comes from
    anything but a call. *)
Definition hands_on {A} (o : Out Params OptState Rng A) : Prop :=
  match res o with
  | Ok _ => raised (trace o) = []
  | Raise e => ∃ t op, trace o = t ++ [Call op (Some e)] ∧ raised t = []
  end.

Definition propagates {A} (m : M A) : Prop := ∀ w, hands_on (m w).

(** From a state satisfying [P], the run ends (returning or raising) in a
    state satisfying [Q], and all its events satisfy [E]. *)
Definition triple {A} (P : World → Prop) (m : M A) (Q : World → Prop)
    (E : Event → Prop) : Prop :=
  ∀ w, P w → Q (world (m w)) ∧ Forall E (trace (m w)).

(** From a state satisfying [P], a run that returns [a] has made exactly
    the calls [s], in this order, and ends in a state satisfying [Q a]; a
    run that raises has made an initial part of [s]. *)
Definition follows {A} (P : World → Prop) (m : M A) (s : list Op)
    (Q : A → World → Prop) : Prop :=
  ∀ w, P w →
    match res (m w) with
    | Ok a => ops (trace (m w)) = s ∧ Q a (world (m w))
    | Raise _ => ops (trace (m w)) `prefix_of` s
    end.

(** The parameters, their gradients and the optimizer state are [p], [g]
    and [s], and the grad mode is [b]. *)
Definition store_is (p : Params) (g : Grads) (s : OptState) (b : bool)
    (w : World) : Prop :=
  params w = p ∧ grads w = g ∧ opt_state w = s ∧ grad_enabled w = b.

(** An event that writes nothing to standard output. *)
Definition no_print (e : Event) : Prop := ev_printed e = None.

(** The model is in mode [t], the grad mode is [b] and the iterators'
    random state is [r]. *)
Definition flags_are (t b : bool) (r : Rng) (w : World) : Prop :=
  model_training w = t ∧ grad_enabled w = b ∧ rng w = r.

End Judgements.

(** ** Further judgements and the toy library, continued *)
Section MoreJudgements.
Context `{Torch} {Params OptState Rng : Type}.

#[local] Abbreviation World := (World Params OptState Rng).
#[local] Abbreviation M := (M Params OptState Rng).

(** Two runs started in states related by [R] have the same result and the
    same trace, and end in states related by [R']. *)
Definition respects {A} (R R' : World → World → Prop) (m : M A) : Prop :=
  ∀ w1 w2, R w1 w2 →
    res (m w1) = res (m w2)
    ∧ trace (m w1) = trace (m w2)
    ∧ R' (world (m w1)) (world (m w2)).

(** The two states hold the same parameters and the same model mode. *)
Definition same_model (w1 w2 : World) : Prop :=
  params w1 = params w2 ∧ model_training w1 = model_training w2.

(** ... and the same grad mode. *)
Definition same_model_and_grad (w1 w2 : World) : Prop :=
  same_model w1 w2 ∧ grad_enabled w1 = grad_enabled w2.

(** From a state satisfying [P], the run returns, with a value and a final
    state satisfying [Q]. *)
Definition returns {A} (P : World → Prop) (m : M A)
    (Q : A → World → Prop) : Prop :=
  ∀ w, P w → ∃ a, res (m w) = Ok a ∧ Q a (world (m w)).

(** What a run computes: its result together with the store it leaves,
    or the exception it raises. *)
Definition den {A} (o : Out Params OptState Rng A) : Result (A * Store Params OptState) :=
  match res o with
  | Ok a => Ok (a, store_of (world o))
  | Raise e => Raise e
  end.

(** With the model in mode [t] and under grad mode [b], the computation
    [m] computes [F] on the store, and leaves the two flags as they are. *)
Definition computes {A} (t b : bool) (m : M A)
    (F : Store Params OptState → Result (A * Store Params OptState)) : Prop :=
  ∀ w, model_training w = t → grad_enabled w = b →
    den (m w) = F (store_of w)
    ∧ model_training (world (m w)) = t ∧ grad_enabled (world (m w)) = b.

(** A loop over the batches [bs] whose body computes [F]. *)
Fixpoint fold_pass {B S} (F : S → B → Store Params OptState
                               → Result (S * Store Params OptState))
    (bs : list B) (s : S) (st : Store Params OptState)
    : Result (S * Store Params OptState) :=
  match bs with
  | [] => Ok (s, st)
  | b :: bs' => x ← F s b st; fold_pass F bs' x.1 x.2
  end.

(** Every call of the library returns. *)
Record library_returns : Prop := {
  format_float_ok : ∀ x, is_ok (format_float x) = true;
  format_tensor_ok : ∀ x, is_ok (format_tensor x) = true;
  squeeze_ok : ∀ x, is_ok (t_squeeze x) = true;
  item_ok : ∀ x, is_ok (t_item x) = true;
  sigmoid_ok : ∀ x, is_ok (t_sigmoid x) = true;
  round_ok : ∀ x, is_ok (t_round x) = true;
  eq_ok : ∀ x y, is_ok (t_eq x y) = true;
  sum_ok : ∀ x, is_ok (t_sum x) = true;
  radd_int_ok : ∀ z x, is_ok (t_radd_int z x) = true;
  iadd_ok : ∀ x y, is_ok (t_iadd x y) = true;
  double_ok : ∀ x, is_ok (t_double x) = true;
  div_int_ok : ∀ x n, is_ok (t_div_int x n) = true;
  backward_ok : ∀ loss g, is_ok (backward loss g) = true;
}.

(** The accuracy accumulator has become a tensor. *)
Definition is_tensor (a : Acc) : Prop :=
  match a with AccInt _ => False | AccTensor _ => True end.

(** Every call of a model, a loss function and an optimizer returns. *)
Definition model_returns (model : Model Params) : Prop :=
  (∀ mode, is_ok (module_train model mode) = true)
  ∧ ∀ c p text lengths, is_ok (forward model c p text lengths) = true.

Definition loss_returns (loss_function : LossFn) : Prop :=
  ∀ g outputs label, is_ok (loss_function g outputs label) = true.

Definition optimizer_returns (optimizer : Optimizer Params OptState) : Prop :=
  (∀ g, is_ok (opt_zero_grad optimizer g) = true)
  ∧ ∀ s p g, is_ok (opt_step optimizer s p g) = true.

(** In random state [r] the loader hands out a pass that yields at least
    one batch and ends by itself, over a dataset that is not empty. *)
Definition loader_yields (data_loader : DataLoader Rng) (r : Rng) : Prop :=
  ∃ it, dl_iter data_loader r = Ok it
        ∧ pass_exn it = None ∧ pass_batches it ≠ []
        ∧ dataset_len data_loader ≠ 0.

(** The iterators' random state after [n] epochs of the driver. *)
Fixpoint epochs_rng (train_iter test_iter : DataLoader Rng) (n : nat)
    (r : Rng) : Rng :=
  match n with
  | 0 => r
  | S n' =>
      epochs_rng train_iter test_iter n'
        (pass_end (pass_of test_iter (pass_end (pass_of train_iter r))))
  end.

(** The lines of the two loops. *)
Definition is_train_line (s : string) : Prop :=
  ∃ sl sa, s = "Train Loss: " +:+ sl +:+ "; Accuracy: " +:+ sa.

Definition is_test_line (s : string) : Prop :=
  ∃ sl sa, s = "Test Loss: " +:+ sl +:+ "; Accuracy: " +:+ sa.

(** The three lines of epoch number [epoch] (from 0), given the two lines
    of its loops. *)
Definition epoch_lines (epoch : nat) (lines : string * string) : list string :=
  ["Epoch " +:+ pretty (epoch + 1) +:+ "/5"; lines.1; lines.2].

End MoreJudgements.

Section DriverJudgements.
Context `{Torch} {Params OptState : Type} `{!Optim Params OptState}.


End DriverJudgements.

Module ToyMore.

(** An optimizer whose step counts but leaves the parameters alone. *)
Definition frozen_optimizer : @Optimizer Toy.torch Z nat :=
  @Build_Optimizer Toy.torch Z nat
    (λ _ : Z, Ok 0%Z)
    (λ (s : nat) (p g : Z), Ok (S s, p)).

(** A model that reads its mode, as one with a dropout layer does: in
    training mode the weight is left out. *)
Definition dropout_model : @Model Toy.torch Z :=
  @Build_Model Toy.torch Z
    (λ (c : Ctx) (p text : Z) (lengths : list Z),
       if training c then Ok text else Ok (p * text)%Z)
    (λ _ : bool, Ok tt).

(** A model that cannot be put in evaluation mode. *)
Definition stuck_model : @Model Toy.torch Z :=
  @Build_Model Toy.torch Z
    (λ (c : Ctx) (p text : Z) (lengths : list Z), Ok (p * text)%Z)
    (λ mode : bool, if mode then Ok tt else Raise Toy.ValueError).

(** The toy state after some training: other gradients, optimizer state,
    mode and grad mode, the same parameters. *)
Definition world1 : @World Toy.torch Z nat nat :=
  @Build_World Toy.torch Z nat nat 2%Z 17%Z true false 4 0.

(** A vocabulary whose vectors are 50-dimensional. *)
Definition vocab50 : @Vocab Toy.torch Toy.layers :=
  @Build_Vocab Toy.torch Toy.layers
    ["<unk>"; "<pad>"; "the"; "film"]
    (λ tok, if String.eqb tok "<pad>" then 1
            else if String.eqb tok "the" then 2
            else if String.eqb tok "film" then 3 else 0)
    [replicate 50 5%Z; replicate 50 6%Z;
     replicate 50 7%Z; replicate 50 8%Z].

(** A vocabulary whose padding token is mapped outside the table. *)
Definition vocab_bad_pad : @Vocab Toy.torch Toy.layers :=
  @Build_Vocab Toy.torch Toy.layers
    ["<unk>"; "<pad>"; "the"; "film"]
    (λ tok, if String.eqb tok "<pad>" then 9 else 0)
    [replicate 100 5%Z; replicate 100 6%Z;
     replicate 100 7%Z; replicate 100 8%Z].

End ToyMore.

(** * Properties *)

(** ** Facts about results, traces and the run monad *)

Lemma raised_app (t1 t2 : list Event) : raised (t1 ++ t2) = raised t1 ++ raised t2.
Proof. unfold raised. apply omap_app. Qed.

Lemma printed_app (t1 t2 : list Event) :
  printed (t1 ++ t2) = printed t1 ++ printed t2.
Proof. unfold printed. apply omap_app. Qed.

Lemma ops_app (t1 t2 : list Event) : ops (t1 ++ t2) = ops t1 ++ ops t2.
Proof. unfold ops. apply map_app. Qed.

Lemma is_ok_Ok {A} (r : Result A) : is_ok r = true → ∃ a, r = Ok a.
Proof. destruct r as [a|e]; [eauto | discriminate]. Qed.

Lemma printed_nil_of_calls (t : list Event) :
  Forall (λ e, ev_printed e = None) t → printed t = [].
Proof.
  induction 1 as [|e t He _ IH]; [reflexivity|].
  unfold printed in *. simpl. rewrite He. exact IH.
Qed.

Section RunFacts.
Context `{Torch} {Params OptState Rng : Type}.

#[local] Abbreviation World := (World Params OptState Rng).
#[local] Abbreviation M := (M Params OptState Rng).

(** *** Unfolding a sequence *)

Lemma bind_ok {A B} (m : M A) (f : A → M B) (w : World) (a : A) :
  res (m w) = Ok a →
  bind m f w = MkOut (res (f a (world (m w)))) (world (f a (world (m w))))
                     (trace (m w) ++ trace (f a (world (m w)))).
Proof. intros Hm. unfold bind. rewrite Hm. reflexivity. Qed.

Lemma bind_raise {A B} (m : M A) (f : A → M B) (w : World) (e : exn) :
  res (m w) = Raise e →
  bind m f w = MkOut (Raise e) (world (m w)) (trace (m w)).
Proof. intros Hm. unfold bind. rewrite Hm. reflexivity. Qed.

(** A sequence that returns went through both of its parts. *)
Lemma bind_ok_inv {A B} (m : M A) (f : A → M B) (w : World) (b : B) :
  res (bind m f w) = Ok b →
  ∃ a, res (m w) = Ok a
       ∧ res (f a (world (m w))) = Ok b
       ∧ world (bind m f w) = world (f a (world (m w)))
       ∧ trace (bind m f w) = trace (m w) ++ trace (f a (world (m w))).
Proof.
  unfold bind. destruct (res (m w)) as [a|e] eqn:Hm; simpl; [|discriminate].
  intros Hf. exists a. auto.
Qed.

(** Running a sequence whose first part is known. *)
Lemma bind_run_ok {A B} (m : M A) (f : A → M B) (w w1 : World) (a : A)
    (t1 : list Event) :
  m w = MkOut (Ok a) w1 t1 →
  bind m f w = MkOut (res (f a w1)) (world (f a w1)) (t1 ++ trace (f a w1)).
Proof. intros Hm. unfold bind. rewrite Hm. reflexivity. Qed.

Lemma bind_run_raise {A B} (m : M A) (f : A → M B) (w w1 : World) (e : exn)
    (t1 : list Event) :
  m w = MkOut (Raise e) w1 t1 → bind m f w = MkOut (Raise e) w1 t1.
Proof. intros Hm. unfold bind. rewrite Hm. reflexivity. Qed.

Lemma run_model_train (model : Model Params) (mode : bool) (w : World) :
  module_train model mode = Ok tt →
  model_train model mode w
  = MkOut (Ok tt) (set_model_training mode w) [Call (OpModelTrain mode) None].
Proof. intros Hmode. unfold model_train, call_upd. by rewrite Hmode. Qed.

Lemma run_model_train_raise (model : Model Params) (mode : bool) (w : World)
    (e : exn) :
  module_train model mode = Raise e →
  model_train model mode w = MkOut (Raise e) w [Call (OpModelTrain mode) (Some e)].
Proof. intros Hmode. unfold model_train, call_upd. by rewrite Hmode. Qed.

Lemma run_enumerate (data_loader : DataLoader Rng) (w : World) :
  enumerate data_loader w
  = MkOut (dl_iter data_loader (rng w)) w
          [Call OpIter (exn_of (dl_iter data_loader (rng w)))].
Proof. reflexivity. Qed.

Lemma run_enumerate_ok (data_loader : DataLoader Rng) (w : World)
    (it : Pass Batch Rng) :
  dl_iter data_loader (rng w) = Ok it →
  enumerate data_loader w = MkOut (Ok it) w [Call OpIter None].
Proof. intros Hit. rewrite run_enumerate, Hit. reflexivity. Qed.

Lemma run_enumerate_raise (data_loader : DataLoader Rng) (w : World) (e : exn) :
  dl_iter data_loader (rng w) = Raise e →
  enumerate data_loader w = MkOut (Raise e) w [Call OpIter (Some e)].
Proof. intros Hit. rewrite run_enumerate, Hit. reflexivity. Qed.

(** The left unit law, pointwise. *)
Lemma bind_ret_l {A B} (a : A) (f : A → M B) (w : World) :
  bind (ret a) f w = f a w.
Proof. unfold bind, ret. simpl. destruct (f a w); reflexivity. Qed.

(** Sequences with pointwise equal parts are pointwise equal. *)
Lemma bind_ext {A B} (m m' : M A) (f f' : A → M B) (w : World) :
  m w = m' w → (∀ a w', f a w' = f' a w') → bind m f w = bind m' f' w.
Proof. intros Hm Hf. unfold bind. rewrite Hm. destruct (res (m' w)); [rewrite Hf|]; reflexivity. Qed.

Lemma for_each_ext {A S} (l : list A) (body body' : S → A → M S) :
  (∀ s x w, body s x w = body' s x w) →
  ∀ s w, for_each l s body w = for_each l s body' w.
Proof.
  intros Hb. induction l as [|x l IH]; intros s w; simpl; [reflexivity|].
  apply bind_ext; [apply Hb | intros; apply IH].
Qed.

Lemma for_pass_ext {B S} (it : Pass B Rng) (body body' : S → B → M S) :
  (∀ s x w, body s x w = body' s x w) →
  ∀ s w, for_pass it s body w = for_pass it s body' w.
Proof.
  intros Hb. induction it as [r|e r|b r rest IH]; intros s w; simpl;
    [reflexivity..|].
  apply bind_ext; [reflexivity|]. intros _ w1.
  apply bind_ext; [apply Hb | intros; apply IH].
Qed.

Lemma with_grad_enabled_ext {A} (mode : bool) (m m' : M A) (w : World) :
  (∀ w', m w' = m' w') → with_grad_enabled mode m w = with_grad_enabled mode m' w.
Proof. intros Hm. unfold with_grad_enabled. rewrite Hm. reflexivity. Qed.

(** *** Exceptions go through *)

Lemma propagates_ret {A} (a : A) :
  propagates (ret (Params:=Params) (OptState:=OptState) (Rng:=Rng) a).
Proof. intros w. reflexivity. Qed.

Lemma propagates_call {A} (op : Op) (r : Result A) :
  propagates (call (Params:=Params) (OptState:=OptState) (Rng:=Rng) op r).
Proof. intros w. destruct r as [a|e]; simpl; [reflexivity|]. by exists [], op. Qed.

Lemma propagates_call_upd (op : Op) (f : World → Result World) :
  propagates (call_upd op f).
Proof.
  intros w. unfold call_upd. destruct (f w) as [w'|e]; simpl; [reflexivity|].
  by exists [], op.
Qed.

Lemma propagates_print (s : string) :
  propagates (print (Params:=Params) (OptState:=OptState) (Rng:=Rng) s).
Proof. intros w. reflexivity. Qed.

Lemma propagates_pull {A} (r : Rng) (x : Result A) :
  propagates (pull (Params:=Params) (OptState:=OptState) r x).
Proof. intros w. destruct x as [a|e]; simpl; [reflexivity|]. by exists [], OpNext. Qed.

Lemma propagates_bind {A B} (m : M A) (f : A → M B) :
  propagates m → (∀ a, propagates (f a)) → propagates (bind m f).
Proof.
  intros Hm Hf w. specialize (Hm w). unfold hands_on in *. unfold bind.
  destruct (res (m w)) as [a|e] eqn:E; simpl; [|exact Hm].
  specialize (Hf a (world (m w))). unfold hands_on in Hf.
  destruct (res (f a (world (m w)))) as [b|e].
  - by rewrite raised_app, Hm, Hf.
  - destruct Hf as (t & op & -> & Ht). exists (trace (m w) ++ t), op.
    split; [by rewrite app_assoc|]. by rewrite raised_app, Hm, Ht.
Qed.

Lemma propagates_for_each {A S} (l : list A) (body : S → A → M S) :
  (∀ s x, propagates (body s x)) → ∀ s, propagates (for_each l s body).
Proof.
  intros Hb. induction l as [|x l IH]; intros s; simpl.
  - apply propagates_ret.
  - apply propagates_bind; [apply Hb | exact IH].
Qed.

(** The [for] statement hands on what [next()] and the body raise. *)
Lemma propagates_for_pass {B S} (it : Pass B Rng) (body : S → B → M S) :
  (∀ s x, propagates (body s x)) → ∀ s, propagates (for_pass it s body).
Proof.
  intros Hb. induction it as [r|e r|b r rest IH]; intros s; simpl.
  - apply propagates_pull.
  - apply propagates_pull.
  - apply propagates_bind; [apply propagates_pull|]. intros _.
    apply propagates_bind; [apply Hb | exact IH].
Qed.

(** Leaving the [with] block hands the body's exception on. *)
Lemma propagates_with_grad_enabled {A} (mode : bool) (m : M A) :
  propagates m → propagates (with_grad_enabled mode m).
Proof. intros Hm w. unfold with_grad_enabled. simpl. apply Hm. Qed.

Lemma propagates_enumerate (data_loader : DataLoader Rng) :
  propagates (enumerate (Params:=Params) (OptState:=OptState) data_loader).
Proof. intros w. unfold enumerate. apply propagates_call. Qed.

Lemma propagates_model_call (model : Model Params) (text : Tensor) (lengths : list Z) :
  propagates (model_call (OptState:=OptState) (Rng:=Rng) model text lengths).
Proof. intros w. unfold model_call. apply propagates_call. Qed.

Lemma propagates_loss_call (loss_function : LossFn) (outputs label : Tensor) :
  propagates (loss_call (Params:=Params) (OptState:=OptState) (Rng:=Rng)
                loss_function outputs label).
Proof. intros w. unfold loss_call. apply propagates_call. Qed.

(** A handler that returns makes a result of the exception it is given:
    catching is not handing on. *)
Lemma try_except_catches {A} (body : M A) (a : A) (w : World) (e : exn) :
  res (body w) = Raise e →
  res (try_except body (λ _, ret a) w) = Ok a
  ∧ raised (trace (try_except body (λ _, ret a) w)) = raised (trace (body w)).
Proof.
  intros Hbody. unfold try_except. rewrite Hbody. simpl.
  by rewrite app_nil_r.
Qed.

End RunFacts.

(** ** Exceptions in the loops and the driver (C7) *)

Ltac propagates_step :=
  first
    [ apply propagates_ret | apply propagates_call | apply propagates_call_upd
    | apply propagates_print | apply propagates_enumerate
    | apply propagates_model_call | apply propagates_loss_call
    | apply propagates_with_grad_enabled
    | apply propagates_for_each; intros
    | apply propagates_for_pass; intros
    | apply propagates_bind; [|intros]
    | match goal with
      | |- context [let '(_, _) := ?p in _] => destruct p; cbv beta iota
      | |- propagates (match ?a with AccInt _ => _ | AccTensor _ => _ end) =>
          destruct a
      end ].

Ltac propagates_auto :=
  unfold model_train, zero_grad, loss_backward, step, acc_iadd,
    float_truediv, acc_double, format2;
  repeat propagates_step.

Section Exceptions.
Context `{Torch} {Params OptState Rng : Type}.

Lemma propagates_train_model (model : Model Params) (loss_function : LossFn)
    (optimizer : Optimizer Params OptState) (data_loader : DataLoader Rng) :
  propagates (train_model model loss_function optimizer data_loader).
Proof. unfold train_model. propagates_auto. Qed.

Lemma propagates_test_model (model : Model Params) (loss_function : LossFn)
    (data_loader : DataLoader Rng) :
  propagates (test_model (OptState:=OptState) model loss_function data_loader).
Proof. unfold test_model. propagates_auto. Qed.

Lemma propagates_main `{!Optim Params OptState} (model : Model Params)
    (train_iter test_iter : DataLoader Rng) :
  propagates (main model train_iter test_iter).
Proof.
  unfold main, epoch_body.
  repeat first
    [ apply propagates_train_model | apply propagates_test_model
    | propagates_step ].
Qed.

(** C7.  In a run of [train_model], of [test_model] and of the driver,
    whatever the model, the loss function, the optimizer and the data
    loaders do (every one of their operations may raise: switching the
    mode, [iter()] and every [next()] of the loader, resetting the
    gradients, the forward pass, the loss, the backward pass, the step, the
    tensor operations of the statistics): a run that returns has seen no
    operation raise, and a run that raises [e] ends with an operation that
    raised [e], the first one of the run to raise.  So the exception of an
    operation is never caught, replaced or turned into a result, nothing
    is done after it, and the functions raise nothing of their own. *)
Theorem exceptions_propagate `{!Optim Params OptState} (model : Model Params)
    (loss_function : LossFn) (optimizer : Optimizer Params OptState)
    (data_loader train_iter test_iter : DataLoader Rng)
    (w : World Params OptState Rng) :
  hands_on (train_model model loss_function optimizer data_loader w)
  ∧ hands_on (test_model model loss_function data_loader w)
  ∧ hands_on (main model train_iter test_iter w).
Proof.
  split; [apply propagates_train_model|].
  split; [apply propagates_test_model | apply propagates_main].
Qed.

End Exceptions.

(** ** Invariants of a run and properties of all its events *)

(** Membership in a list given by its elements. *)
Ltac in_list := repeat first [apply list_elem_of_here | apply list_elem_of_further].

(** A property of events that holds by computation for each operation of a
    given list. *)
Ltac event_cases :=
  intros;
  repeat match goal with
         | Hop : _ ∈ _ :: _ |- _ => apply elem_of_cons in Hop as [->|Hop]
         | Hop : _ ∈ [] |- _ => by apply elem_of_nil in Hop
         end;
  first [exact I | done].

Section Triples.
Context `{Torch} {Params OptState Rng : Type}.

#[local] Abbreviation World := (World Params OptState Rng).
#[local] Abbreviation M := (M Params OptState Rng).


Lemma triple_ret {A} (P : World → Prop) (E : Event → Prop) (a : A) :
  triple P (ret a) P E.
Proof. intros w HP. split; [exact HP | constructor]. Qed.

Lemma triple_call {A} (P : World → Prop) (E : Event → Prop) (op : Op)
    (r : Result A) :
  (∀ o, E (Call op o)) → triple P (call op r) P E.
Proof. intros HE w HP. split; [exact HP | repeat constructor; apply HE]. Qed.

Lemma triple_call_upd (P Q : World → Prop) (E : Event → Prop) (op : Op)
    (f : World → Result World) :
  (∀ o, E (Call op o)) →
  (∀ w, P w → Q w) →
  (∀ w w', P w → f w = Ok w' → Q w') →
  triple P (call_upd op f) Q E.
Proof.
  intros HE HPQ Hf w HP. unfold call_upd.
  destruct (f w) as [w'|e] eqn:Hfw; simpl;
    (split; [eauto | repeat constructor; apply HE]).
Qed.

Lemma triple_print (P : World → Prop) (E : Event → Prop) (s : string) :
  E (Printed s) → triple P (print s) P E.
Proof. intros HE w HP. split; [exact HP | repeat constructor; exact HE]. Qed.

Lemma triple_bind {A B} (P Q : World → Prop) (E : Event → Prop)
    (m : M A) (f : A → M B) :
  triple P m Q E → (∀ a, triple Q (f a) Q E) → triple P (bind m f) Q E.
Proof.
  intros Hm Hf w HP. destruct (Hm w HP) as [HQ HE]. unfold bind.
  destruct (res (m w)) as [a|e]; simpl; [|auto].
  destruct (Hf a _ HQ) as [HQ' HE']. split; [exact HQ'|].
  apply Forall_app; auto.
Qed.

Lemma triple_for_each {A S} (Q : World → Prop) (E : Event → Prop)
    (l : list A) (body : S → A → M S) :
  (∀ s x, triple Q (body s x) Q E) → ∀ s, triple Q (for_each l s body) Q E.
Proof.
  intros Hb. induction l as [|x l IH]; intros s; simpl.
  - apply triple_ret.
  - apply triple_bind; [apply Hb | exact IH].
Qed.

(** The [with] block: the body runs under the new grad mode, and the mode
    in force before the block is back after it. *)
Lemma triple_with_grad_enabled {A} (Q Q' : World → Prop) (E : Event → Prop)
    (mode : bool) (m : M A) :
  triple Q' m Q' E →
  (∀ w, Q w → Q' (set_grad_enabled mode w)) →
  (∀ w w', Q w → Q' w' → Q (set_grad_enabled (grad_enabled w) w')) →
  triple Q (with_grad_enabled mode m) Q E.
Proof.
  intros Hm Hin Hout w HQ. unfold with_grad_enabled. simpl.
  destruct (Hm _ (Hin w HQ)) as [HQ' HE]. split; [apply Hout; assumption | exact HE].
Qed.

Lemma triple_enumerate (Q : World → Prop) (E : Event → Prop)
    (data_loader : DataLoader Rng) :
  (∀ o, E (Call OpIter o)) →
  triple Q (enumerate data_loader) Q E.
Proof.
  intros HE w Hw. unfold enumerate, call. simpl.
  split; [exact Hw | repeat constructor; apply HE].
Qed.

Lemma triple_pull {A} (Q : World → Prop) (E : Event → Prop) (r : Rng)
    (x : Result A) :
  (∀ o, E (Call OpNext o)) →
  (∀ w, Q w → Q (set_rng r w)) →
  triple Q (pull r x) Q E.
Proof.
  intros HE HQ w Hw. unfold pull. simpl.
  split; [apply HQ, Hw | repeat constructor; apply HE].
Qed.

(** A property that no [next()] disturbs and the body keeps holds after
    the loop, however it ends. *)
Lemma triple_for_pass {B S} (Q : World → Prop) (E : Event → Prop)
    (it : Pass B Rng) (body : S → B → M S) :
  (∀ o, E (Call OpNext o)) →
  (∀ w r, Q w → Q (set_rng r w)) →
  (∀ s x, triple Q (body s x) Q E) → ∀ s, triple Q (for_pass it s body) Q E.
Proof.
  intros HE HQ Hb. induction it as [r|e r|b r rest IH]; intros s; simpl.
  - apply triple_pull; auto.
  - apply triple_pull; auto.
  - apply triple_bind; [apply triple_pull; auto|]. intros _.
    apply triple_bind; [apply Hb | exact IH].
Qed.

Lemma triple_model_train (Q : World → Prop) (E : Event → Prop)
    (model : Model Params) (mode : bool) :
  (∀ o, E (Call (OpModelTrain mode) o)) →
  (∀ w, Q w → Q (set_model_training mode w)) →
  triple Q (model_train model mode) Q E.
Proof.
  intros HE HQ. apply triple_call_upd; [exact HE|auto|].
  intros w w' Hw. destruct (module_train model mode); simpl; [|done].
  intros [= <-]. auto.
Qed.

Lemma triple_model_call (P : World → Prop) (E : Event → Prop)
    (model : Model Params) (text : Tensor) (lengths : list Z) :
  (∀ w o, P w → E (Call (OpForward (ctx_of w)) o)) →
  triple P (model_call model text lengths) P E.
Proof.
  intros HE w HP. unfold model_call, call. simpl.
  split; [exact HP | repeat constructor; apply HE, HP].
Qed.

Lemma triple_loss_call (P : World → Prop) (E : Event → Prop)
    (loss_function : LossFn) (outputs label : Tensor) :
  (∀ w o, P w → E (Call (OpLoss (grad_enabled w)) o)) →
  triple P (loss_call loss_function outputs label) P E.
Proof.
  intros HE w HP. unfold loss_call, call. simpl.
  split; [exact HP | repeat constructor; apply HE, HP].
Qed.

Lemma triple_acc_iadd (P : World → Prop) (E : Event → Prop) (a : Acc)
    (t : Tensor) :
  (∀ o, E (Call OpAdd o)) → triple P (acc_iadd a t) P E.
Proof.
  intros HE. destruct a; simpl;
    (apply triple_bind; [apply triple_call, HE | intros; apply triple_ret]).
Qed.

(** The steps shared by the two loops after the forward computation of a
    batch, and after the last batch. *)
Lemma triple_statistics (P : World → Prop) (E : Event → Prop)
    (current_loss : Float) (current_acc : Acc) (batch : Batch)
    (text_lengths : list Z) (outputs loss : Tensor) :
  (∀ op o, op ∈ [OpItem; OpSigmoid; OpRound; OpEq; OpSum; OpAdd] →
           E (Call op o)) →
  triple P
    (l <- call OpItem (t_item loss) ;;
     let current_loss' :=
       float_add current_loss
         (float_mul_int l (Z.of_nat (length text_lengths))) in
     s <- call OpSigmoid (t_sigmoid outputs) ;;
     r <- call OpRound (t_round s) ;;
     r <- call OpRound (t_round r) ;;
     e <- call OpEq (t_eq r (t_data (batch_label batch))) ;;
     c <- call OpSum (t_sum e) ;;
     current_acc' <- acc_iadd current_acc c ;;
     ret (current_loss', current_acc'))
    P E.
Proof.
  intros HE.
  repeat first
    [ apply triple_ret
    | apply triple_call; intros; apply HE; in_list
    | apply triple_acc_iadd; intros; apply HE; in_list
    | apply triple_bind; [|intros] ].
Qed.

Lemma triple_totals (P : World → Prop) (E : Event → Prop)
    (pre mid : string) (current_loss : Float) (current_acc : Acc)
    (data_loader : DataLoader Rng) (result : Float → Tensor → PyVal) :
  (∀ op o, op ∈ [OpTrueDiv; OpDouble; OpDiv; OpFormat] → E (Call op o)) →
  (∀ s, E (Printed s)) →
  triple P
    (total_loss <- float_truediv current_loss (dataset_len data_loader) ;;
     d <- acc_double current_acc ;;
     total_acc <- call OpDiv (t_div_int d (Z.of_nat (dataset_len data_loader))) ;;
     s <- format2 pre mid total_loss total_acc ;;
     print s ;;
     ret (result total_loss total_acc))
    P E.
Proof.
  intros HE HP. unfold float_truediv, acc_double, format2.
  repeat first
    [ apply triple_ret
    | apply triple_call; intros; apply HE; in_list
    | apply triple_print; apply HP
    | apply triple_bind; [|intros] ].
Qed.

End Triples.

(** ** The evaluation loop leaves the parameters alone (C1) *)
Section EvalFrame.
Context `{Torch} {Params OptState Rng : Type}.

Lemma triple_test_model (model : Model Params) (loss_function : LossFn)
    (data_loader : DataLoader Rng) (p : Params) (g : Grads) (s : OptState)
    (b : bool) :
  triple (store_is (Rng:=Rng) p g s b)
         (test_model model loss_function data_loader)
         (store_is p g s b) no_grad_event.
Proof.
  unfold test_model.
  apply triple_bind.
  { apply triple_model_train; [event_cases|]. intros w Hw. exact Hw. }
  intros _. apply triple_bind.
  { apply triple_enumerate. event_cases. }
  intros it. apply triple_bind.
  - apply triple_for_pass; [event_cases | by intros w r Hw |].
    intros [current_loss current_acc] batch.
    destruct (batch_text batch) as [text text_lengths].
    apply triple_bind.
    + apply (triple_with_grad_enabled _ (store_is p g s false)).
      * repeat first
          [ apply triple_ret
          | apply triple_call; event_cases
          | apply triple_model_call; intros w o (_ & _ & _ & Hg);
            unfold no_grad_event, ctx_of; simpl; exact Hg
          | apply triple_loss_call; intros w o (_ & _ & _ & Hg);
            unfold no_grad_event; simpl; exact Hg
          | apply triple_bind; [|intros] ].
      * intros w (? & ? & ? & ?). repeat split; assumption.
      * intros w w' (_ & _ & _ & Hb) (? & ? & ? & _). repeat split; assumption.
    + intros [outputs loss]. apply triple_statistics.
      event_cases.
  - intros [current_loss current_acc].
    apply (triple_totals _ _ _ _ _ _ _
             (λ tl ta, PyTuple2 (PyFloat tl) (PyTensor ta))).
    + event_cases.
    + event_cases.
Qed.

(** C1.  A run of [test_model], whether it returns or raises, ends with the
    model's parameters (and their gradients and the optimizer state) as
    they were before the call, and every forward and loss computation of
    the run is made under grad mode off; the run resets no gradients, runs
    no backward pass and takes no optimizer step.  The grad mode in force
    before the call is in force again after it. *)
Theorem test_model_leaves_parameters (model : Model Params)
    (loss_function : LossFn) (data_loader : DataLoader Rng)
    (w : World Params OptState Rng) :
  let o := test_model model loss_function data_loader w in
  params (world o) = params w
  ∧ grads (world o) = grads w
  ∧ opt_state (world o) = opt_state w
  ∧ grad_enabled (world o) = grad_enabled w
  ∧ Forall no_grad_event (trace o).
Proof.
  destruct (triple_test_model model loss_function data_loader
              (params w) (grads w) (opt_state w) (grad_enabled w) w)
    as [(Hp & Hg & Hs & Hb) HE].
  { repeat split. }
  simpl. auto.
Qed.

End EvalFrame.

(** ** The order of the calls of a run *)
Section Schedules.
Context `{Torch} {Params OptState Rng : Type}.

#[local] Abbreviation World := (World Params OptState Rng).
#[local] Abbreviation M := (M Params OptState Rng).

Lemma follows_pre {A} (P P' : World → Prop) (m : M A) (s : list Op)
    (Q : A → World → Prop) :
  (∀ w, P w → P' w) → follows P' m s Q → follows P m s Q.
Proof. intros HP Hm w Hw. apply Hm, HP, Hw. Qed.

Lemma follows_post {A} (P : World → Prop) (m : M A) (s : list Op)
    (Q Q' : A → World → Prop) :
  (∀ a w, Q a w → Q' a w) → follows P m s Q → follows P m s Q'.
Proof.
  intros HQ Hm w Hw. specialize (Hm w Hw).
  destruct (res (m w)); [|exact Hm]. destruct Hm. auto.
Qed.

(** A fact that does not depend on the state can be taken out of the
    precondition. *)
Lemma follows_pure {A} (φ : Prop) (P : World → Prop) (m : M A) (s : list Op)
    (Q : A → World → Prop) :
  (φ → follows P m s Q) → follows (λ w, φ ∧ P w) m s Q.
Proof. intros Hm w [Hφ Hw]. apply Hm; assumption. Qed.

Lemma follows_ret {A} (P : World → Prop) (a : A) :
  follows P (ret a) [] (λ a' w, a' = a ∧ P w).
Proof. intros w Hw. simpl. auto. Qed.

Lemma follows_call {A} (P : World → Prop) (op : Op) (r : Result A) :
  follows P (call op r) [op] (λ _, P).
Proof.
  intros w Hw. destruct r; simpl; [auto|reflexivity].
Qed.

Lemma follows_call_upd (P Q : World → Prop) (op : Op)
    (f : World → Result World) :
  (∀ w w', P w → f w = Ok w' → Q w') →
  follows P (call_upd op f) [op] (λ _, Q).
Proof.
  intros Hf w Hw. unfold call_upd.
  destruct (f w) as [w'|e] eqn:Hfw; simpl; [eauto|reflexivity].
Qed.

Lemma follows_print (P : World → Prop) (s : string) :
  follows P (print s) [OpPrint] (λ _, P).
Proof. intros w Hw. simpl. auto. Qed.

Lemma follows_bind {A B} (P : World → Prop) (Q : A → World → Prop)
    (R : B → World → Prop) (s1 s2 : list Op) (m : M A) (f : A → M B) :
  follows P m s1 Q → (∀ a, follows (Q a) (f a) s2 R) →
  follows P (bind m f) (s1 ++ s2) R.
Proof.
  intros Hm Hf w Hw. specialize (Hm w Hw). unfold bind.
  destruct (res (m w)) as [a|e]; simpl.
  - destruct Hm as [Hs1 HQ]. specialize (Hf a _ HQ).
    rewrite ops_app, Hs1.
    destruct (res (f a (world (m w)))).
    + destruct Hf as [-> HR]. auto.
    + apply prefix_app, Hf.
  - apply prefix_app_r, Hm.
Qed.

Lemma follows_bind_cons {A B} (P : World → Prop) (Q : A → World → Prop)
    (R : B → World → Prop) (op : Op) (s : list Op) (m : M A) (f : A → M B) :
  follows P m [op] Q → (∀ a, follows (Q a) (f a) s R) →
  follows P (bind m f) (op :: s) R.
Proof. apply (follows_bind P Q R [op] s). Qed.

Lemma follows_bind_nil {A B} (P : World → Prop) (Q : A → World → Prop)
    (R : B → World → Prop) (s : list Op) (m : M A) (f : A → M B) :
  follows P m s Q → (∀ a, follows (Q a) (f a) [] R) →
  follows P (bind m f) s R.
Proof.
  intros Hm Hf. rewrite <- (app_nil_r s). by apply (follows_bind P Q R).
Qed.

Lemma follows_for_each {A S} (I : World → Prop) (sb : list Op)
    (l : list A) (body : S → A → M S) :
  (∀ s x, follows I (body s x) sb (λ _, I)) →
  ∀ s, follows I (for_each l s body) (mjoin (replicate (length l) sb)) (λ _, I).
Proof.
  intros Hb. induction l as [|x l IH]; intros s; simpl.
  - eapply follows_post; [|apply follows_ret]. by intros ? ? [_ ?].
  - apply (follows_bind I (λ _, I)); [apply Hb | exact IH].
Qed.

Lemma follows_with_grad_enabled {A} (t b mode : bool) (r : Rng)
    (s : list Op) (m : M A) :
  follows (flags_are t mode r) m s (λ _, flags_are t mode r) →
  follows (flags_are t b r) (with_grad_enabled mode m) s (λ _, flags_are t b r).
Proof.
  intros Hm w (Ht & Hb & Hr). unfold with_grad_enabled. simpl.
  specialize (Hm (set_grad_enabled mode w)).
  destruct (res (m (set_grad_enabled mode w))).
  - destruct Hm as [Hs (Ht' & _ & Hr')]; [by repeat split|].
    split; [exact Hs|]. by repeat split.
  - apply Hm. by repeat split.
Qed.

Lemma follows_enumerate (t b : bool) (r : Rng) (data_loader : DataLoader Rng) :
  follows (flags_are t b r) (enumerate data_loader) [OpIter]
    (λ it (w : World), it = pass_of data_loader r ∧ flags_are t b r w).
Proof.
  intros w (Ht & Hb & Hr). unfold enumerate, call, pass_of. rewrite Hr.
  destruct (dl_iter data_loader r) as [it|e]; simpl; [|reflexivity].
  split; [reflexivity|]. split; [reflexivity|]. by repeat split.
Qed.

Lemma follows_pull {A} (t b : bool) (r0 r : Rng) (x : Result A) :
  follows (flags_are t b r0 : World → Prop) (pull r x) [OpNext]
    (λ _, flags_are t b r).
Proof.
  intros w (Ht & Hb & Hr). unfold pull.
  destruct x as [a|e]; simpl; [|reflexivity].
  split; [reflexivity|]. by repeat split.
Qed.

(** The [for] statement calls [next()] before every round and once more
    at the end; a loop that returns has drawn the pass to its end. *)
Lemma follows_for_pass {B S} (t b : bool) (sb : list Op) (it : Pass B Rng)
    (body : S → B → M S) :
  (∀ r s x, follows (flags_are t b r) (body s x) sb (λ _, flags_are t b r)) →
  ∀ r0 s,
    follows (flags_are t b r0) (for_pass it s body)
      (mjoin (replicate (length (pass_batches it)) (OpNext :: sb)) ++ [OpNext])
      (λ _ w, pass_exn it = None ∧ flags_are t b (pass_end it) w).
Proof.
  intros Hb. induction it as [r|e r|x r rest IH]; intros r0 s; simpl.
  - eapply follows_post; [|apply follows_pull]. by intros ? ? ?; split.
  - intros w _. cbn. by exists [].
  - change (OpNext :: (sb ++ mjoin (replicate (length (pass_batches rest))
                                      (OpNext :: sb))) ++ [OpNext])
      with ([OpNext] ++ (sb ++ mjoin (replicate (length (pass_batches rest))
                                        (OpNext :: sb))) ++ [OpNext]).
    apply (follows_bind _ (λ _, flags_are t b r)); [apply follows_pull|].
    intros _. rewrite <- app_assoc.
    apply (follows_bind _ (λ _, flags_are t b r)); [apply Hb | apply IH].
Qed.

Lemma follows_model_call (t b : bool) (r : Rng) (model : Model Params)
    (text : Tensor) (lengths : list Z) :
  follows (flags_are t b r : World → Prop) (model_call model text lengths)
    [OpForward {| training := t; grad := b |}] (λ _, flags_are t b r).
Proof.
  intros w Hw. pose proof Hw as (Ht & Hb & Hr).
  unfold model_call, call, ctx_of. rewrite Ht, Hb. simpl.
  destruct (forward model _ _ _ _); [auto|reflexivity].
Qed.

Lemma follows_loss_call (t b : bool) (r : Rng) (loss_function : LossFn)
    (outputs label : Tensor) :
  follows (flags_are t b r : World → Prop)
    (loss_call loss_function outputs label) [OpLoss b] (λ _, flags_are t b r).
Proof.
  intros w Hw. pose proof Hw as (Ht & Hb & Hr).
  unfold loss_call, call. rewrite Hb. simpl.
  destruct (loss_function _ _ _); [auto|reflexivity].
Qed.

Lemma follows_acc_iadd (P : World → Prop) (a : Acc) (t : Tensor) :
  follows P (acc_iadd a t) [OpAdd] (λ _, P).
Proof.
  destruct a; simpl;
    (apply (follows_bind_nil P (λ _, P)); [apply follows_call|];
     intros ?; eapply follows_post; [|apply follows_ret]; by intros ? ? [_ ?]).
Qed.

(** The statistics of a batch, as both loops compute them. *)
Lemma follows_statistics (P : World → Prop) (current_loss : Float)
    (current_acc : Acc) (batch : Batch) (text_lengths : list Z)
    (outputs loss : Tensor) :
  follows P
    (l <- call OpItem (t_item loss) ;;
     let current_loss' :=
       float_add current_loss
         (float_mul_int l (Z.of_nat (length text_lengths))) in
     s <- call OpSigmoid (t_sigmoid outputs) ;;
     r <- call OpRound (t_round s) ;;
     r <- call OpRound (t_round r) ;;
     e <- call OpEq (t_eq r (t_data (batch_label batch))) ;;
     c <- call OpSum (t_sum e) ;;
     current_acc' <- acc_iadd current_acc c ;;
     ret (current_loss', current_acc'))
    [OpItem; OpSigmoid; OpRound; OpRound; OpEq; OpSum; OpAdd]
    (λ _, P).
Proof.
  repeat (apply (follows_bind_cons P (λ _, P)); [apply follows_call|intros ?]).
  apply (follows_bind_nil P (λ _, P)); [apply follows_acc_iadd|].
  intros ?. eapply follows_post; [|apply follows_ret]. by intros ? ? [_ ?].
Qed.

(** The totals of a pass, their formatting and the printed line, as both
    loops compute them. *)
Lemma follows_totals (P : World → Prop) (pre mid : string)
    (current_loss : Float) (current_acc : Acc) (data_loader : DataLoader Rng)
    (result : Float → Tensor → PyVal) :
  follows P
    (total_loss <- float_truediv current_loss (dataset_len data_loader) ;;
     d <- acc_double current_acc ;;
     total_acc <- call OpDiv (t_div_int d (Z.of_nat (dataset_len data_loader))) ;;
     s <- format2 pre mid total_loss total_acc ;;
     print s ;;
     ret (result total_loss total_acc))
    [OpTrueDiv; OpDouble; OpDiv; OpFormat; OpPrint]
    (λ v w, (∃ total_loss total_acc, v = result total_loss total_acc) ∧ P w).
Proof.
  unfold float_truediv, acc_double, format2.
  repeat (apply (follows_bind_cons P (λ _, P));
          [first [apply follows_print | apply follows_call] | intros ?]).
  eapply follows_post; [|apply follows_ret]. intros ? ? [-> ?]. eauto.
Qed.

End Schedules.

(** ** The order of the calls of the two loops *)
Section LoopOrder.
Context `{Torch} {Params OptState Rng : Type}.

#[local] Abbreviation World := (World Params OptState Rng).

(** Gradients, parameters and optimizer state are not flags. *)
Lemma flags_zero_grad (t b : bool) (r : Rng)
    (optimizer : Optimizer Params OptState) :
  follows (flags_are t b r : World → Prop) (zero_grad optimizer) [OpZeroGrad]
    (λ _, flags_are t b r).
Proof.
  apply follows_call_upd. intros w w' Hw.
  destruct (opt_zero_grad optimizer (grads w)); simpl; intros [= <-]. exact Hw.
Qed.

Lemma flags_loss_backward (t b : bool) (r : Rng) (loss : Tensor) :
  follows (flags_are t b r : World → Prop) (loss_backward loss) [OpBackward]
    (λ _, flags_are t b r).
Proof.
  apply follows_call_upd. intros w w' Hw.
  destruct (backward loss (grads w)); simpl; intros [= <-]. exact Hw.
Qed.

Lemma flags_step (t b : bool) (r : Rng)
    (optimizer : Optimizer Params OptState) :
  follows (flags_are t b r : World → Prop) (step optimizer) [OpStep]
    (λ _, flags_are t b r).
Proof.
  apply follows_call_upd. intros w w' Hw.
  destruct (opt_step optimizer _ _ _); simpl; intros [= <-]. exact Hw.
Qed.

Lemma flags_model_train (t b mode : bool) (r : Rng) (model : Model Params) :
  follows (flags_are t b r : World → Prop) (model_train model mode)
    [OpModelTrain mode] (λ _, flags_are mode b r).
Proof.
  apply follows_call_upd. intros w w' (_ & Hb & Hr).
  destruct (module_train model mode); simpl; intros [= <-]. by repeat split.
Qed.

Lemma follows_train_model (t b : bool) (r : Rng) (model : Model Params)
    (loss_function : LossFn) (optimizer : Optimizer Params OptState)
    (data_loader : DataLoader Rng) :
  follows (flags_are t b r : World → Prop)
    (train_model model loss_function optimizer data_loader)
    (train_schedule (length (pass_batches (pass_of data_loader r))))
    (λ v w, v = PyNone
            ∧ pass_exn (pass_of data_loader r) = None
            ∧ flags_are true b (pass_end (pass_of data_loader r)) w).
Proof.
  unfold train_model, train_schedule.
  apply (follows_bind_cons _ (λ _, flags_are true b r));
    [apply flags_model_train | intros _].
  apply (follows_bind_cons _ _ _ _ _ _ _ (follows_enumerate _ _ _ _)).
  intros it. apply follows_pure. intros ->.
  set (it := pass_of data_loader r).
  replace (mjoin (replicate (length (pass_batches it)) train_batch_schedule)
           ++ totals_schedule)
    with ((mjoin (replicate (length (pass_batches it)) train_batch_schedule)
           ++ [OpNext]) ++ [OpTrueDiv; OpDouble; OpDiv; OpFormat; OpPrint])
    by (by rewrite <- app_assoc).
  apply (follows_bind _ (λ _ w, pass_exn it = None
                                ∧ flags_are true b (pass_end it) w)).
  - apply follows_for_pass. intros r' [current_loss current_acc] batch.
    destruct (batch_text batch) as [text text_lengths].
    apply (follows_bind_cons _ (λ _, flags_are true b r'));
      [apply flags_zero_grad | intros _].
    apply (follows_bind _ (λ _, flags_are true b r') _
             [OpForward {| training := true; grad := true |}; OpSqueeze;
              OpLoss true; OpBackward; OpStep]
             [OpItem; OpSigmoid; OpRound; OpRound; OpEq; OpSum; OpAdd]).
    + apply follows_with_grad_enabled.
      apply (follows_bind_cons _ (λ _, flags_are true true r'));
        [apply follows_model_call | intros o].
      apply (follows_bind_cons _ (λ _, flags_are true true r'));
        [apply follows_call | intros outputs].
      apply (follows_bind_cons _ (λ _, flags_are true true r'));
        [apply follows_loss_call | intros loss].
      apply (follows_bind_cons _ (λ _, flags_are true true r'));
        [apply flags_loss_backward | intros _].
      apply (follows_bind_cons _ (λ _, flags_are true true r'));
        [apply flags_step | intros _].
      eapply follows_post; [|apply follows_ret]. by intros ? ? [_ ?].
    + intros [outputs loss]. apply follows_statistics.
  - intros [current_loss current_acc].
    eapply follows_post; [|apply follows_totals].
    intros v w [(tl & ta & ->) Hw]. auto.
Qed.

Lemma follows_test_model (t b : bool) (r : Rng) (model : Model Params)
    (loss_function : LossFn) (data_loader : DataLoader Rng) :
  follows (flags_are t b r : World → Prop)
    (test_model model loss_function data_loader)
    (test_schedule (length (pass_batches (pass_of data_loader r))))
    (λ v w, (∃ total_loss total_acc,
               v = PyTuple2 (PyFloat total_loss) (PyTensor total_acc))
            ∧ pass_exn (pass_of data_loader r) = None
            ∧ flags_are false b (pass_end (pass_of data_loader r)) w).
Proof.
  unfold test_model, test_schedule.
  apply (follows_bind_cons _ (λ _, flags_are false b r));
    [apply flags_model_train | intros _].
  apply (follows_bind_cons _ _ _ _ _ _ _ (follows_enumerate _ _ _ _)).
  intros it. apply follows_pure. intros ->.
  set (it := pass_of data_loader r).
  replace (mjoin (replicate (length (pass_batches it)) test_batch_schedule)
           ++ totals_schedule)
    with ((mjoin (replicate (length (pass_batches it)) test_batch_schedule)
           ++ [OpNext]) ++ [OpTrueDiv; OpDouble; OpDiv; OpFormat; OpPrint])
    by (by rewrite <- app_assoc).
  apply (follows_bind _ (λ _ w, pass_exn it = None
                                ∧ flags_are false b (pass_end it) w)).
  - apply follows_for_pass. intros r' [current_loss current_acc] batch.
    destruct (batch_text batch) as [text text_lengths].
    apply (follows_bind _ (λ _, flags_are false b r') _
             [OpForward {| training := false; grad := false |}; OpSqueeze;
              OpLoss false]
             [OpItem; OpSigmoid; OpRound; OpRound; OpEq; OpSum; OpAdd]).
    + apply follows_with_grad_enabled.
      apply (follows_bind_cons _ (λ _, flags_are false false r'));
        [apply follows_model_call | intros o].
      apply (follows_bind_cons _ (λ _, flags_are false false r'));
        [apply follows_call | intros outputs].
      apply (follows_bind_cons _ (λ _, flags_are false false r'));
        [apply follows_loss_call | intros loss].
      eapply follows_post; [|apply follows_ret]. by intros ? ? [_ ?].
    + intros [outputs loss]. apply follows_statistics.
  - intros [current_loss current_acc].
    eapply follows_post;
      [|apply (follows_totals _ _ _ _ _ _
                 (λ tl ta, PyTuple2 (PyFloat tl) (PyTensor ta)))].
    intros v w [(tl & ta & ->) Hw]. eauto.
Qed.

End LoopOrder.

(** ** The two loops as one loop *)
Section OneLoop.
Context `{Torch} {Params OptState Rng : Type}.

#[local] Abbreviation World := (World Params OptState Rng).
#[local] Abbreviation M := (M Params OptState Rng).

(** Sequencing is associative, pointwise. *)
Lemma bind_assoc {A B C} (m : M A) (f : A → M B) (g : B → M C) (w : World) :
  bind (bind m f) g w = bind m (λ a, bind (f a) g) w.
Proof.
  unfold bind. destruct (res (m w)) as [a|e]; simpl; [|reflexivity].
  destruct (res (f a (world (m w)))) as [b|e]; simpl; [|reflexivity].
  by rewrite app_assoc.
Qed.

Lemma train_model_metric_loop (model : Model Params) (loss_function : LossFn)
    (optimizer : Optimizer Params OptState) (data_loader : DataLoader Rng)
    (w : World) :
  train_model model loss_function optimizer data_loader w
  = metric_loop (train_kind optimizer) model loss_function data_loader w.
Proof.
  unfold train_model, metric_loop. cbn [train_kind lk_training lk_tag lk_result].
  apply bind_ext; [reflexivity|]. intros _ w1.
  apply bind_ext; [reflexivity|]. intros it w2.
  apply bind_ext.
  - apply for_pass_ext. intros [current_loss current_acc] batch w3.
    cbn [train_kind lk_before]. apply bind_ext; [reflexivity|]. intros _ w4.
    unfold batch_forward, batch_statistics.
    cbn [train_kind test_kind lk_grad lk_after fst snd].
    destruct (batch_text batch) as [text text_lengths]. cbn [fst snd].
    apply bind_ext.
    + apply with_grad_enabled_ext. intros w5.
      apply bind_ext; [reflexivity|]. intros o w6.
      apply bind_ext; [reflexivity|]. intros outputs w7.
      apply bind_ext; [reflexivity|]. intros loss w8.
      cbv beta. rewrite bind_assoc. reflexivity.
    + intros [outputs loss] w5. reflexivity.
  - intros [current_loss current_acc] w3.
    unfold epoch_totals. cbn [fst snd].
    rewrite !bind_assoc.
    apply bind_ext; [reflexivity|]. intros total_loss w4.
    rewrite !bind_assoc.
    apply bind_ext; [reflexivity|]. intros d w5.
    rewrite !bind_assoc.
    apply bind_ext; [reflexivity|]. intros total_acc w6.
    rewrite bind_ret_l. reflexivity.
Qed.

Lemma test_model_metric_loop (model : Model Params) (loss_function : LossFn)
    (data_loader : DataLoader Rng) (w : World) :
  test_model model loss_function data_loader w
  = metric_loop test_kind model loss_function data_loader w.
Proof.
  unfold test_model, metric_loop. cbn [test_kind lk_training lk_tag lk_result].
  apply bind_ext; [reflexivity|]. intros _ w1.
  apply bind_ext; [reflexivity|]. intros it w2.
  apply bind_ext.
  - apply for_pass_ext. intros [current_loss current_acc] batch w3.
    cbn [test_kind lk_before]. rewrite bind_ret_l.
    unfold batch_forward, batch_statistics.
    cbn [train_kind test_kind lk_grad lk_after fst snd].
    destruct (batch_text batch) as [text text_lengths]. cbn [fst snd].
    apply bind_ext.
    + apply with_grad_enabled_ext. intros w5.
      apply bind_ext; [reflexivity|]. intros o w6.
      apply bind_ext; [reflexivity|]. intros outputs w7.
      apply bind_ext; [reflexivity|]. intros loss w8.
      cbv beta. rewrite bind_ret_l. reflexivity.
    + intros [outputs loss] w5. reflexivity.
  - intros [current_loss current_acc] w3.
    unfold epoch_totals. cbn [fst snd].
    rewrite !bind_assoc.
    apply bind_ext; [reflexivity|]. intros total_loss w4.
    rewrite !bind_assoc.
    apply bind_ext; [reflexivity|]. intros d w5.
    rewrite !bind_assoc.
    apply bind_ext; [reflexivity|]. intros total_acc w6.
    rewrite bind_ret_l. reflexivity.
Qed.

End OneLoop.

(** ** When the passes return *)
Section Returning.
Context `{Torch} {Params OptState Rng : Type}.

#[local] Abbreviation World := (World Params OptState Rng).
#[local] Abbreviation M := (M Params OptState Rng).

#[local] Abbreviation any := (λ _ : World, True).

Lemma returns_ret {A} (φ : A → Prop) (a : A) :
  φ a → returns any (ret a) (λ a' _, φ a').
Proof. intros Ha w _. exists a. by split. Qed.

Lemma returns_call {A} (op : Op) (r : Result A) :
  is_ok r = true → returns any (call op r) (λ _ _, True).
Proof. intros Hr w _. destruct r as [a|]; [|discriminate]. by exists a. Qed.

Lemma returns_call_upd (op : Op) (f : World → Result World) :
  (∀ w, is_ok (f w) = true) → returns any (call_upd op f) (λ _ _, True).
Proof.
  intros Hf w _. specialize (Hf w). unfold call_upd.
  destruct (f w); [|discriminate]. by exists tt.
Qed.

Lemma returns_print (s : string) : returns any (print s) (λ _ _, True).
Proof. intros w _. by exists tt. Qed.

Lemma returns_pull {A} (φ : A → Prop) (r : Rng) (a : A) :
  φ a → returns any (pull r (Ok a)) (λ a' _, φ a').
Proof. intros Ha w _. exists a. by split. Qed.

Lemma returns_bind {A B} (φ : A → Prop) (ψ : B → Prop) (m : M A)
    (f : A → M B) :
  returns any m (λ a _, φ a) →
  (∀ a, φ a → returns any (f a) (λ b _, ψ b)) →
  returns any (bind m f) (λ b _, ψ b).
Proof.
  intros Hm Hf w _. destruct (Hm w I) as (a & Ha & Hφ).
  destruct (Hf a Hφ (world (m w)) I) as (b & Hb & Hψ).
  exists b. unfold bind. rewrite Ha. cbn [res world]. by split.
Qed.

Lemma returns_with_grad_enabled {A} (φ : A → Prop) (mode : bool) (m : M A) :
  returns any m (λ a _, φ a) →
  returns any (with_grad_enabled mode m) (λ a _, φ a).
Proof.
  intros Hm w _. destruct (Hm (set_grad_enabled mode w) I) as (a & Ha & Hφ).
  exists a. by split.
Qed.


(** The same for a loop over a pass that ends by itself. *)
Lemma returns_for_pass {B S} (φ : S → Prop) (body : S → B → M S) :
  (∀ s x, returns any (body s x) (λ s' _, φ s')) →
  ∀ (it : Pass B Rng) s,
    pass_exn it = None → pass_batches it ≠ [] ∨ φ s →
    returns any (for_pass it s body) (λ s' _, φ s').
Proof.
  intros Hb. induction it as [r|e r|b r rest IH]; intros s Hend Hs; simpl.
  - apply returns_pull. by destruct Hs.
  - discriminate.
  - apply (returns_bind (λ _, True)); [by apply returns_pull|]. intros _ _.
    apply (returns_bind φ); [apply Hb|]. intros s' Hs'.
    apply IH; [exact Hend | by right].
Qed.

Lemma returns_model_train (model : Model Params) (mode : bool) :
  is_ok (module_train model mode) = true →
  returns any (model_train model mode) (λ _ _, True).
Proof.
  intros Hmode. apply returns_call_upd. intros w.
  by destruct (module_train model mode).
Qed.

Lemma returns_zero_grad (optimizer : Optimizer Params OptState) :
  (∀ g, is_ok (opt_zero_grad optimizer g) = true) →
  returns any (zero_grad optimizer) (λ _ _, True).
Proof.
  intros Hzero. apply returns_call_upd. intros w.
  specialize (Hzero (grads w)). by destruct (opt_zero_grad optimizer (grads w)).
Qed.

Context (Hlib : library_returns).

Lemma returns_batch_statistics (sums : Float * Acc) (batch : Batch)
    (outputs loss : Tensor) :
  returns any (batch_statistics sums batch outputs loss)
    (λ sums' _, is_tensor sums'.2).
Proof.
  destruct Hlib. unfold batch_statistics.
  repeat (apply (returns_bind (λ _, True)); [by apply returns_call|intros ? _]).
  apply (returns_bind is_tensor).
  - destruct sums.2; simpl;
      (apply (returns_bind (λ _, True)); [by apply returns_call|]);
      intros ? _; by apply returns_ret.
  - intros acc Hacc. by apply returns_ret.
Qed.

Lemma returns_epoch_totals (sums : Float * Acc) (data_loader : DataLoader Rng) :
  is_tensor sums.2 → dataset_len data_loader ≠ 0 →
  returns any (epoch_totals sums data_loader) (λ _ _, True).
Proof.
  intros Hacc Hlen. destruct Hlib. destruct sums as [current_loss [|t]]; [done|].
  unfold epoch_totals, float_truediv, acc_double. cbn [fst snd].
  rewrite decide_False by done.
  repeat (apply (returns_bind (λ _, True)); [by apply returns_call|intros ? _]).
  by apply returns_ret.
Qed.

Lemma returns_format2 (pre mid : string) (x : Float) (y : Tensor) :
  returns any (format2 pre mid x y) (λ _ _, True).
Proof.
  destruct Hlib. unfold format2. apply returns_call.
  pose proof (format_float_ok0 x) as Hx.
  pose proof (format_tensor_ok0 y) as Hy.
  destruct (format_float x); [|done]. by destruct (format_tensor y).
Qed.

(** A pass of any kind whose hooks return, once the iterator is there. *)
Lemma metric_loop_rest_returns (kind : LoopKind) (model : Model Params)
    (loss_function : LossFn) (data_loader : DataLoader Rng)
    (it : Pass Batch Rng) :
  (∀ c p text lengths, is_ok (forward model c p text lengths) = true) →
  loss_returns loss_function →
  returns any (lk_before kind) (λ _ _, True) →
  (∀ loss, returns any (lk_after kind loss) (λ _ _, True)) →
  pass_exn it = None → pass_batches it ≠ [] → dataset_len data_loader ≠ 0 →
  returns any
    (sums <- for_pass it (float_zero, AccInt 0)
       (λ sums batch,
         lk_before kind ;;
         ol <- batch_forward kind model loss_function batch ;;
         batch_statistics sums batch ol.1 ol.2) ;;
     totals <- epoch_totals sums data_loader ;;
     s <- format2 (lk_tag kind +:+ " Loss: ") "; Accuracy: " totals.1 totals.2 ;;
     print s ;;
     ret (lk_result kind totals.1 totals.2))
    (λ v _, ∃ total_loss total_acc, v = lk_result kind total_loss total_acc).
Proof.
  intros Hforward Hloss Hbefore Hafter Hend Hbatches Hlen. destruct Hlib.
  apply (returns_bind (λ sums, is_tensor sums.2)).
  - apply returns_for_pass; [|exact Hend|by left]. intros sums batch.
    apply (returns_bind (λ _, True)); [exact Hbefore|intros _ _].
    apply (returns_bind (λ _, True)).
    + unfold batch_forward. apply returns_with_grad_enabled.
      apply (returns_bind (λ _, True)).
      { intros w _. unfold model_call. by apply returns_call. }
      intros o _.
      apply (returns_bind (λ _, True)); [by apply returns_call|intros outputs _].
      apply (returns_bind (λ _, True)).
      { intros w _. unfold loss_call. by apply returns_call. }
      intros loss _.
      apply (returns_bind (λ _, True)); [apply Hafter|intros _ _].
      by apply returns_ret.
    + intros ol _. apply returns_batch_statistics.
  - intros sums Hsums.
    apply (returns_bind (λ _, True)); [by apply returns_epoch_totals|].
    intros totals _.
    apply (returns_bind (λ _, True)); [apply returns_format2|intros s _].
    apply (returns_bind (λ _, True)); [apply returns_print|intros _ _].
    apply returns_ret. eauto.
Qed.

(** A training pass returns when all its calls do and the loader yields. *)
Lemma train_model_returns (model : Model Params) (loss_function : LossFn)
    (optimizer : Optimizer Params OptState) (data_loader : DataLoader Rng)
    (w : World) :
  model_returns model → loss_returns loss_function →
  optimizer_returns optimizer → loader_yields data_loader (rng w) →
  res (train_model model loss_function optimizer data_loader w) = Ok PyNone.
Proof.
  intros [Hmode Hforward] Hloss [Hzero Hstep] (it & Hit & Hend & Hbatches & Hlen).
  rewrite train_model_metric_loop. unfold metric_loop.
  destruct (is_ok_Ok _ (Hmode true)) as [[] Htrain].
  rewrite (bind_run_ok _ _ _ _ _ _ (run_model_train _ _ _ Htrain)).
  rewrite (bind_run_ok _ _ _ _ _ _
             (run_enumerate_ok data_loader (set_model_training true w) it Hit)).
  cbn [res].
  assert (returns any (lk_before (train_kind optimizer)) (λ _ _, True))
    as Hbefore.
  { by apply returns_zero_grad. }
  assert (∀ loss, returns any (lk_after (train_kind optimizer) loss)
                    (λ _ _, True)) as Hafter.
  { intros loss. cbn [train_kind lk_after]. destruct Hlib.
    apply (returns_bind (λ _, True)).
    - apply returns_call_upd. intros w'.
      pose proof (backward_ok0 loss (grads w')) as Hb.
      by destruct (backward loss (grads w')).
    - intros _ _. apply returns_call_upd. intros w'.
      pose proof (Hstep (opt_state w') (params w') (grads w')) as Hs.
      by destruct (opt_step _ _ _ _). }
  pose proof (metric_loop_rest_returns (train_kind optimizer) model
                loss_function data_loader it
                Hforward Hloss Hbefore Hafter Hend Hbatches Hlen) as Hret.
  match goal with
  | |- res (_ ?w') = _ => destruct (Hret w' I) as (v & Hv & tl & ta & ->)
  end.
  exact Hv.
Qed.

(** An evaluation pass likewise. *)
Lemma test_model_returns (model : Model Params) (loss_function : LossFn)
    (data_loader : DataLoader Rng) (w : World) :
  model_returns model → loss_returns loss_function →
  loader_yields data_loader (rng w) →
  ∃ total_loss total_acc,
    res (test_model model loss_function data_loader w)
    = Ok (PyTuple2 (PyFloat total_loss) (PyTensor total_acc)).
Proof.
  intros [Hmode Hforward] Hloss (it & Hit & Hend & Hbatches & Hlen).
  rewrite test_model_metric_loop. unfold metric_loop.
  destruct (is_ok_Ok _ (Hmode false)) as [[] Heval].
  rewrite (bind_run_ok _ _ _ _ _ _ (run_model_train _ _ _ Heval)).
  rewrite (bind_run_ok _ _ _ _ _ _
             (run_enumerate_ok data_loader (set_model_training false w) it Hit)).
  cbn [res].
  assert (returns any (lk_before test_kind) (λ _ _, True)) as Hbefore.
  { by apply returns_ret. }
  assert (∀ loss, returns any (lk_after test_kind loss) (λ _ _, True))
    as Hafter.
  { intros loss. by apply returns_ret. }
  pose proof (metric_loop_rest_returns test_kind model
                loss_function data_loader it
                Hforward Hloss Hbefore Hafter Hend Hbatches Hlen) as Hret.
  match goal with
  | |- ∃ _ _, res (_ ?w') = _ =>
      destruct (Hret w' I) as (v & Hv & tl & ta & ->)
  end.
  exists tl, ta. exact Hv.
Qed.

End Returning.

(** ** What the passes compute *)

Lemma rbind_assoc {A B C} (r : Result A) (f : A → Result B) (g : B → Result C) :
  rbind (rbind r f) g = rbind r (λ a, rbind (f a) g).
Proof. by destruct r. Qed.

(** Two sequences of the same calls in the same order: go through the
    calls one by one. *)
Ltac same_calls :=
  unfold mbind, Result_bind;
  repeat (cbn [rbind fst snd st_params st_grads st_opt]; rewrite ?rbind_assoc;
          lazymatch goal with
          | |- rbind ?r _ = _ => destruct r as [?|?]; cbn [rbind]
          | |- _ = rbind ?r _ => destruct r as [?|?]; cbn [rbind]
          end);
  cbn [rbind fst snd st_params st_grads st_opt];
  try reflexivity.

Section Computing.
Context `{Torch} {Params OptState Rng : Type}.

#[local] Abbreviation World := (World Params OptState Rng).
#[local] Abbreviation M := (M Params OptState Rng).
#[local] Abbreviation Store := (Store Params OptState).

Lemma den_bind {A B} (m : M A) (f : A → M B) (w : World) :
  den (bind m f w)
  = match res (m w) with
    | Ok a => den (f a (world (m w)))
    | Raise e => Raise e
    end.
Proof. unfold den, bind. by destruct (res (m w)). Qed.

Lemma den_ok {A} (o : Out Params OptState Rng A) (a : A) (st : Store) :
  den o = Ok (a, st) → res o = Ok a ∧ store_of (world o) = st.
Proof. unfold den. destruct (res o); [|done]. by intros [= -> ->]. Qed.

Lemma res_den {A} (o : Out Params OptState Rng A) :
  res o = rbind (den o) (λ x, Ok x.1).
Proof. unfold den. by destruct (res o). Qed.

Lemma computes_ext {A} (t b : bool) (m : M A) (F G : Store → Result (A * Store)) :
  computes t b m F → (∀ st, F st = G st) → computes t b m G.
Proof. intros Hm HF w Ht Hb. rewrite <- HF. by apply Hm. Qed.

Lemma computes_ret {A} (t b : bool) (a : A) :
  computes t b (ret a : M A) (λ st, Ok (a, st)).
Proof. by intros w Ht Hb. Qed.

Lemma computes_call {A} (t b : bool) (op : Op) (r : Result A) :
  computes t b (call op r : M A) (λ st, rbind r (λ a, Ok (a, st))).
Proof. intros w Ht Hb. unfold den. by destruct r. Qed.

Lemma computes_print (t b : bool) (s : string) :
  computes t b (print s : M unit) (λ st, Ok (tt, st)).
Proof. by intros w Ht Hb. Qed.

Lemma computes_pull {A} (t b : bool) (r : Rng) (x : Result A) :
  computes t b (pull r x : M A) (λ st, rbind x (λ a, Ok (a, st))).
Proof. intros w Ht Hb. unfold den. by destruct x. Qed.

Lemma computes_bind {A B} (t b : bool) (m : M A) (f : A → M B)
    (F : Store → Result (A * Store)) (G : A → Store → Result (B * Store)) :
  computes t b m F → (∀ a, computes t b (f a) (G a)) →
  computes t b (bind m f) (λ st, rbind (F st) (λ x, G x.1 x.2)).
Proof.
  intros Hm Hf w Ht Hb. destruct (Hm w Ht Hb) as (Hden & Ht' & Hb').
  rewrite den_bind, <- Hden. unfold den at 2. unfold bind.
  destruct (res (m w)) as [a|e]; cbn [rbind res world fst snd]; [|done].
  by apply Hf.
Qed.

(** Inside the [with] block the grad mode is the block's; the store is
    not touched by entering or leaving it. *)
Lemma computes_with_grad_enabled {A} (t b mode : bool) (m : M A)
    (F : Store → Result (A * Store)) :
  computes t mode m F → computes t b (with_grad_enabled mode m) F.
Proof.
  intros Hm w Ht Hb.
  destruct (Hm (set_grad_enabled mode w) Ht eq_refl) as (Hden & Ht' & _).
  unfold with_grad_enabled. split; [exact Hden|]. by split.
Qed.

Lemma computes_model_call (t b : bool) (model : Model Params)
    (text : Tensor) (lengths : list Z) :
  computes t b (model_call model text lengths : M Tensor)
    (λ st, rbind (forward model {| training := t; grad := b |}
                    (st_params st) text lengths)
             (λ o, Ok (o, st))).
Proof.
  intros w Ht Hb. unfold model_call, call, ctx_of, den. rewrite Ht, Hb.
  cbn [res world store_of st_params].
  by destruct (forward model _ _ _ _).
Qed.

Lemma computes_loss_call (t b : bool) (loss_function : LossFn)
    (outputs label : Tensor) :
  computes t b (loss_call loss_function outputs label : M Tensor)
    (λ st, rbind (loss_function b outputs label) (λ l, Ok (l, st))).
Proof.
  intros w Ht Hb. unfold loss_call, call, den. rewrite Hb. cbn [res world].
  by destruct (loss_function _ _ _).
Qed.

Lemma computes_zero_grad (t b : bool) (optimizer : Optimizer Params OptState) :
  computes t b (zero_grad optimizer : M unit)
    (λ st, rbind (opt_zero_grad optimizer (st_grads st))
             (λ g, Ok (tt, {| st_params := st_params st; st_grads := g;
                              st_opt := st_opt st |}))).
Proof.
  intros w Ht Hb. unfold zero_grad, call_upd, den. cbn [store_of st_grads].
  by destruct (opt_zero_grad optimizer (grads w)).
Qed.

Lemma computes_loss_backward (t b : bool) (loss : Tensor) :
  computes t b (loss_backward loss : M unit)
    (λ st, rbind (backward loss (st_grads st))
             (λ g, Ok (tt, {| st_params := st_params st; st_grads := g;
                              st_opt := st_opt st |}))).
Proof.
  intros w Ht Hb. unfold loss_backward, call_upd, den. cbn [store_of st_grads].
  by destruct (backward loss (grads w)).
Qed.

Lemma computes_step (t b : bool) (optimizer : Optimizer Params OptState) :
  computes t b (step optimizer : M unit)
    (λ st, rbind (opt_step optimizer (st_opt st) (st_params st) (st_grads st))
             (λ sp, Ok (tt, {| st_params := sp.2; st_grads := st_grads st;
                               st_opt := sp.1 |}))).
Proof.
  intros w Ht Hb. unfold step, call_upd, den.
  cbn [store_of st_grads st_params st_opt].
  by destruct (opt_step optimizer _ _ _).
Qed.

Lemma computes_acc_iadd (t b : bool) (acc : Acc) (c : Tensor) :
  computes t b (acc_iadd acc c : M Acc) (λ st, rbind (add_count acc c) (λ a, Ok (a, st))).
Proof.
  destruct acc; simpl;
    (eapply computes_ext;
     [eapply computes_bind; [apply computes_call|intros; apply computes_ret]|]);
    intros st; same_calls.
Qed.

(** A loop over a pass: the body's computation folded over the batches,
    and then the end of the pass. *)
Lemma computes_for_pass {B S} (t b : bool) (body : S → B → M S)
    (F : S → B → Store → Result (S * Store)) :
  (∀ s x, computes t b (body s x) (F s x)) →
  ∀ (it : Pass B Rng) s,
    computes t b (for_pass it s body)
      (λ st, rbind (fold_pass F (pass_batches it) s st)
               (λ x, rbind (pass_check it) (λ _, Ok x))).
Proof.
  intros Hb. induction it as [r|e r|x r rest IH]; intros s.
  - eapply computes_ext; [apply computes_pull|]. by intros st.
  - eapply computes_ext; [apply computes_pull|]. by intros st.
  - eapply computes_ext.
    { simpl. eapply computes_bind; [apply computes_pull|]. intros ?.
      eapply computes_bind; [apply Hb | apply IH]. }
    intros st. cbn [rbind fst snd pass_batches fold_pass].
    unfold mbind, Result_bind, pass_check. cbn [pass_exn].
    destruct (F s x st) as [[s' st']|]; reflexivity.
Qed.

(** The statistics of a batch, as both loops compute them. *)
Lemma computes_statistics (t b : bool) (current_loss : Float)
    (current_acc : Acc) (batch : Batch) (text_lengths : list Z)
    (outputs loss : Tensor) :
  text_lengths = (batch_text batch).2 →
  computes (A := Float * Acc) (Params := Params) (OptState := OptState)
    (Rng := Rng) t b
    (l <- call OpItem (t_item loss) ;;
     let current_loss' :=
       float_add current_loss
         (float_mul_int l (Z.of_nat (length text_lengths))) in
     s <- call OpSigmoid (t_sigmoid outputs) ;;
     r <- call OpRound (t_round s) ;;
     r <- call OpRound (t_round r) ;;
     e <- call OpEq (t_eq r (t_data (batch_label batch))) ;;
     c <- call OpSum (t_sum e) ;;
     current_acc' <- acc_iadd current_acc c ;;
     ret (current_loss', current_acc'))
    (λ st, rbind (accumulate (current_loss, current_acc) batch outputs loss)
             (λ sums, Ok (sums, st))).
Proof.
  intros ->. eapply computes_ext.
  { repeat (eapply computes_bind; [apply computes_call|intros ?]).
    eapply computes_bind; [apply computes_acc_iadd|intros ?].
    apply computes_ret. }
  intros st. unfold accumulate, loss_term, correct_count. same_calls.
Qed.

(** The totals of a pass, their line and what is handed back, as both
    loops compute them. *)
Lemma computes_totals (t b : bool) (pre mid : string) (current_loss : Float)
    (current_acc : Acc) (data_loader : DataLoader Rng)
    (result : Float → Tensor → PyVal) :
  computes (A := PyVal) (Params := Params) (OptState := OptState)
    (Rng := Rng) t b
    (total_loss <- float_truediv current_loss (dataset_len data_loader) ;;
     d <- acc_double current_acc ;;
     total_acc <- call OpDiv (t_div_int d (Z.of_nat (dataset_len data_loader))) ;;
     s <- format2 pre mid total_loss total_acc ;;
     print s ;;
     ret (result total_loss total_acc))
    (λ st, rbind (totals_of (current_loss, current_acc)
                    (dataset_len data_loader))
             (λ totals, rbind (metrics_line pre mid totals)
                (λ _, Ok (result totals.1 totals.2, st)))).
Proof.
  eapply computes_ext.
  { unfold float_truediv, acc_double, format2.
    repeat (eapply computes_bind; [apply computes_call|intros ?]).
    eapply computes_bind; [apply computes_print|intros ?].
    apply computes_ret. }
  intros st. unfold totals_of, metrics_line. cbn [fst snd].
  destruct (decide (dataset_len data_loader = 0)); [reflexivity|].
  destruct current_acc; same_calls.
Qed.

(** The one line of a pass is printed from its totals. *)
Lemma totals_printed (pre mid : string) (current_loss : Float)
    (current_acc : Acc) (data_loader : DataLoader Rng)
    (result : Float → Tensor → PyVal) (w : World) :
  printed (trace
    ((total_loss <- float_truediv current_loss (dataset_len data_loader) ;;
      d <- acc_double current_acc ;;
      total_acc <- call OpDiv (t_div_int d (Z.of_nat (dataset_len data_loader))) ;;
      s <- format2 pre mid total_loss total_acc ;;
      print s ;;
      ret (result total_loss total_acc) : M PyVal) w))
  = lines_of (rbind (totals_of (current_loss, current_acc)
                       (dataset_len data_loader))
                (metrics_line pre mid)).
Proof.
  unfold float_truediv, acc_double, format2, totals_of, metrics_line.
  cbn [fst snd]. unfold mbind, Result_bind.
  destruct (decide (dataset_len data_loader = 0)).
  { by rewrite (bind_run_raise _ _ _ _ _ _ eq_refl). }
  rewrite (bind_run_ok _ _ _ _ _ _ eq_refl). cbn [rbind trace].
  destruct current_acc as [z|acc].
  { by rewrite (bind_run_raise _ _ _ _ _ _ eq_refl). }
  destruct (t_double acc) as [d|e];
    [rewrite (bind_run_ok _ _ _ _ _ _ eq_refl)
    |by rewrite (bind_run_raise _ _ _ _ _ _ eq_refl)].
  cbn [rbind trace].
  destruct (t_div_int d _) as [total_acc|e];
    [rewrite (bind_run_ok _ _ _ _ _ _ eq_refl)
    |by rewrite (bind_run_raise _ _ _ _ _ _ eq_refl)].
  cbn [rbind trace].
  destruct (format_float _) as [sl|e]; cbn [rbind];
    [|by rewrite (bind_run_raise _ _ _ _ _ _ eq_refl)].
  destruct (format_tensor _) as [sa|e]; cbn [rbind];
    [|by rewrite (bind_run_raise _ _ _ _ _ _ eq_refl)].
  rewrite (bind_run_ok _ _ _ _ _ _ eq_refl). cbn [trace].
  rewrite (bind_run_ok _ _ _ _ _ _ eq_refl). reflexivity.
Qed.

End Computing.

(** ** What the two loops compute *)

(** A computation that prints nothing. *)
Ltac silent :=
  repeat first
    [ apply triple_ret
    | apply triple_call; intros; reflexivity
    | apply triple_model_call; intros; reflexivity
    | apply triple_loss_call; intros; reflexivity
    | apply triple_acc_iadd; intros; reflexivity
    | apply triple_enumerate; intros; reflexivity
    | apply triple_pull; [intros; reflexivity|done]
    | apply triple_call_upd; [intros; reflexivity|done|done]
    | apply (triple_with_grad_enabled (λ _, True) (λ _, True)); [|done|done]
    | apply triple_for_each; intros ? ?
    | apply triple_for_pass; [intros; reflexivity|done|intros ? ?]
    | apply triple_bind; [|intros ?]
    | match goal with
      | |- context [let '(_, _) := ?p in _] => destruct p; cbv beta iota
      end ].

Section LoopsCompute.
Context `{Torch} {Params OptState Rng : Type}.

#[local] Abbreviation World := (World Params OptState Rng).
#[local] Abbreviation M := (M Params OptState Rng).
#[local] Abbreviation Store := (Store Params OptState).

Lemma fold_training (model : Model Params) (loss_function : LossFn)
    (optimizer : Optimizer Params OptState) (bs : list Batch) :
  ∀ (sums : Float * Acc) (st : Store),
    fold_pass
      (λ sums b st,
         rbind (training_batch model loss_function optimizer st sums b)
           (λ x, Ok (x.2, x.1))) bs sums st
    = rbind (training_pass model loss_function optimizer st bs sums)
        (λ x, Ok (x.2, x.1)).
Proof.
  induction bs as [|b bs IH]; intros sums st; [reflexivity|].
  cbn [fold_pass training_pass]. unfold mbind, Result_bind.
  destruct (training_batch _ _ _ _ _ _) as [[st' sums']|]; [|reflexivity].
  cbn [rbind fst snd]. apply IH.
Qed.

Lemma fold_evaluation (model : Model Params) (loss_function : LossFn)
    (bs : list Batch) :
  ∀ (sums : Float * Acc) (st : Store),
    fold_pass
      (λ sums b st,
         rbind (evaluation_batch model loss_function (st_params st) sums b)
           (λ sums', Ok (sums', st))) bs sums st
    = rbind (evaluation_sums model loss_function (st_params st) bs sums)
        (λ sums', Ok (sums', st)).
Proof.
  induction bs as [|b bs IH]; intros sums st; [reflexivity|].
  cbn [fold_pass evaluation_sums]. unfold mbind, Result_bind.
  destruct (evaluation_batch _ _ _ _ _) as [sums'|]; [|reflexivity].
  cbn [rbind fst snd]. apply IH.
Qed.

(** The loop of [train_model] computes [training_pass]. *)
Lemma train_loop_computes (b : bool) (model : Model Params)
    (loss_function : LossFn) (optimizer : Optimizer Params OptState)
    (it : Pass Batch Rng) (sums : Float * Acc) :
  computes (A := Float * Acc) (Params := Params) (OptState := OptState)
    (Rng := Rng) true b
    (for_pass it sums
       (λ '(current_loss, current_acc) batch,
         zero_grad optimizer ;;
         let '(text, text_lengths) := batch_text batch in
         ol <- with_grad_enabled true (
           o <- model_call model text text_lengths ;;
           outputs <- call OpSqueeze (t_squeeze o) ;;
           loss <- loss_call loss_function outputs (batch_label batch) ;;
           loss_backward loss ;;
           step optimizer ;;
           ret (outputs, loss)) ;;
         let '(outputs, loss) := ol in
         l <- call OpItem (t_item loss) ;;
         let current_loss :=
           float_add current_loss
             (float_mul_int l (Z.of_nat (length text_lengths))) in
         s <- call OpSigmoid (t_sigmoid outputs) ;;
         r <- call OpRound (t_round s) ;;
         r <- call OpRound (t_round r) ;;
         e <- call OpEq (t_eq r (t_data (batch_label batch))) ;;
         c <- call OpSum (t_sum e) ;;
         current_acc <- acc_iadd current_acc c ;;
         ret (current_loss, current_acc)))
    (λ st,
       rbind (training_pass model loss_function optimizer st
                (pass_batches it) sums) (λ x,
       rbind (pass_check it) (λ _, Ok (x.2, x.1)))).
Proof.
  eapply computes_ext.
  { apply (computes_for_pass true b _
             (λ sums batch st,
                rbind (training_batch model loss_function optimizer st
                         sums batch) (λ x, Ok (x.2, x.1)))).
    intros [current_loss current_acc] batch.
    destruct (batch_text batch) as [text text_lengths] eqn:Htext.
    eapply computes_ext.
    { eapply computes_bind; [apply computes_zero_grad|intros ?].
      eapply (computes_bind _ _ _ _ _
                (λ ol st, rbind (accumulate (current_loss, current_acc)
                                   batch ol.1 ol.2)
                            (λ sums, Ok (sums, st)))).
      - apply computes_with_grad_enabled.
        eapply computes_bind; [apply computes_model_call|intros ?].
        eapply computes_bind; [apply computes_call|intros ?].
        eapply computes_bind; [apply computes_loss_call|intros ?].
        eapply computes_bind; [apply computes_loss_backward|intros ?].
        eapply computes_bind; [apply computes_step|intros ?].
        apply computes_ret.
      - intros [outputs loss]. cbn [fst snd].
        apply computes_statistics. by rewrite Htext. }
    intros st. unfold training_batch, outputs_of, loss_of, train_ctx.
    rewrite Htext. cbn [fst snd grad].
    same_calls. }
  intros st. cbn beta. rewrite fold_training. same_calls.
Qed.

(** The loop of [test_model] computes [evaluation_sums], and leaves the
    store as it is. *)
Lemma test_loop_computes (b : bool) (model : Model Params)
    (loss_function : LossFn) (it : Pass Batch Rng) (sums : Float * Acc) :
  computes (A := Float * Acc) (Params := Params) (OptState := OptState)
    (Rng := Rng) false b
    (for_pass it sums
       (λ '(current_loss, current_acc) batch,
         let '(text, text_lengths) := batch_text batch in
         ol <- with_grad_enabled false (
           o <- model_call model text text_lengths ;;
           outputs <- call OpSqueeze (t_squeeze o) ;;
           loss <- loss_call loss_function outputs (batch_label batch) ;;
           ret (outputs, loss)) ;;
         let '(outputs, loss) := ol in
         l <- call OpItem (t_item loss) ;;
         let current_loss :=
           float_add current_loss
             (float_mul_int l (Z.of_nat (length text_lengths))) in
         s <- call OpSigmoid (t_sigmoid outputs) ;;
         r <- call OpRound (t_round s) ;;
         r <- call OpRound (t_round r) ;;
         e <- call OpEq (t_eq r (t_data (batch_label batch))) ;;
         c <- call OpSum (t_sum e) ;;
         current_acc <- acc_iadd current_acc c ;;
         ret (current_loss, current_acc)))
    (λ st,
       rbind (evaluation_sums model loss_function (st_params st)
                (pass_batches it) sums) (λ sums',
       rbind (pass_check it) (λ _, Ok (sums', st)))).
Proof.
  eapply computes_ext.
  { apply (computes_for_pass false b _
             (λ sums batch st,
                rbind (evaluation_batch model loss_function (st_params st)
                         sums batch) (λ sums', Ok (sums', st)))).
    intros [current_loss current_acc] batch.
    destruct (batch_text batch) as [text text_lengths] eqn:Htext.
    eapply computes_ext.
    { eapply (computes_bind _ _ _ _ _
                (λ ol st, rbind (accumulate (current_loss, current_acc)
                                   batch ol.1 ol.2)
                            (λ sums, Ok (sums, st)))).
      - apply computes_with_grad_enabled.
        eapply computes_bind; [apply computes_model_call|intros ?].
        eapply computes_bind; [apply computes_call|intros ?].
        eapply computes_bind; [apply computes_loss_call|intros ?].
        apply computes_ret.
      - intros [outputs loss]. cbn [fst snd].
        apply computes_statistics. by rewrite Htext. }
    intros st. unfold evaluation_batch, outputs_of, loss_of, eval_ctx.
    rewrite Htext. cbn [fst snd grad].
    same_calls. }
  intros st. cbn beta. rewrite fold_evaluation. same_calls.
Qed.

(** A pass whose loop prints nothing prints the line of its totals, if
    it gets that far. *)
Lemma pass_printed (loop : M (Float * Acc)) (pre mid : string)
    (data_loader : DataLoader Rng) (result : Float → Tensor → PyVal)
    (w : World) :
  printed (trace (loop w)) = [] →
  printed (trace
    ((totals <- loop ;;
      let '(current_loss, current_acc) := totals in
      total_loss <- float_truediv current_loss (dataset_len data_loader) ;;
      d <- acc_double current_acc ;;
      total_acc <- call OpDiv (t_div_int d (Z.of_nat (dataset_len data_loader))) ;;
      s <- format2 pre mid total_loss total_acc ;;
      print s ;;
      ret (result total_loss total_acc)) w))
  = lines_of (rbind (res (loop w)) (λ sums,
              rbind (totals_of sums (dataset_len data_loader))
                (metrics_line pre mid))).
Proof.
  intros Hsilent. unfold bind at 1.
  destruct (res (loop w)) as [[current_loss current_acc]|e];
    cbn [trace rbind lines_of]; [|exact Hsilent].
  rewrite printed_app, Hsilent. apply totals_printed.
Qed.

(** A pass whose loop computes [F] computes the totals of [F]'s sums,
    their line, and what it hands back. *)
Lemma pass_computes (t b : bool) (loop : M (Float * Acc))
    (F : Store → Result ((Float * Acc) * Store)) (pre mid : string)
    (data_loader : DataLoader Rng) (result : Float → Tensor → PyVal) :
  computes t b loop F →
  computes t b
    (totals <- loop ;;
     let '(current_loss, current_acc) := totals in
     total_loss <- float_truediv current_loss (dataset_len data_loader) ;;
     d <- acc_double current_acc ;;
     total_acc <- call OpDiv (t_div_int d (Z.of_nat (dataset_len data_loader))) ;;
     s <- format2 pre mid total_loss total_acc ;;
     print s ;;
     ret (result total_loss total_acc))
    (λ st,
       rbind (F st) (λ x,
       rbind (totals_of x.1 (dataset_len data_loader)) (λ totals,
       rbind (metrics_line pre mid totals) (λ _,
       Ok (result totals.1 totals.2, x.2))))).
Proof.
  intros Hloop.
  apply (computes_bind _ _ _ _ _
           (λ sums st,
              rbind (totals_of sums (dataset_len data_loader)) (λ totals,
              rbind (metrics_line pre mid totals)
                (λ _, Ok (result totals.1 totals.2, st))))).
  - exact Hloop.
  - intros [current_loss current_acc]. apply computes_totals.
Qed.

Lemma silent_printed {A} (m : M A) (w : World) :
  triple (λ _, True) m (λ _, True) no_print → printed (trace (m w)) = [].
Proof. intros Hm. apply printed_nil_of_calls. by apply Hm. Qed.

(** What [train_model] computes: the result, and the store it leaves. *)
Lemma train_model_den (model : Model Params) (loss_function : LossFn)
    (optimizer : Optimizer Params OptState) (data_loader : DataLoader Rng)
    (w : World) :
  den (train_model model loss_function optimizer data_loader w)
  = rbind (training_result model loss_function optimizer data_loader
             (store_of w) (rng w)) (λ x,
    rbind (metrics_line "Train Loss: " "; Accuracy: " x.2) (λ _,
    Ok (PyNone, x.1))).
Proof.
  unfold train_model, training_result, mbind, Result_bind.
  destruct (module_train model true) as [[]|e] eqn:Hmode.
  2:{ by rewrite (bind_run_raise _ _ _ _ _ _
                    (run_model_train_raise _ _ _ _ Hmode)). }
  rewrite den_bind, run_model_train by done. cbn [res world rbind].
  rewrite den_bind, run_enumerate. cbn [res world].
  change (rng (set_model_training true w)) with (rng w).
  destruct (dl_iter data_loader (rng w)) as [it|e]; cbn [rbind]; [|reflexivity].
  destruct (pass_computes true (grad_enabled w) _ _
              "Train Loss: " "; Accuracy: " data_loader (λ _ _, PyNone)
              (train_loop_computes (grad_enabled w) model loss_function
                 optimizer it (float_zero, AccInt 0))
              (set_model_training true w) eq_refl eq_refl) as [Hden _].
  refine (eq_trans Hden _).
  change (store_of (set_model_training true w)) with (store_of w).
  same_calls.
Qed.

(** What [test_model] computes. *)
Lemma test_model_den (model : Model Params) (loss_function : LossFn)
    (data_loader : DataLoader Rng) (w : World) :
  den (test_model model loss_function data_loader w)
  = rbind (evaluation_result model loss_function data_loader
             (params w) (rng w)) (λ totals,
    rbind (metrics_line "Test Loss: " "; Accuracy: " totals) (λ _,
    Ok (PyTuple2 (PyFloat totals.1) (PyTensor totals.2), store_of w))).
Proof.
  unfold test_model, evaluation_result, mbind, Result_bind.
  destruct (module_train model false) as [[]|e] eqn:Hmode.
  2:{ by rewrite (bind_run_raise _ _ _ _ _ _
                    (run_model_train_raise _ _ _ _ Hmode)). }
  rewrite den_bind, run_model_train by done. cbn [res world rbind].
  rewrite den_bind, run_enumerate. cbn [res world].
  change (rng (set_model_training false w)) with (rng w).
  destruct (dl_iter data_loader (rng w)) as [it|e]; cbn [rbind]; [|reflexivity].
  destruct (pass_computes false (grad_enabled w) _ _
              "Test Loss: " "; Accuracy: " data_loader
              (λ tl ta, PyTuple2 (PyFloat tl) (PyTensor ta))
              (test_loop_computes (grad_enabled w) model loss_function
                 it (float_zero, AccInt 0))
              (set_model_training false w) eq_refl eq_refl) as [Hden _].
  refine (eq_trans Hden _).
  change (store_of (set_model_training false w)) with (store_of w).
  cbn [store_of st_params].
  same_calls.
Qed.

(** What [train_model] prints: the line of its totals, if it gets that
    far. *)
Lemma train_model_printed (model : Model Params) (loss_function : LossFn)
    (optimizer : Optimizer Params OptState) (data_loader : DataLoader Rng)
    (w : World) :
  printed (trace (train_model model loss_function optimizer data_loader w))
  = lines_of (rbind (training_result model loss_function optimizer
                       data_loader (store_of w) (rng w))
                (λ x, metrics_line "Train Loss: " "; Accuracy: " x.2)).
Proof.
  unfold train_model, training_result, mbind, Result_bind.
  destruct (module_train model true) as [[]|e] eqn:Hmode.
  2:{ by rewrite (bind_run_raise _ _ _ _ _ _
                    (run_model_train_raise _ _ _ _ Hmode)). }
  rewrite (bind_run_ok _ _ _ _ _ _ (run_model_train _ _ _ Hmode)).
  cbn [trace rbind]. rewrite printed_app.
  destruct (dl_iter data_loader (rng w)) as [it|e] eqn:Hit; cbn [rbind].
  2:{ by rewrite (bind_run_raise _ _ _ _ _ _
                    (run_enumerate_raise data_loader
                       (set_model_training true w) e Hit)). }
  rewrite (bind_run_ok _ _ _ _ _ _
             (run_enumerate_ok data_loader (set_model_training true w) it Hit)).
  cbn [trace]. rewrite printed_app.
  rewrite pass_printed by (apply silent_printed; unfold zero_grad, loss_backward, step; silent).
  destruct (train_loop_computes (grad_enabled w) model loss_function
              optimizer it (float_zero, AccInt 0)
              (set_model_training true w) eq_refl eq_refl) as [Hden _].
  cbv zeta in Hden. rewrite res_den, Hden.
  change (store_of (set_model_training true w)) with (store_of w).
  change (printed [Call (OpModelTrain true) None]) with (@nil string).
  change (printed [Call OpIter None]) with (@nil string).
  cbn [app]. f_equal. same_calls.
Qed.

(** What [test_model] prints. *)
Lemma test_model_printed (model : Model Params) (loss_function : LossFn)
    (data_loader : DataLoader Rng) (w : World) :
  printed (trace (test_model model loss_function data_loader w))
  = lines_of (rbind (evaluation_result model loss_function data_loader
                       (params w) (rng w))
                (metrics_line "Test Loss: " "; Accuracy: ")).
Proof.
  unfold test_model, evaluation_result, mbind, Result_bind.
  destruct (module_train model false) as [[]|e] eqn:Hmode.
  2:{ by rewrite (bind_run_raise _ _ _ _ _ _
                    (run_model_train_raise _ _ _ _ Hmode)). }
  rewrite (bind_run_ok _ _ _ _ _ _ (run_model_train _ _ _ Hmode)).
  cbn [trace rbind]. rewrite printed_app.
  destruct (dl_iter data_loader (rng w)) as [it|e] eqn:Hit; cbn [rbind].
  2:{ by rewrite (bind_run_raise _ _ _ _ _ _
                    (run_enumerate_raise data_loader
                       (set_model_training false w) e Hit)). }
  rewrite (bind_run_ok _ _ _ _ _ _
             (run_enumerate_ok data_loader (set_model_training false w) it Hit)).
  cbn [trace]. rewrite printed_app.
  rewrite pass_printed by (apply silent_printed; silent).
  destruct (test_loop_computes (grad_enabled w) model loss_function
              it (float_zero, AccInt 0)
              (set_model_training false w) eq_refl eq_refl) as [Hden _].
  cbv zeta in Hden. rewrite res_den, Hden.
  change (store_of (set_model_training false w)) with (store_of w).
  change (printed [Call (OpModelTrain false) None]) with (@nil string).
  change (printed [Call OpIter None]) with (@nil string).
  cbn [app store_of st_params]. f_equal. same_calls.
Qed.

End LoopsCompute.

(** ** The order of the steps of a training pass (C2) *)
Section TrainingOrder.
Context `{Torch} {Params OptState Rng : Type}.

#[local] Abbreviation World := (World Params OptState Rng).

(** C2.  A pass of [train_model] over the iterator the loader hands out
    makes its calls in this order: the switch to training mode and
    [iter()]; then for every batch the [next()] that draws it, the reset
    of the gradients, the forward pass (training mode, grad mode on), the
    loss, the backward pass, the optimizer step, and then the calls that
    accumulate the running loss and accuracy; then the last [next()], the
    totals and the printed line.
    - A run that returns has made exactly these calls, none of which
      raised, and the store it leaves is the one [training_pass] computes
      batch by batch: gradients reset, outputs and loss at the parameters
      in force, backward pass onto the reset gradients, step from them.
    - A run that raises has made an initial part of these calls and ends
      with the one that raised.
    - When every call returns and the pass yields at least one batch of a
      dataset that is not empty, the run returns. *)
Theorem train_model_step_order (model : Model Params)
    (loss_function : LossFn) (optimizer : Optimizer Params OptState)
    (data_loader : DataLoader Rng) (w : World) (it : Pass Batch Rng) :
  dl_iter data_loader (rng w) = Ok it →
  let o := train_model model loss_function optimizer data_loader w in
  let schedule :=
    [OpModelTrain true; OpIter]
    ++ mjoin (replicate (length (pass_batches it))
         [ OpNext;
           OpZeroGrad;
           OpForward {| training := true; grad := true |}; OpSqueeze;
           OpLoss true;
           OpBackward;
           OpStep;
           OpItem; OpSigmoid; OpRound; OpRound; OpEq; OpSum; OpAdd ])
    ++ [OpNext; OpTrueDiv; OpDouble; OpDiv; OpFormat; OpPrint] in
  ops (trace o) `prefix_of` schedule
  ∧ match res o with
    | Ok _ =>
        ops (trace o) = schedule
        ∧ raised (trace o) = []
        ∧ ∃ sums,
            training_pass model loss_function optimizer (store_of w)
              (pass_batches it) (float_zero, AccInt 0)
            = Ok (store_of (world o), sums)
    | Raise e =>
        ∃ t op, trace o = t ++ [Call op (Some e)] ∧ raised t = []
    end
  ∧ (library_returns → model_returns model → loss_returns loss_function →
     optimizer_returns optimizer →
     pass_exn it = None → pass_batches it ≠ [] →
     dataset_len data_loader ≠ 0 →
     res o = Ok PyNone).
Proof.
  intros Hit o schedule.
  pose proof (follows_train_model (model_training w) (grad_enabled w) (rng w)
                model loss_function optimizer data_loader w) as Hrun.
  unfold pass_of in Hrun. rewrite Hit in Hrun. fold o in Hrun.
  pose proof (propagates_train_model model loss_function optimizer
                data_loader w) as Hexn.
  unfold hands_on in Hexn. fold o in Hexn.
  pose proof (train_model_den model loss_function optimizer data_loader w)
    as Hden.
  fold o in Hden.
  split; [|split].
  - destruct (res o).
    + destruct Hrun as [-> _]; [by repeat split|]. reflexivity.
    + apply Hrun. by repeat split.
  - destruct (res o) as [v|e] eqn:Hres; [|exact Hexn].
    destruct Hrun as [Hops _]; [by repeat split|].
    split; [exact Hops|]. split; [exact Hexn|].
    unfold den in Hden. rewrite Hres in Hden.
    unfold training_result, mbind, Result_bind in Hden. rewrite Hit in Hden.
    destruct (module_train model true); [|done]. cbn [rbind] in Hden.
    destruct (training_pass _ _ _ _ _ _) as [[st sums]|]; [|done].
    cbn [rbind fst snd] in Hden.
    destruct (pass_check it); [|done]. cbn [rbind] in Hden.
    destruct (totals_of _ _); [|done]. cbn [rbind fst snd] in Hden.
    destruct (metrics_line _ _ _); [|done]. cbn [rbind] in Hden.
    injection Hden as _ <-. by exists sums.
  - intros Hlib Hmodel Hloss Hopt Hend Hbatches Hlen.
    apply train_model_returns; try done. by exists it.
Qed.

End TrainingOrder.

(** The toy pass over two batches returns: it makes the scheduled calls,
    and leaves the parameter moved twice. *)
Lemma train_model_step_order_witness :
  let o := train_model Toy.model Toy.loss_function Toy.optimizer
             Toy.data_loader Toy.world0 in
  res o = Ok PyNone
  ∧ ops (trace o)
    = [OpModelTrain true; OpIter]
      ++ mjoin (replicate 2
           [ OpNext; OpZeroGrad;
             OpForward {| training := true; grad := true |}; OpSqueeze;
             OpLoss true; OpBackward; OpStep;
             OpItem; OpSigmoid; OpRound; OpRound; OpEq; OpSum; OpAdd ])
      ++ [OpNext; OpTrueDiv; OpDouble; OpDiv; OpFormat; OpPrint]
  ∧ raised (trace o) = [].
Proof.
  pose proof (@train_model_step_order Toy.torch Z nat nat Toy.model
                Toy.loss_function Toy.optimizer Toy.data_loader Toy.world0
                _ eq_refl) as (_ & Hrun & Hreturns).
  cbv zeta.
  match type of Hreturns with
  | _ → _ → _ → _ → _ → _ → _ → ?P => assert P as Hres
  end.
  { apply Hreturns.
    - by constructor.
    - by split.
    - by intros g outputs label.
    - by split.
    - reflexivity.
    - discriminate.
    - discriminate. }
  split; [exact Hres|].
  destruct (res (train_model Toy.model Toy.loss_function Toy.optimizer
                   Toy.data_loader Toy.world0)); [|discriminate].
  destruct Hrun as (Hops & Hraised & _). by split.
Defined.

(** ** The driver (C3) *)
Section DriverOrder.
Context `{Torch} {Params OptState Rng : Type} `{!Optim Params OptState}.

#[local] Abbreviation World := (World Params OptState Rng).





Lemma follows_epoch_body (t b : bool) (r : Rng) (model : Model Params)
    (loss_function : LossFn) (optimizer : Optimizer Params OptState)
    (train_iter test_iter : DataLoader Rng) (epoch : nat) :
  follows (flags_are t b r : World → Prop)
    (epoch_body model loss_function optimizer train_iter test_iter epoch)
    ([OpPrint]
     ++ train_schedule (length (pass_batches (pass_of train_iter r)))
     ++ test_schedule
          (length (pass_batches
                     (pass_of test_iter (pass_end (pass_of train_iter r))))))
    (λ _, flags_are false b
            (pass_end (pass_of test_iter (pass_end (pass_of train_iter r))))).
Proof.
  unfold epoch_body.
  apply (follows_bind _ (λ _, flags_are t b r)); [apply follows_print|].
  intros _.
  apply (follows_bind _ _ _ _ _ _ _ (follows_train_model _ _ _ _ _ _ _)).
  intros v.
  apply (follows_pre _ (flags_are true b (pass_end (pass_of train_iter r))));
    [by intros ? (_ & _ & ?)|].
  rewrite <- (app_nil_r (test_schedule _)).
  apply (follows_bind _ _ _ _ _ _ _ (follows_test_model _ _ _ _ _ _)).
  intros v'. eapply follows_post; [|apply follows_ret].
  by intros ? ? [_ (_ & _ & ?)].
Qed.

(** The calls of the epochs, and the flags and the iterators' state after
    them. *)
Lemma follows_epochs_state (model : Model Params) (loss_function : LossFn)
    (optimizer : Optimizer Params OptState)
    (train_iter test_iter : DataLoader Rng) (b : bool) (n : nat) :
  ∀ (start : nat) (t : bool) (r : Rng) (s : unit),
    follows (flags_are t b r : World → Prop)
      (for_each (seq start n) s
         (λ _ epoch,
            epoch_body model loss_function optimizer train_iter test_iter epoch))
      (epochs_schedule train_iter test_iter n r)
      (λ _, flags_are (match n with 0 => t | S _ => false end) b
              (epochs_rng train_iter test_iter n r)).
Proof.
  induction n as [|n IH]; intros start t r s.
  - eapply follows_post; [|apply follows_ret]. by intros ? ? [_ ?].
  - cbn [seq for_each epochs_schedule epochs_rng]. cbv zeta.
    pose proof (follows_epoch_body t b r model loss_function optimizer
                  train_iter test_iter start) as Hbody.
    match goal with
    | |- follows _ _ (?a ++ ?b ++ ?c ++ ?d) _ =>
        replace (a ++ b ++ c ++ d) with ((a ++ b ++ c) ++ d)
          by (by rewrite <- !app_assoc)
    end.
    eapply follows_bind; [exact Hbody|].
    intros s'. eapply follows_post; [|apply IH]. intros ? w'. by destruct n.
Qed.

Lemma follows_main (t b : bool) (r : Rng) (model : Model Params)
    (train_iter test_iter : DataLoader Rng) :
  follows (flags_are t b r : World → Prop)
    (main model train_iter test_iter)
    (main_schedule train_iter test_iter r)
    (λ _, flags_are false b (epochs_rng train_iter test_iter 5 r)).
Proof.
  unfold main, main_schedule.
  apply (follows_bind_cons _ (λ _, flags_are t b r)).
  { apply follows_call_upd. intros w w' Hw.
    unfold mbind, Result_bind.
    destruct (Adam_new (params w)); simpl; intros [= <-]. exact Hw. }
  intros _.
  apply (follows_bind_cons _ (λ _, flags_are t b r)); [apply follows_call|].
  intros l.
  apply (follows_bind_cons _ (λ _, flags_are t b r)); [apply follows_call|].
  intros loss_function.
  apply (follows_bind_cons _ (λ _, flags_are t b r)).
  { apply follows_call_upd. intros w w' Hw.
    unfold mbind, Result_bind.
    destruct (model_to_device (params w)); simpl; intros [= <-]. exact Hw. }
  intros _.
  apply (follows_epochs_state model loss_function Adam train_iter test_iter
           b 5 0 t r tt).
Qed.



End DriverOrder.



(** ** The forward pass (C4) *)
Section ForwardPass.
Context `{Layers}.

Lemma LSTMModel_init_sizes
    (vocab_size embedding_size hidden output_size pad_idx : nat)
    (model : LSTMModel) :
  LSTMModel_init vocab_size embedding_size hidden output_size pad_idx
    = Ok model →
  num_embeddings (embedding model) = vocab_size
  ∧ embedding_dim (embedding model) = embedding_size
  ∧ padding_idx (embedding model) = pad_idx
  ∧ input_size (rnn model) = embedding_size
  ∧ hidden_size (rnn model) = hidden
  ∧ in_features (fc model) = hidden
  ∧ out_features (fc model) = output_size.
Proof.
  unfold LSTMModel_init, Embedding_new, LSTM_new, mbind, Result_bind.
  destruct (decide (0 < pad_idx ∧ ¬ pad_idx < vocab_size)); [discriminate|].
  destruct (_ !! pad_idx); [|discriminate]. cbn [rbind].
  destruct (decide (hidden = 0)); [discriminate|]. cbn [rbind].
  intros [= <-]. simpl. repeat split.
Qed.

Lemma init_model_sizes (vocab : Vocab) (model : LSTMModel) :
  init_model vocab = Ok model →
  embedding_dim (embedding model) = EMBEDDING_SIZE
  ∧ input_size (rnn model) = EMBEDDING_SIZE
  ∧ hidden_size (rnn model) = HIDDEN_SIZE
  ∧ in_features (fc model) = HIDDEN_SIZE
  ∧ out_features (fc model) = 1.
Proof.
  unfold init_model.
  destruct (LSTMModel_init _ _ _ _ _) as [m|] eqn:Hinit; [|discriminate].
  apply LSTMModel_init_sizes in Hinit as (_ & ? & _ & ? & ? & ? & ?).
  unfold mbind, Result_bind. cbn [rbind].
  repeat match goal with
         | |- context [rbind ?r _] => destruct r; [|discriminate]; cbn [rbind]
         end.
  intros [= <-]. simpl. auto.
Qed.

(** C4.  For every token-index tensor and vector of lengths (and whatever
    the weights and the flags), the forward pass of the model is the
    embedding lookup, then the recurrent encoder yielding the final hidden
    state, then the linear layer applied to that state; and in the model
    the notebook builds the linear layer maps the 256 hidden features to
    one output. *)
Theorem forward_is_three_stages :
  (∀ (c : Ctx) (self : LSTMModel) (text : Tensor) (lengths : list Z),
     forward lstm_model c self text lengths
     = forward_stages c self text lengths)
  ∧ (∀ (vocab : Vocab) (model : LSTMModel),
       init_model vocab = Ok model →
       in_features (fc model) = hidden_size (rnn model)
       ∧ out_features (fc model) = 1).
Proof.
  split.
  - intros c self text lengths.
    unfold lstm_model, forward_stages, embedding_lookup, recurrent_encoder,
      linear_projection. cbn [forward]. unfold LSTMModel_forward.
    unfold mbind, Result_bind.
    destruct (embedding_fwd _ _ _ _) as [embeddings|]; [|reflexivity].
    cbn [rbind].
    destruct (pack_padded_sequence embeddings lengths) as [packed|];
      [|reflexivity].
    cbn [rbind].
    destruct (lstm_fwd _ _ _) as [[packed_output [hidden cell]]|];
      reflexivity.
  - intros vocab model Hinit.
    apply init_model_sizes in Hinit as (_ & _ & -> & -> & ->). done.
Qed.

End ForwardPass.

(** The model built from the toy vocabulary. *)
Lemma forward_is_three_stages_witness :
  ∃ model, init_model (H0:=Toy.layers) Toy.vocab = Ok model
           ∧ in_features (fc model) = hidden_size (rnn model)
           ∧ out_features (fc model) = 1.
Proof.
  destruct (is_ok_Ok (init_model (H0:=Toy.layers) Toy.vocab))
    as [model Hinit]; [vm_compute; reflexivity|].
  exists model. split; [exact Hinit|].
  exact (proj2 (@forward_is_three_stages Toy.torch Toy.layers)
           Toy.vocab model Hinit).
Defined.

(** ** The embedding table after cell 4 (C5) *)
Section EmbeddingTable.
Context `{Layers}.

Lemma length_zeros (n : nat) : length (zeros n) = n.
Proof. apply length_replicate. Qed.

Lemma expand_row_same (d : nat) (r : list Scalar) :
  length r = d → expand_row d r = r.
Proof. intros <-. by destruct r as [|x [|y r]]. Qed.

Lemma map_expand_rows (d : nat) (t : list (list Scalar)) :
  Forall (λ r, length r = d) t → map (expand_row d) t = t.
Proof.
  induction 1 as [|r t Hr _ IH]; [reflexivity|].
  cbn [map]. by rewrite (expand_row_same _ _ Hr), IH.
Qed.

Lemma expand_rows_same (n : nat) (t : list (list Scalar)) :
  length t = n → expand_rows n t = t.
Proof. intros <-. by destruct t as [|r [|r' t]]. Qed.

Lemma broadcast_size_same (dim a : nat) : broadcast_size dim a a = Ok a.
Proof. unfold broadcast_size. by rewrite decide_True. Qed.

Lemma width_rows (d : nat) (t : list (list Scalar)) :
  t ≠ [] → Forall (λ r, length r = d) t → width t = d.
Proof. intros Ht Hrows. destruct t as [|r t]; [done|]. by inversion Hrows. Qed.

(** The fresh table has one row per token and the width asked for. *)
Lemma Embedding_new_shape (n d pad : nat) (emb : Embedding) :
  Embedding_new n d pad = Ok emb →
  length (weight emb) = n ∧ width (weight emb) = d.
Proof.
  unfold Embedding_new. case_decide; [discriminate|].
  destruct (_ !! pad) as [row|] eqn:Hpad; [|discriminate].
  apply lookup_lt_Some in Hpad. rewrite length_map, length_seq in Hpad.
  intros [= <-]. cbn [weight]. split.
  - by rewrite length_insert, length_map, length_seq.
  - destruct n as [|n]; [lia|]. cbn [seq map].
    destruct pad; simpl; [apply length_zeros|].
    by rewrite length_map, length_seq.
Qed.

(** Copying a table of the same shape replaces the content. *)
Lemma copy_same_shape (dst src : list (list Scalar)) :
  length src = length dst →
  Forall (λ r, length r = width dst) src →
  copy_ dst src = Ok src.
Proof.
  intros Hlen Hrows. unfold copy_.
  assert (width src = width dst) as ->.
  { destruct src as [|r src].
    - by destruct dst.
    - by apply (width_rows _ (r :: src)). }
  rewrite Hlen, !broadcast_size_same. unfold mbind, Result_bind. cbn [rbind].
  rewrite decide_True by done.
  by rewrite (map_expand_rows _ _ Hrows), expand_rows_same.
Qed.

(** Writing a row of the right width at an index in range. *)
Lemma setitem_in_range (t : list (list Scalar)) (i d : nat)
    (row : list Scalar) :
  i < length t → Forall (λ r, length r = d) t → length row = d →
  setitem t i row = Ok (<[i := row]> t).
Proof.
  intros Hi Ht Hrow. unfold setitem.
  destruct (lookup_lt_is_Some_2 t i Hi) as [old Hold]. rewrite Hold.
  assert (length old = d) as Hd.
  { eapply (Forall_lookup_1 _ _ _ _ Ht Hold). }
  by rewrite decide_True by congruence.
Qed.

Lemma Forall_insert_row (t : list (list Scalar)) (i d : nat)
    (row : list Scalar) :
  Forall (λ r, length r = d) t → length row = d →
  Forall (λ r, length r = d) (<[i := row]> t).
Proof. intros Ht Hrow. by apply Forall_insert. Qed.

(** C5.  When the vocabulary's table of word vectors has one 100-dimensional
    vector per token (the pretrained vectors are loaded with [dim=100]) and
    the two special tokens are tokens of the vocabulary, cell 4 succeeds,
    and in the model it builds the embedding table has one 100-dimensional
    row per token, the rows of the unknown and of the padding token are the
    zero vector of dimension 100, and every other row is the word vector of
    its token. *)
Theorem embedding_table_after_init (vocab : Vocab) :
  length (vectors vocab) = length (itos vocab) →
  Forall (λ v, length v = 100) (vectors vocab) →
  stoi vocab unk_token < length (itos vocab) →
  stoi vocab pad_token < length (itos vocab) →
  ∃ model,
    init_model vocab = Ok model
    ∧ length (weight (embedding model)) = length (itos vocab)
    ∧ Forall (λ row, length row = 100) (weight (embedding model))
    ∧ weight (embedding model) !! stoi vocab unk_token = Some (zeros 100)
    ∧ weight (embedding model) !! stoi vocab pad_token = Some (zeros 100)
    ∧ ∀ i, i ≠ stoi vocab unk_token → i ≠ stoi vocab pad_token →
           weight (embedding model) !! i = vectors vocab !! i.
Proof.
  intros Hlen Hdim Hunk Hpad.
  set (z := zeros 100).
  set (unk := stoi vocab unk_token) in *.
  set (pad := stoi vocab pad_token) in *.
  assert (length z = 100) as Hz by apply length_zeros.
  unfold init_model, LSTMModel_init, LSTM_new. fold pad unk.
  rewrite (decide_False (P := HIDDEN_SIZE = 0)) by done.
  destruct (Embedding_new (length (itos vocab)) EMBEDDING_SIZE pad)
    as [emb|e] eqn:Hemb.
  2:{ unfold Embedding_new in Hemb. rewrite decide_False in Hemb by lia.
      destruct (lookup_lt_is_Some_2
                  (map (λ i, map (init_embedding i) (seq 0 EMBEDDING_SIZE))
                     (seq 0 (length (itos vocab)))) pad) as [row Hrow].
      { by rewrite length_map, length_seq. }
      by rewrite Hrow in Hemb. }
  apply Embedding_new_shape in Hemb as [Hrows Hwidth].
  unfold mbind, Result_bind. cbn [rbind embedding weight].
  rewrite copy_same_shape; [|congruence|by rewrite Hwidth].
  cbn [rbind].
  rewrite (setitem_in_range _ _ 100); [|lia|exact Hdim|exact Hz].
  cbn [rbind].
  rewrite (setitem_in_range _ _ 100);
    [|by rewrite length_insert; lia|by apply Forall_insert_row|exact Hz].
  cbn [rbind].
  eexists. split; [reflexivity|]. cbn [set_weight embedding weight].
  split; [by rewrite !length_insert|].
  split; [by repeat apply Forall_insert_row|].
  split.
  { destruct (decide (unk = pad)) as [->|Hne].
    - apply list_lookup_insert_eq. rewrite length_insert. lia.
    - rewrite list_lookup_insert_ne by done.
      apply list_lookup_insert_eq. lia. }
  split.
  { apply list_lookup_insert_eq. rewrite length_insert. lia. }
  intros i Hi1 Hi2. by rewrite !list_lookup_insert_ne.
Qed.

End EmbeddingTable.

(** The toy vocabulary: four tokens, [<unk>] at index 0 and [<pad>] at 1. *)
Lemma embedding_table_after_init_witness :
  ∃ model,
    init_model (H0:=Toy.layers) Toy.vocab = Ok model
    ∧ length (weight (embedding model)) = 4
    ∧ Forall (λ row, length row = 100) (weight (embedding model))
    ∧ weight (embedding model) !! 0 = Some (zeros 100)
    ∧ weight (embedding model) !! 1 = Some (zeros 100)
    ∧ ∀ i, i ≠ 0 → i ≠ 1 →
           weight (embedding model) !! i = vectors Toy.vocab !! i.
Proof.
  apply (@embedding_table_after_init Toy.torch Toy.layers Toy.vocab).
  - reflexivity.
  - repeat constructor.
  - simpl. lia.
  - simpl. lia.
Defined.

(** ** Sorting and passes *)
Section StableSortFacts.
Context {A : Type} (R : relation A) `{!RelDecision R}.

Lemma insert_sorted_Permutation (x : A) (l : list A) :
  insert_sorted R x l ≡ₚ x :: l.
Proof.
  induction l as [|y l IH]; simpl; [reflexivity|].
  case_decide; [reflexivity|]. rewrite IH. apply Permutation_swap.
Qed.

Lemma stable_sort_Permutation (l : list A) : stable_sort R l ≡ₚ l.
Proof.
  induction l as [|x l IH]; simpl; [reflexivity|].
  by rewrite insert_sorted_Permutation, IH.
Qed.

Lemma HdRel_insert_sorted (y x : A) (l : list A) :
  R y x → HdRel R y l → HdRel R y (insert_sorted R x l).
Proof.
  intros Hyx Hl. destruct l as [|z l]; simpl; [by constructor|].
  case_decide; constructor; [done|]. by inversion Hl.
Qed.

Lemma Sorted_insert_sorted `{!Total R} (x : A) (l : list A) :
  Sorted R l → Sorted R (insert_sorted R x l).
Proof.
  induction 1 as [|y l Hl IH Hy]; simpl; [by repeat constructor|].
  case_decide as Hxy.
  - by repeat constructor.
  - constructor; [exact IH|]. apply HdRel_insert_sorted; [|exact Hy].
    by destruct (total R x y).
Qed.

Lemma Sorted_stable_sort `{!Total R} (l : list A) : Sorted R (stable_sort R l).
Proof.
  induction l as [|x l IH]; simpl; [constructor|].
  by apply Sorted_insert_sorted.
Qed.

End StableSortFacts.

Lemma pass_batches_of_list {B R} (r : R) (l : list B) :
  pass_batches (pass_of_list r l) = l.
Proof. induction l as [|b l IH]; simpl; [reflexivity|]. by rewrite IH. Qed.

Lemma pass_exn_of_list {B R} (r : R) (l : list B) :
  pass_exn (pass_of_list r l) = None.
Proof. by induction l. Qed.

Lemma pass_states_of_list {B R} (r : R) (l : list B) :
  Forall (λ r', r' = r) (pass_states (pass_of_list r l)).
Proof. induction l; simpl; by repeat constructor. Qed.

Lemma pass_end_of_list {B R} (r : R) (l : list B) :
  pass_end (pass_of_list r l) = r.
Proof. by induction l. Qed.

Lemma pass_batches_map {A B R} (f : A → B) (it : Pass A R) :
  pass_batches (pass_map f it) = map f (pass_batches it).
Proof. induction it as [| |a r rest IH]; simpl; [done..|]. by rewrite IH. Qed.

Lemma pass_exn_map {A B R} (f : A → B) (it : Pass A R) :
  pass_exn (pass_map f it) = pass_exn it.
Proof. by induction it. Qed.

Lemma pass_end_map {A B R} (f : A → B) (it : Pass A R) :
  pass_end (pass_map f it) = pass_end it.
Proof. by induction it. Qed.

Lemma pass_states_map {A B R} (f : A → B) (it : Pass A R) :
  pass_states (pass_map f it) = pass_states it.
Proof. induction it as [| |a r rest IH]; simpl; [done..|]. by rewrite IH. Qed.

(** ** The order of the lengths in a batch (C9) *)
Section SortedBatches.
Context `{Layers} {Token Label Rng : Type}.

#[local] Abbreviation Example := (@Example Token Label).

#[local] Instance key_le_total : Total (key_le (Token:=Token) (Label:=Label)).
Proof. intros a b. unfold key_le. lia. Qed.
#[local] Instance key_le_trans : Transitive (key_le (Token:=Token) (Label:=Label)).
Proof. intros a b c. unfold key_le. lia. Qed.
#[local] Instance key_ge_total : Total (key_ge (Token:=Token) (Label:=Label)).
Proof. intros a b. unfold key_ge. lia. Qed.

(** Reviews in non-increasing order of length give lengths in the order
    the packing wants. *)
Lemma sorted_decreasing_keys (minibatch : list Example) :
  Sorted key_ge minibatch →
  sorted_decreasing (map (λ ex, Z.of_nat (sort_key ex)) minibatch) = true.
Proof.
  induction 1 as [|a l Hl IH Hhd]; [reflexivity|].
  destruct Hhd as [|b l Hab]; [reflexivity|].
  change (sorted_decreasing (map _ (a :: b :: l)))
    with ((Z.of_nat (sort_key b) <=? Z.of_nat (sort_key a))%Z
          && sorted_decreasing (map (λ ex, Z.of_nat (sort_key ex)) (b :: l))).
  rewrite IH, andb_true_r. apply Z.leb_le. unfold key_ge in Hab. lia.
Qed.

(** Every minibatch cut by [batch] is a run of consecutive elements of what
    was read. *)
Lemma batch_from_segment {A} (batch_size : nat) (data minibatch chunk : list A) :
  chunk ∈ batch_from batch_size minibatch data →
  ∃ before after, minibatch ++ data = before ++ chunk ++ after.
Proof.
  revert minibatch. induction data as [|ex data IH]; intros minibatch; simpl.
  - destruct minibatch as [|x minibatch].
    + intros Hin. by apply elem_of_nil in Hin.
    + intros ->%list_elem_of_singleton. exists [], []. by rewrite !app_nil_r.
  - repeat case_decide.
    + intros [->|Hin]%elem_of_cons.
      * exists [], data. by rewrite <- app_assoc.
      * destruct (IH _ Hin) as (before & after & Heq). simpl in Heq.
        exists ((minibatch ++ [ex]) ++ before), after.
        rewrite Heq, <- !app_assoc. reflexivity.
    + intros [->|Hin]%elem_of_cons.
      * exists [], (ex :: data). reflexivity.
      * destruct (IH _ Hin) as (before & after & Heq). simpl in Heq.
        exists (minibatch ++ before), after.
        rewrite <- app_assoc, <- Heq. reflexivity.
    + intros Hin. destruct (IH _ Hin) as (before & after & Heq).
      exists before, after. rewrite <- Heq, <- app_assoc. reflexivity.
Qed.

(** A minibatch cut from data sorted by length is sorted by length. *)
Lemma batch_sorted (data : list Example) (batch_size : nat)
    (chunk : list Example) :
  chunk ∈ batch (sorted_by_key data) batch_size → Sorted key_le chunk.
Proof.
  intros Hin. apply batch_from_segment in Hin as (before & after & Heq).
  simpl in Heq.
  pose proof (Sorted_StronglySorted _ _
                (Sorted_stable_sort key_le data)) as Hsorted.
  fold (sorted_by_key data) in Hsorted. rewrite Heq in Hsorted.
  apply StronglySorted_app_1_r, StronglySorted_app_1_l in Hsorted.
  by apply StronglySorted_Sorted.
Qed.

Context (pool : list Example → nat → Rng → Pass (list Example) Rng)
        (numericalize : list (list Token) → Tensor)
        (label_tensor : list Label → Tensor).

(** With [sort_within_batch] on, every batch of an iterator built by
    [splits] carries its lengths in non-increasing order. *)
Lemma iterate_sorted (dataset : list Example) (batch_size : nat)
    (train : bool) (r : Rng) (b : Batch) :
  b ∈ pass_batches
        (iterate pool numericalize label_tensor
           (BucketIterator_new dataset batch_size train true) r) →
  sorted_decreasing (batch_text b).2 = true.
Proof.
  unfold iterate, create_batches, BucketIterator_new.
  cbn [bi_sort bi_dataset bi_batch_size]. rewrite pass_batches_map.
  destruct train; cbn [negb].
  - intros Hin. apply list_elem_of_In, in_map_iff in Hin as (mb & <- & _).
    unfold within_batch. cbn [bi_sort_within_batch bi_sort make_batch batch_text snd].
    apply sorted_decreasing_keys. apply Sorted_stable_sort. apply _.
  - rewrite pass_batches_of_list.
    intros Hin. apply list_elem_of_In, in_map_iff in Hin as (mb & <- & Hmb).
    apply list_elem_of_In, batch_sorted in Hmb.
    unfold within_batch. cbn [bi_sort_within_batch bi_sort make_batch batch_text snd].
    apply sorted_decreasing_keys.
    apply (Sorted_reverse key_le), Hmb.
Qed.

(** C9.  The forward pass of the model does not return on lengths that are
    not in non-increasing order: the packing step raises (it is called
    with the default [enforce_sorted=True]).  Every batch yielded by the
    two iterators of cell 2, which are built with [sort_within_batch=True],
    carries its lengths in non-increasing order, so on these batches the
    packing step goes past the check of the order: it is the argument
    checks followed by the packing itself. *)
Theorem batches_meet_packing_order :
  (∀ (c : Ctx) (self : LSTMModel) (text : Tensor) (lengths : list Z),
     sorted_decreasing lengths = false →
     is_ok (forward lstm_model c self text lengths) = false)
  ∧ (∀ (train test : list Example) (r : Rng) (b : Batch),
       b ∈ pass_batches
             (iterate pool numericalize label_tensor (make_iters train test).1 r)
       ∨ b ∈ pass_batches
               (iterate pool numericalize label_tensor (make_iters train test).2 r) →
       sorted_decreasing (batch_text b).2 = true
       ∧ ∀ input : Tensor,
           pack_padded_sequence input (batch_text b).2
           = (pack_checks input (batch_text b).2
                ≫= λ _, pack_data input (batch_text b).2)).
Proof.
  split.
  - intros c self text lengths Hunsorted.
    cbn [lstm_model forward]. unfold LSTMModel_forward, pack_padded_sequence.
    unfold mbind, Result_bind. rewrite Hunsorted.
    destruct (embedding_fwd _ _ _ _) as [embeddings|]; [|reflexivity].
    cbn [rbind]. destruct (pack_checks _ _) as [[]|]; reflexivity.
  - intros train test r b Hb.
    assert (sorted_decreasing (batch_text b).2 = true) as Hsorted.
    { unfold make_iters, splits in Hb. cbn [fst snd] in Hb.
      destruct Hb as [Hb|Hb]; eapply iterate_sorted; exact Hb. }
    split; [exact Hsorted|]. intros input.
    unfold pack_padded_sequence. rewrite Hsorted. reflexivity.
Qed.

End SortedBatches.

(** The toy reviews: the training batch has lengths 5, 3, 2 and the test
    batch 4, 1. *)
Lemma batches_meet_packing_order_witness :
  ∃ b,
    pass_batches
      (iterate (H:=Toy.torch) Toy.pool Toy.numericalize Toy.label_tensor
         (make_iters Toy.reviews Toy.reviews').1 0) = [b]
    ∧ (batch_text b).2 = [5; 3; 2]%Z
    ∧ sorted_decreasing (batch_text b).2 = true
    ∧ ∀ input,
        pack_padded_sequence (H0:=Toy.layers) input (batch_text b).2
        = (pack_checks (Layers:=Toy.layers) input (batch_text b).2
             ≫= λ _, pack_data input (batch_text b).2).
Proof.
  assert (map (λ b, (batch_text b).2)
            (pass_batches
               (iterate (H:=Toy.torch) Toy.pool Toy.numericalize
                  Toy.label_tensor (make_iters Toy.reviews Toy.reviews').1 0))
          = [[5; 3; 2]%Z]) as Hlengths by (vm_compute; reflexivity).
  destruct (pass_batches
              (iterate (H:=Toy.torch) Toy.pool Toy.numericalize
                 Toy.label_tensor (make_iters Toy.reviews Toy.reviews').1 0))
    as [|b [|b' rest]] eqn:Hbatches; [discriminate| |discriminate].
  injection Hlengths as Hb.
  exists b. split; [reflexivity|]. split; [exact Hb|].
  apply (proj2 (@batches_meet_packing_order Toy.torch Toy.layers nat bool nat
                  Toy.pool Toy.numericalize Toy.label_tensor)
           Toy.reviews Toy.reviews' 0 b).
  left. rewrite Hbatches. apply list_elem_of_here.
Defined.

(** ** A pass over no batch (C10) *)
Section EmptyLoader.
Context `{Torch} {Params OptState Rng : Type}.

(** C10.  When the data loader yields no batch (the first [next()] finds
    the iterator exhausted), [train_model] and [test_model] print nothing
    and return nothing: they raise.  The
    accuracy accumulator is still the int [0], so [current_acc.double()]
    raises an [AttributeError]; and when the dataset is empty too, the
    division of the running loss by its size comes first and raises a
    [ZeroDivisionError].  (Should the switch of the model's mode raise,
    that exception comes before either.) *)
Theorem empty_loader_raises (model : Model Params) (loss_function : LossFn)
    (optimizer : Optimizer Params OptState) (data_loader : DataLoader Rng)
    (w : World Params OptState Rng) (r : Rng) :
  dl_iter data_loader (rng w) = Ok (Stop r) →
  let e := if decide (dataset_len data_loader = 0) then ZeroDivisionError
           else AttributeError_int_double in
  let o_train := train_model model loss_function optimizer data_loader w in
  let o_test := test_model model loss_function data_loader w in
  res o_train = (_ ← module_train model true; Raise e)
  ∧ printed (trace o_train) = []
  ∧ res o_test = (_ ← module_train model false; Raise e)
  ∧ printed (trace o_test) = [].
Proof.
  intros Hempty e o_train o_test. subst e o_train o_test.
  assert (∀ (x : Float) (w' : World Params OptState Rng),
            dataset_len data_loader = 0 →
            float_truediv x (dataset_len data_loader) w'
            = MkOut (Raise ZeroDivisionError) w'
                [Call OpTrueDiv (Some ZeroDivisionError)]) as Hzero.
  { intros x w' Hn. unfold float_truediv, call. by rewrite decide_True. }
  assert (∀ (x : Float) (w' : World Params OptState Rng),
            dataset_len data_loader ≠ 0 →
            float_truediv x (dataset_len data_loader) w'
            = MkOut (Ok (float_div_int x (Z.of_nat (dataset_len data_loader))))
                w' [Call OpTrueDiv None]) as Hnonzero.
  { intros x w' Hn. unfold float_truediv, call. by rewrite decide_False. }
  unfold train_model, test_model.
  match goal with
  | |- ?a ∧ ?b ∧ ?c ∧ ?d => cut ((a ∧ b) ∧ (c ∧ d)); [tauto|split]
  end.
  - destruct (module_train model true) as [[]|e] eqn:Htrain.
    2:{ by rewrite (bind_run_raise _ _ _ _ _ _
                      (run_model_train_raise _ _ _ _ Htrain)). }
    rewrite (bind_run_ok _ _ _ _ _ _ (run_model_train _ _ _ Htrain)).
    rewrite (bind_run_ok _ _ _ _ _ _
               (run_enumerate_ok data_loader (set_model_training true w) _
                  Hempty)).
    cbn [for_pass].
    rewrite !(bind_run_ok _ _ _ _ _ _ eq_refl).
    destruct (decide (dataset_len data_loader = 0)) as [Hn|Hn].
    + rewrite !(bind_run_raise _ _ _ _ _ _ (Hzero _ _ Hn)). cbn. auto.
    + rewrite !(bind_run_ok _ _ _ _ _ _ (Hnonzero _ _ Hn)).
      rewrite !(bind_run_raise _ _ _ _ _ _ eq_refl). cbn. auto.
  - destruct (module_train model false) as [[]|e] eqn:Heval.
    2:{ by rewrite (bind_run_raise _ _ _ _ _ _
                      (run_model_train_raise _ _ _ _ Heval)). }
    rewrite (bind_run_ok _ _ _ _ _ _ (run_model_train _ _ _ Heval)).
    rewrite (bind_run_ok _ _ _ _ _ _
               (run_enumerate_ok data_loader (set_model_training false w) _
                  Hempty)).
    cbn [for_pass].
    rewrite !(bind_run_ok _ _ _ _ _ _ eq_refl).
    destruct (decide (dataset_len data_loader = 0)) as [Hn|Hn].
    + rewrite !(bind_run_raise _ _ _ _ _ _ (Hzero _ _ Hn)). cbn. auto.
    + rewrite !(bind_run_ok _ _ _ _ _ _ (Hnonzero _ _ Hn)).
      rewrite !(bind_run_raise _ _ _ _ _ _ eq_refl). cbn. auto.
Qed.

End EmptyLoader.

(** The toy loaders without batches: over no review, and over three. *)
Lemma empty_loader_raises_witness :
  res (train_model (H:=Toy.torch) Toy.model Toy.loss_function Toy.optimizer
         (Toy.empty_loader 0) Toy.world0) = Raise ZeroDivisionError
  ∧ res (test_model (H:=Toy.torch) (OptState:=nat) Toy.model Toy.loss_function
           (Toy.empty_loader 3) Toy.world0) = Raise AttributeError_int_double.
Proof.
  pose proof (@empty_loader_raises Toy.torch Z nat nat Toy.model
                Toy.loss_function Toy.optimizer (Toy.empty_loader 0)
                Toy.world0 1 eq_refl) as (Htrain & _ & _ & _).
  pose proof (@empty_loader_raises Toy.torch Z nat nat Toy.model
                Toy.loss_function Toy.optimizer (Toy.empty_loader 3)
                Toy.world0 1 eq_refl) as (_ & _ & Htest & _).
  split; [exact Htrain | exact Htest].
Defined.

(** ** The two loops compute the same formulas (C6) *)
Section Symmetry.
Context `{Torch} {Params OptState Rng : Type}.

#[local] Abbreviation World := (World Params OptState Rng).
#[local] Abbreviation Store := (Store Params OptState).

(** When the model and the loss read neither flag, and the gradient steps
    return and leave the parameters alone, a training pass takes the sums
    of an evaluation pass, at the same parameters. *)
Lemma training_pass_neutral (model : Model Params) (loss_function : LossFn)
    (optimizer : Optimizer Params OptState) (bs : list Batch) :
  (∀ c c' p text lengths,
     forward model c p text lengths = forward model c' p text lengths) →
  (∀ g g' outputs label,
     loss_function g outputs label = loss_function g' outputs label) →
  (∀ g, is_ok (opt_zero_grad optimizer g) = true) →
  (∀ loss g, is_ok (backward loss g) = true) →
  (∀ s p g, ∃ s', opt_step optimizer s p g = Ok (s', p)) →
  ∀ (st : Store) (sums : Float * Acc),
    rbind (training_pass model loss_function optimizer st bs sums)
      (λ x, Ok x.2)
    = evaluation_sums model loss_function (st_params st) bs sums.
Proof.
  intros Hforward Hloss Hzero Hbackward Hstep.
  induction bs as [|b bs IH]; intros st sums; [reflexivity|].
  cbn [training_pass evaluation_sums].
  unfold training_batch, evaluation_batch, outputs_of, loss_of, mbind,
    Result_bind.
  destruct (is_ok_Ok _ (Hzero (st_grads st))) as [g0 ->]. cbn [rbind].
  rewrite (Hforward train_ctx eval_ctx).
  destruct (forward model eval_ctx _ _ _) as [o|]; [|reflexivity].
  cbn [rbind]. destruct (t_squeeze o) as [outputs|]; [|reflexivity].
  cbn [rbind]. rewrite (Hloss (grad train_ctx) (grad eval_ctx)).
  destruct (loss_function _ _ _) as [loss|]; [|reflexivity].
  cbn [rbind]. destruct (is_ok_Ok _ (Hbackward loss g0)) as [g1 ->].
  cbn [rbind].
  destruct (Hstep (st_opt st) (st_params st) g1) as [s' ->]. cbn [rbind].
  destruct (accumulate sums b outputs loss) as [sums'|]; [|reflexivity].
  cbn [rbind fst snd].
  apply (IH {| st_params := st_params st; st_grads := g1; st_opt := s' |}).
Qed.

(** C6 (as amended).  [train_model] and [test_model] compute by the same
    formulas: the outputs and the loss of a batch ([outputs_of],
    [loss_of]), the running loss (batch loss times batch size) and the
    running count of rounded sigmoid outputs equal to the labels
    ([accumulate]), and the totals, the sums divided by the size of the
    dataset ([totals_of]).  What [train_model] prints and what
    [test_model] returns and prints are these formulas folded over the
    batches of the pass ([training_result], [evaluation_result]), on every
    run, returning or raising.
    The two differ in that [test_model] resets no gradients and runs no
    backward pass or optimizer step (its store is left as it was), runs
    the forward pass and the loss in evaluation mode with grad mode off
    (training mode and grad mode on in [train_model]), tags its line
    [Test] and hands the totals back ([train_model] returns [None]).  So
    when the model and the loss read neither flag and the gradient steps
    return and leave the parameters alone, the two compute the same
    totals from the same state and batches. *)
Theorem loops_are_symmetric (model : Model Params) (loss_function : LossFn)
    (optimizer : Optimizer Params OptState) (data_loader : DataLoader Rng)
    (w : World) :
  let o_train := train_model model loss_function optimizer data_loader w in
  let o_test := test_model model loss_function data_loader w in
  let training :=
    training_result model loss_function optimizer data_loader
      (store_of w) (rng w) in
  let evaluation :=
    evaluation_result model loss_function data_loader (params w) (rng w) in
  res o_train
  = (x ← training;
     _ ← metrics_line "Train Loss: " "; Accuracy: " x.2;
     Ok PyNone)
  ∧ printed (trace o_train)
    = lines_of (x ← training; metrics_line "Train Loss: " "; Accuracy: " x.2)
  ∧ (∀ v, res o_train = Ok v →
          ∃ totals, training = Ok (store_of (world o_train), totals))
  ∧ res o_test
    = (totals ← evaluation;
       _ ← metrics_line "Test Loss: " "; Accuracy: " totals;
       Ok (PyTuple2 (PyFloat totals.1) (PyTensor totals.2)))
  ∧ printed (trace o_test)
    = lines_of (evaluation ≫= metrics_line "Test Loss: " "; Accuracy: ")
  ∧ store_of (world o_test) = store_of w
  ∧ ((∀ c c' p text lengths,
        forward model c p text lengths = forward model c' p text lengths) →
     (∀ g g' outputs label,
        loss_function g outputs label = loss_function g' outputs label) →
     module_train model true = module_train model false →
     (∀ g, is_ok (opt_zero_grad optimizer g) = true) →
     (∀ loss g, is_ok (backward loss g) = true) →
     (∀ s p g, ∃ s', opt_step optimizer s p g = Ok (s', p)) →
     (x ← training; Ok x.2) = evaluation).
Proof.
  intros o_train o_test training evaluation.
  pose proof (train_model_den model loss_function optimizer data_loader w)
    as Htrain.
  pose proof (test_model_den model loss_function data_loader w) as Htest.
  fold o_train training in Htrain. fold o_test evaluation in Htest.
  split; [|split; [|split; [|split; [|split; [|split]]]]].
  - rewrite res_den, Htrain. unfold mbind, Result_bind.
    destruct training as [[st totals]|]; [|reflexivity]. cbn [rbind snd].
    by destruct (metrics_line _ _ _).
  - apply train_model_printed.
  - intros v Hres. unfold den in Htrain. rewrite Hres in Htrain.
    destruct training as [[st totals]|]; [|done]. cbn [rbind fst snd] in Htrain.
    destruct (metrics_line _ _ _); [|done]. cbn [rbind] in Htrain.
    injection Htrain as _ <-. by exists totals.
  - rewrite res_den, Htest. unfold mbind, Result_bind.
    destruct evaluation as [totals|]; [|reflexivity]. cbn [rbind].
    by destruct (metrics_line _ _ _).
  - apply test_model_printed.
  - destruct (triple_test_model model loss_function data_loader
                (params w) (grads w) (opt_state w) (grad_enabled w) w)
      as [(Hp & Hg & Hs & _) _]; [by repeat split|].
    fold o_test in Hp, Hg, Hs. unfold store_of. by rewrite Hp, Hg, Hs.
  - intros Hforward Hloss Hmode Hzero Hbackward Hstep.
    subst training evaluation.
    unfold training_result, evaluation_result, mbind, Result_bind.
    rewrite Hmode. destruct (module_train model false); [|reflexivity].
    cbn [rbind]. destruct (dl_iter data_loader (rng w)) as [it|]; [|reflexivity].
    cbn [rbind].
    change (params w) with (st_params (store_of w)).
    rewrite <- (training_pass_neutral model loss_function optimizer
                  (pass_batches it) Hforward Hloss Hzero Hbackward Hstep
                  (store_of w) (float_zero, AccInt 0)).
    destruct (training_pass _ _ _ _ _ _) as [[st sums]|]; [|reflexivity].
    cbn [rbind fst snd]. destruct (pass_check it); [|reflexivity].
    cbn [rbind]. by destruct (totals_of _ _).
Qed.

End Symmetry.

(** The toy model reads no flag; under the optimizer that leaves the
    parameters alone, the two passes take the same totals. *)
Lemma loops_are_symmetric_witness :
  (x ← training_result Toy.model Toy.loss_function ToyMore.frozen_optimizer
         Toy.data_loader (store_of Toy.world0) (rng Toy.world0);
   Ok x.2)
  = evaluation_result Toy.model Toy.loss_function Toy.data_loader
      (params Toy.world0) (rng Toy.world0).
Proof.
  pose proof (@loops_are_symmetric Toy.torch Z nat nat Toy.model
                Toy.loss_function ToyMore.frozen_optimizer Toy.data_loader
                Toy.world0) as (_ & _ & _ & _ & _ & _ & Hsame).
  apply Hsame; try done.
  intros s p g. by exists (S s).
Defined.

(** C6 as the specification states it does not hold: the two passes
    differ in more than the gradient steps.  Here the model reads its mode
    and the optimizer leaves the parameters alone: from the same state,
    over the same batches, the training pass has updated no parameter, and
    still its totals are not those of the evaluation pass (the model runs
    in training mode in the one and in evaluation mode in the other); the
    line's tag and what is handed back differ as well. *)
Lemma loops_differ_beyond_gradient_steps :
  let o_train := train_model ToyMore.dropout_model Toy.loss_function
                   ToyMore.frozen_optimizer Toy.data_loader Toy.world0 in
  let o_test := test_model (OptState:=nat) ToyMore.dropout_model
                  Toy.loss_function Toy.data_loader Toy.world0 in
  params (world o_train) = params Toy.world0
  ∧ printed (trace o_train) = ["Train Loss: 0; Accuracy: 0"]
  ∧ printed (trace o_test) = ["Test Loss: 1; Accuracy: 0"]
  ∧ res o_train = Ok (@PyNone Toy.torch)
  ∧ res o_test
    = Ok (@PyTuple2 Toy.torch (@PyFloat Toy.torch 1%Z)
            (@PyTensor Toy.torch 0%Z))
  ∧ (x ← training_result ToyMore.dropout_model Toy.loss_function
           ToyMore.frozen_optimizer Toy.data_loader (store_of Toy.world0)
           (rng Toy.world0);
     Ok x.2)
    ≠ evaluation_result ToyMore.dropout_model Toy.loss_function
        Toy.data_loader (params Toy.world0) (rng Toy.world0).
Proof. vm_compute. repeat split. discriminate. Qed.

(** ** What the two loops hand back (C8) *)
Section Returns.
Context `{Torch} {Params OptState Rng : Type}.

#[local] Abbreviation World := (World Params OptState Rng).
#[local] Abbreviation M := (M Params OptState Rng).

(** A pass that returns has printed one line, made of the two totals, and
    returns what its kind makes of the totals. *)
Lemma metric_loop_returns (kind : LoopKind) (model : Model Params)
    (loss_function : LossFn) (data_loader : DataLoader Rng) (w : World)
    (v : PyVal) :
  triple (λ _, True) (lk_before kind) (λ _, True) no_print →
  (∀ loss, triple (λ _, True) (lk_after kind loss) (λ _, True) no_print) →
  res (metric_loop kind model loss_function data_loader w) = Ok v →
  ∃ total_loss total_acc sl sa,
    v = lk_result kind total_loss total_acc
    ∧ format_float total_loss = Ok sl
    ∧ format_tensor total_acc = Ok sa
    ∧ printed (trace (metric_loop kind model loss_function data_loader w))
      = [(lk_tag kind +:+ " Loss: ") +:+ sl +:+ "; Accuracy: " +:+ sa].
Proof.
  intros Hbefore Hafter. unfold metric_loop. intros Hres.
  apply bind_ok_inv in Hres as (? & _ & Hres & _ & ->).
  apply bind_ok_inv in Hres as (it & _ & Hres & _ & ->).
  apply bind_ok_inv in Hres as (sums & _ & Hres & _ & ->).
  apply bind_ok_inv in Hres as ([total_loss total_acc] & _ & Hres & _ & ->).
  apply bind_ok_inv in Hres as (s & Hs & Hres & _ & ->).
  apply bind_ok_inv in Hres as (? & _ & Hres & _ & ->).
  injection Hres as <-.
  unfold format2, call in Hs. cbn [res fst snd] in Hs.
  destruct (format_float total_loss) as [sl|] eqn:Hsl; [|discriminate].
  destruct (format_tensor total_acc) as [sa|] eqn:Hsa; [|discriminate].
  injection Hs as <-.
  exists total_loss, total_acc, sl, sa.
  split; [reflexivity|]. split; [exact Hsl|]. split; [exact Hsa|].
  rewrite !printed_app.
  rewrite (silent_printed (model_train _ _)) by (unfold model_train; silent).
  rewrite (silent_printed (enumerate _)) by silent.
  rewrite (silent_printed (for_pass _ _ _)).
  2:{ unfold batch_forward, batch_statistics. silent; [exact Hbefore | apply Hafter]. }
  rewrite (silent_printed (epoch_totals _ _)).
  2:{ unfold epoch_totals, float_truediv, acc_double. silent. }
  rewrite (silent_printed (format2 _ _ _ _)) by (unfold format2; silent).
  reflexivity.
Qed.

(** C8.  A call of [train_model] that returns, returns [None], whatever
    the metrics it printed; a call of [test_model] that returns, returns
    the pair of the total loss and the total accuracy, the two numbers of
    the line it printed. *)
Theorem train_returns_none_test_returns_metrics (model : Model Params)
    (loss_function : LossFn) (optimizer : Optimizer Params OptState)
    (data_loader : DataLoader Rng) (w : World) :
  (∀ v, res (train_model model loss_function optimizer data_loader w) = Ok v →
        v = PyNone
        ∧ ∃ total_loss total_acc sl sa,
            format_float total_loss = Ok sl
            ∧ format_tensor total_acc = Ok sa
            ∧ printed (trace (train_model model loss_function optimizer
                                data_loader w))
              = ["Train Loss: " +:+ sl +:+ "; Accuracy: " +:+ sa])
  ∧ (∀ v, res (test_model model loss_function data_loader w) = Ok v →
          ∃ total_loss total_acc sl sa,
            v = PyTuple2 (PyFloat total_loss) (PyTensor total_acc)
            ∧ format_float total_loss = Ok sl
            ∧ format_tensor total_acc = Ok sa
            ∧ printed (trace (test_model model loss_function data_loader w))
              = ["Test Loss: " +:+ sl +:+ "; Accuracy: " +:+ sa]).
Proof.
  split.
  - intros v. rewrite train_model_metric_loop. intros Hres.
    apply metric_loop_returns in Hres
      as (total_loss & total_acc & sl & sa & -> & Hsl & Hsa & Hprinted).
    + split; [reflexivity|]. exists total_loss, total_acc, sl, sa. auto.
    + unfold train_kind, zero_grad. cbn [lk_before]. silent.
    + intros loss. unfold train_kind, loss_backward, step. cbn [lk_after]. silent.
  - intros v. rewrite test_model_metric_loop. intros Hres.
    apply metric_loop_returns in Hres
      as (total_loss & total_acc & sl & sa & -> & Hsl & Hsa & Hprinted).
    + exists total_loss, total_acc, sl, sa. auto.
    + cbn [test_kind lk_before]. silent.
    + intros loss. cbn [test_kind lk_after]. silent.
Qed.

End Returns.

(** The toy run: the training pass returns [None] and the evaluation pass
    the pair (1, 0), the numbers of the line it printed. *)
Lemma train_returns_none_test_returns_metrics_witness :
  (@PyNone Toy.torch = PyNone
   ∧ ∃ (total_loss : @Float Toy.torch) (total_acc : @Tensor Toy.torch) sl sa,
       format_float total_loss = Ok sl
       ∧ format_tensor total_acc = Ok sa
       ∧ printed (trace (train_model Toy.model Toy.loss_function Toy.optimizer
                           Toy.data_loader Toy.world0))
         = ["Train Loss: " +:+ sl +:+ "; Accuracy: " +:+ sa])
  ∧ (∃ (total_loss : @Float Toy.torch) (total_acc : @Tensor Toy.torch) sl sa,
       @PyTuple2 Toy.torch (@PyFloat Toy.torch 1%Z) (@PyTensor Toy.torch 0%Z)
       = PyTuple2 (PyFloat total_loss) (PyTensor total_acc)
       ∧ format_float total_loss = Ok sl
       ∧ format_tensor total_acc = Ok sa
       ∧ printed (trace (test_model (OptState:=nat) Toy.model
                           Toy.loss_function Toy.data_loader Toy.world0))
         = ["Test Loss: " +:+ sl +:+ "; Accuracy: " +:+ sa]).
Proof.
  split.
  - exact (proj1 (@train_returns_none_test_returns_metrics Toy.torch Z nat nat
                    Toy.model Toy.loss_function Toy.optimizer Toy.data_loader
                    Toy.world0) PyNone eq_refl).
  - exact (proj2 (@train_returns_none_test_returns_metrics Toy.torch Z nat nat
                    Toy.model Toy.loss_function Toy.optimizer Toy.data_loader
                    Toy.world0)
             (@PyTuple2 Toy.torch (@PyFloat Toy.torch 1%Z) (@PyTensor Toy.torch 0%Z)) eq_refl).
Defined.

(** ** Runs on the toy library *)

(** A training pass over the two toy batches makes the scheduled calls and
    moves the parameter; an evaluation pass leaves it where it was. *)
Example toy_train_ops :
  ops (trace (train_model Toy.model Toy.loss_function Toy.optimizer
                Toy.data_loader Toy.world0))
  = train_schedule 2.
Proof. vm_compute. reflexivity. Qed.

Example toy_train_moves_parameter :
  params (world (train_model Toy.model Toy.loss_function Toy.optimizer
                   Toy.data_loader Toy.world0)) = (-9)%Z.
Proof. vm_compute. reflexivity. Qed.

Example toy_test_keeps_parameter :
  params (world (test_model (OptState:=nat) Toy.model Toy.loss_function
                   Toy.data_loader Toy.world0)) = 2%Z.
Proof. vm_compute. reflexivity. Qed.

(** The loss function raises on the second batch: the pass raises the same
    exception, after the calls of the first batch and the forward
    computation of the second, and prints nothing; the iterator has been
    asked for two batches, no more. *)
Example toy_train_raises :
  let o := train_model Toy.model Toy.picky_loss Toy.optimizer
             Toy.data_loader Toy.world0 in
  exn_of (res o) = Some Toy.ValueError
  ∧ raised (trace o) = [Toy.ValueError]
  ∧ ops (trace o)
    = [OpModelTrain true; OpIter] ++ train_batch_schedule
      ++ [OpNext; OpZeroGrad; OpForward {| training := true; grad := true |};
          OpSqueeze; OpLoss true]
  ∧ printed (trace o) = []
  ∧ grad_enabled (world o) = true
  ∧ rng (world o) = 2.
Proof. vm_compute. repeat split. Qed.

(** The second [next()] of the loader raises: the pass raises the same
    exception after the calls of the first batch, whose optimizer step
    stays made. *)
Example toy_loader_raises :
  let o := train_model Toy.model Toy.loss_function Toy.optimizer
             Toy.broken_loader Toy.world0 in
  res o = Raise Toy.OSError
  ∧ raised (trace o) = [Toy.OSError]
  ∧ ops (trace o) = [OpModelTrain true; OpIter] ++ train_batch_schedule ++ [OpNext]
  ∧ params (world o) = (-3)%Z
  ∧ rng (world o) = 2.
Proof. vm_compute. repeat split. Qed.

(** A model that cannot be put in evaluation mode: [test_model] raises at
    once, and the model stays in the mode it was in. *)
Example toy_eval_raises :
  let o := test_model (OptState:=nat) ToyMore.stuck_model Toy.loss_function
             Toy.data_loader ToyMore.world1 in
  res o = Raise Toy.ValueError
  ∧ ops (trace o) = [OpModelTrain false]
  ∧ model_training (world o) = true.
Proof. vm_compute. repeat split. Qed.

(** A pass wrapped in a handler would not hand the exception on: the call
    has raised, and the wrapped pass returns. *)
Example toy_guarded_pass_catches :
  let guarded :=
    try_except (train_model Toy.model Toy.picky_loss Toy.optimizer
                  Toy.data_loader)
               (λ _, ret PyNone) in
  res (guarded Toy.world0) = Ok PyNone
  ∧ raised (trace (guarded Toy.world0)) = [Toy.ValueError]
  ∧ ¬ hands_on (guarded Toy.world0).
Proof.
  assert (res (try_except
                 (train_model Toy.model Toy.picky_loss Toy.optimizer
                    Toy.data_loader) (λ _, ret PyNone) Toy.world0)
          = Ok (@PyNone Toy.torch)) as Hres by (vm_compute; reflexivity).
  assert (raised (trace (try_except
                 (train_model Toy.model Toy.picky_loss Toy.optimizer
                    Toy.data_loader) (λ _, ret PyNone) Toy.world0))
          = [Toy.ValueError]) as Hraised by (vm_compute; reflexivity).
  cbv zeta. split; [exact Hres|]. split; [exact Hraised|].
  unfold hands_on. rewrite Hres, Hraised. discriminate.
Qed.

(** The lines the driver prints on the toy library. *)
Example toy_main_prints :
  map (String.substring 0 5)
    (printed (trace (main (Optim0:=Toy.optim) Toy.model Toy.data_loader
                       Toy.test_loader Toy.world0)))
  = ["Epoch"; "Train"; "Test "; "Epoch"; "Train"; "Test ";
     "Epoch"; "Train"; "Test "; "Epoch"; "Train"; "Test ";
     "Epoch"; "Train"; "Test "].
Proof. vm_compute. reflexivity. Qed.

Example toy_main_first_lines :
  take 3 (printed (trace (main (Optim0:=Toy.optim) Toy.model Toy.data_loader
                            Toy.test_loader Toy.world0)))
  = ["Epoch 1/5"; "Train Loss: 5; Accuracy: 0"; "Test Loss: 18; Accuracy: 0"].
Proof. vm_compute. reflexivity. Qed.

(** * Further properties *)

(** ** What the loops leave behind *)
Section LoopFrames.
Context `{Torch} {Params OptState Rng : Type}.

#[local] Abbreviation World := (World Params OptState Rng).
#[local] Abbreviation M := (M Params OptState Rng).

(** The steps of a loop body that keep a property of the state, given that
    the updates of the gradients and the optimizer step keep it. *)
Ltac keeps :=
  repeat first
    [ apply triple_ret
    | apply triple_call; done
    | apply triple_model_call; done
    | apply triple_loss_call; done
    | apply triple_acc_iadd; done
    | apply triple_statistics; done
    | apply triple_totals; done
    | apply triple_bind; [|intros ?] ].

Lemma triple_zero_grad (Q : World → Prop)
    (optimizer : Optimizer Params OptState) :
  (∀ w g, Q w → Q (set_grads g w)) →
  triple Q (zero_grad optimizer) Q (λ _, True).
Proof.
  intros HQ. apply triple_call_upd; [done|done|]. intros w w' Hw.
  destruct (opt_zero_grad optimizer (grads w)); simpl; [|done].
  intros [= <-]. by apply HQ.
Qed.

Lemma triple_loss_backward (Q : World → Prop) (loss : Tensor) :
  (∀ w g, Q w → Q (set_grads g w)) →
  triple Q (loss_backward loss) Q (λ _, True).
Proof.
  intros HQ. apply triple_call_upd; [done|done|]. intros w w' Hw.
  destruct (backward loss (grads w)); simpl; [|done].
  intros [= <-]. by apply HQ.
Qed.

Lemma triple_train_model_grad (b : bool) (model : Model Params)
    (loss_function : LossFn) (optimizer : Optimizer Params OptState)
    (data_loader : DataLoader Rng) :
  triple (λ w : World, grad_enabled w = b)
    (train_model model loss_function optimizer data_loader)
    (λ w, grad_enabled w = b) (λ _, True).
Proof.
  unfold train_model.
  apply triple_bind; [by apply triple_model_train|]. intros _.
  apply triple_bind; [by apply triple_enumerate|]. intros it.
  apply triple_bind.
  - apply triple_for_pass; [done|done|].
    intros [current_loss current_acc] batch.
    destruct (batch_text batch) as [text text_lengths].
    apply triple_bind; [by apply triple_zero_grad|]. intros _.
    apply triple_bind.
    + apply (triple_with_grad_enabled _ (λ _, True)); [|done|done].
      keeps; [by apply triple_loss_backward|].
      by apply triple_call_upd.
    + intros [outputs loss]. keeps.
  - intros [current_loss current_acc]. keeps.
Qed.

Lemma triple_test_model_grad (b : bool) (model : Model Params)
    (loss_function : LossFn) (data_loader : DataLoader Rng) :
  triple (λ w : World, grad_enabled w = b)
    (test_model model loss_function data_loader)
    (λ w, grad_enabled w = b) (λ _, True).
Proof.
  intros w Hb.
  destruct (triple_test_model model loss_function data_loader
              (params w) (grads w) (opt_state w) b w)
    as [(_ & _ & _ & Hb') _]; [by repeat split|].
  split; [exact Hb'|]. by apply Forall_forall.
Qed.

(** The loops leave the model in the mode they put it in. *)
Lemma triple_train_model_mode (model : Model Params)
    (loss_function : LossFn) (optimizer : Optimizer Params OptState)
    (data_loader : DataLoader Rng) (w : World) :
  model_training
    (world (train_model model loss_function optimizer data_loader w))
  = if is_ok (module_train model true) then true else model_training w.
Proof.
  unfold train_model.
  destruct (module_train model true) as [[]|e] eqn:Hmode; cbn [is_ok].
  2:{ by rewrite (bind_run_raise _ _ _ _ _ _
                    (run_model_train_raise _ _ _ _ Hmode)). }
  rewrite (bind_run_ok _ _ _ _ _ _ (run_model_train _ _ _ Hmode)).
  cbn [world].
  match goal with
  | |- model_training (world (?m ?w')) = true =>
      cut (triple (λ w : World, model_training w = true) m
             (λ w, model_training w = true) (λ _, True))
  end.
  { intros Hrun. by apply Hrun. }
  apply triple_bind; [by apply triple_enumerate|]. intros it.
  apply triple_bind.
  - apply triple_for_pass; [done|done|].
    intros [current_loss current_acc] batch.
    destruct (batch_text batch) as [text text_lengths].
    apply triple_bind; [by apply triple_zero_grad|]. intros _.
    apply triple_bind.
    + apply (triple_with_grad_enabled _ (λ w, model_training w = true));
        [|done|done].
      keeps; [by apply triple_loss_backward|].
      apply triple_call_upd; [done|done|]. intros w1 w2 Hw.
      destruct (opt_step _ _ _ _); simpl; by intros [= <-].
    + intros [outputs loss]. keeps.
  - intros [current_loss current_acc]. keeps.
Qed.

Lemma triple_test_model_mode (model : Model Params)
    (loss_function : LossFn) (data_loader : DataLoader Rng) (w : World) :
  model_training (world (test_model model loss_function data_loader w))
  = if is_ok (module_train model false) then false else model_training w.
Proof.
  unfold test_model.
  destruct (module_train model false) as [[]|e] eqn:Hmode; cbn [is_ok].
  2:{ by rewrite (bind_run_raise _ _ _ _ _ _
                    (run_model_train_raise _ _ _ _ Hmode)). }
  rewrite (bind_run_ok _ _ _ _ _ _ (run_model_train _ _ _ Hmode)).
  cbn [world].
  match goal with
  | |- model_training (world (?m ?w')) = false =>
      cut (triple (λ w : World, model_training w = false) m
             (λ w, model_training w = false) (λ _, True))
  end.
  { intros Hrun. by apply Hrun. }
  apply triple_bind; [by apply triple_enumerate|]. intros it.
  apply triple_bind.
  - apply triple_for_pass; [done|done|].
    intros [current_loss current_acc] batch.
    destruct (batch_text batch) as [text text_lengths].
    apply triple_bind.
    + apply (triple_with_grad_enabled _ (λ w, model_training w = false));
        [|done|done].
      keeps.
    + intros [outputs loss]. keeps.
  - intros [current_loss current_acc].
    apply (triple_totals _ _ _ _ _ _ _
             (λ tl ta, PyTuple2 (PyFloat tl) (PyTensor ta))); done.
Qed.

(** A loop whose body leaves the iterator alone leaves it in one of the
    states of the pass: the one after the last [next()] it made. *)
Lemma for_pass_rng {B S} (body : S → B → M S) :
  (∀ r s x, triple (λ w : World, rng w = r) (body s x) (λ w, rng w = r)
              (λ _, True)) →
  ∀ (it : Pass B Rng) s w,
    rng (world (for_pass it s body w)) ∈ pass_states it.
Proof.
  intros Hb. induction it as [r|e r|b r rest IH]; intros s w;
    cbn [for_pass pass_states].
  - apply list_elem_of_here.
  - apply list_elem_of_here.
  - rewrite (bind_run_ok (pull r (Ok tt)) _ w (set_rng r w) tt
               [Call OpNext None] eq_refl).
    cbn [world].
    destruct (Hb r s b (set_rng r w) eq_refl) as [Hr _].
    unfold bind. destruct (res (body s b (set_rng r w))); cbn [world].
    + apply list_elem_of_further, IH.
    + rewrite Hr. apply list_elem_of_here.
Qed.

Lemma train_model_rng (model : Model Params)
    (loss_function : LossFn) (optimizer : Optimizer Params OptState)
    (data_loader : DataLoader Rng) (w : World) :
  rng (world (train_model model loss_function optimizer data_loader w))
  ∈ rng w :: pass_states (pass_of data_loader (rng w)).
Proof.
  unfold train_model.
  destruct (module_train model true) as [[]|e] eqn:Hmode.
  2:{ rewrite (bind_run_raise _ _ _ _ _ _
                 (run_model_train_raise _ _ _ _ Hmode)).
      apply list_elem_of_here. }
  rewrite (bind_run_ok _ _ _ _ _ _ (run_model_train _ _ _ Hmode)).
  cbn [world]. unfold pass_of.
  destruct (dl_iter data_loader (rng w)) as [it|e] eqn:Hit.
  2:{ rewrite (bind_run_raise _ _ _ _ _ _
                 (run_enumerate_raise data_loader
                    (set_model_training true w) e Hit)).
      apply list_elem_of_here. }
  rewrite (bind_run_ok _ _ _ _ _ _
             (run_enumerate_ok data_loader (set_model_training true w) it Hit)).
  cbn [world]. apply list_elem_of_further.
  match goal with
  | |- rng (world (bind (for_pass it ?s ?body) ?k ?w')) ∈ _ =>
      pose proof (for_pass_rng body) as Hloop;
      assert (∀ sums r,
                triple (λ w : World, rng w = r) (k sums) (λ w, rng w = r)
                  (λ _, True)) as Htail
  end.
  { intros [current_loss current_acc] r. keeps. }
  cbv zeta in *. unfold bind at 1.
  match goal with
  | |- context [res (for_pass it ?s ?body ?w')] =>
      specialize (Hloop ltac:(
        intros r [current_loss current_acc] batch;
        destruct (batch_text batch) as [text text_lengths];
        apply triple_bind; [by apply triple_zero_grad|]; intros _;
        apply triple_bind;
          [ apply (triple_with_grad_enabled _ (λ w, rng w = r)); [|done|done];
            keeps; [by apply triple_loss_backward|];
            apply triple_call_upd; [done|done|]; intros w1 w2 Hw;
            destruct (opt_step _ _ _ _); simpl; by intros [= <-]
          | intros [outputs loss]; keeps ]) it s w');
      destruct (res (for_pass it s body w')) as [sums|e]; cbn [world];
        [|exact Hloop]
  end.
  match goal with
  | |- rng (world (_ ?w'')) ∈ _ =>
      destruct (Htail sums (rng w'') w'' eq_refl) as [-> _]
  end.
  exact Hloop.
Qed.

Lemma test_model_rng (model : Model Params)
    (loss_function : LossFn) (data_loader : DataLoader Rng) (w : World) :
  rng (world (test_model model loss_function data_loader w))
  ∈ rng w :: pass_states (pass_of data_loader (rng w)).
Proof.
  unfold test_model.
  destruct (module_train model false) as [[]|e] eqn:Hmode.
  2:{ rewrite (bind_run_raise _ _ _ _ _ _
                 (run_model_train_raise _ _ _ _ Hmode)).
      apply list_elem_of_here. }
  rewrite (bind_run_ok _ _ _ _ _ _ (run_model_train _ _ _ Hmode)).
  cbn [world]. unfold pass_of.
  destruct (dl_iter data_loader (rng w)) as [it|e] eqn:Hit.
  2:{ rewrite (bind_run_raise _ _ _ _ _ _
                 (run_enumerate_raise data_loader
                    (set_model_training false w) e Hit)).
      apply list_elem_of_here. }
  rewrite (bind_run_ok _ _ _ _ _ _
             (run_enumerate_ok data_loader (set_model_training false w) it Hit)).
  cbn [world]. apply list_elem_of_further.
  match goal with
  | |- rng (world (bind (for_pass it ?s ?body) ?k ?w')) ∈ _ =>
      pose proof (for_pass_rng body) as Hloop;
      assert (∀ sums r,
                triple (λ w : World, rng w = r) (k sums) (λ w, rng w = r)
                  (λ _, True)) as Htail
  end.
  { intros [current_loss current_acc] r.
    apply (triple_totals _ _ _ _ _ _ _
             (λ tl ta, PyTuple2 (PyFloat tl) (PyTensor ta))); done. }
  cbv zeta in *. unfold bind at 1.
  match goal with
  | |- context [res (for_pass it ?s ?body ?w')] =>
      specialize (Hloop ltac:(
        intros r [current_loss current_acc] batch;
        destruct (batch_text batch) as [text text_lengths];
        apply triple_bind;
          [ apply (triple_with_grad_enabled _ (λ w, rng w = r)); [|done|done];
            keeps
          | intros [outputs loss]; keeps ]) it s w');
      destruct (res (for_pass it s body w')) as [sums|e]; cbn [world];
        [|exact Hloop]
  end.
  match goal with
  | |- rng (world (_ ?w'')) ∈ _ =>
      destruct (Htail sums (rng w'') w'' eq_refl) as [-> _]
  end.
  exact Hloop.
Qed.

(** X1.  Whether it returns or raises, a pass leaves the grad mode as it
    found it (the [with] block restores it also when a batch raises), and
    the model in the mode it put it in: training mode after [train_model]
    and evaluation mode after [test_model], unless the switch itself
    raised.  The iterator is left where the pass stopped drawing from it:
    in its state before the pass or after one of the [next()] of the
    pass, and after the last one when the pass returns. *)
Theorem loops_restore_grad_mode (model : Model Params)
    (loss_function : LossFn) (optimizer : Optimizer Params OptState)
    (data_loader : DataLoader Rng) (w : World) :
  let o_train := train_model model loss_function optimizer data_loader w in
  let o_test := test_model model loss_function data_loader w in
  let it := pass_of data_loader (rng w) in
  (grad_enabled (world o_train) = grad_enabled w
   ∧ model_training (world o_train)
     = (if is_ok (module_train model true) then true else model_training w)
   ∧ rng (world o_train) ∈ rng w :: pass_states it
   ∧ (is_ok (res o_train) = true →
      pass_exn it = None ∧ rng (world o_train) = pass_end it))
  ∧ (grad_enabled (world o_test) = grad_enabled w
     ∧ model_training (world o_test)
       = (if is_ok (module_train model false) then false
          else model_training w)
     ∧ rng (world o_test) ∈ rng w :: pass_states it
     ∧ (is_ok (res o_test) = true →
        pass_exn it = None ∧ rng (world o_test) = pass_end it)).
Proof.
  intros o_train o_test it. split.
  - split; [by apply (triple_train_model_grad (grad_enabled w))|].
    split; [apply triple_train_model_mode|].
    split; [apply train_model_rng|].
    intros Hok.
    pose proof (follows_train_model (model_training w) (grad_enabled w)
                  (rng w) model loss_function optimizer data_loader w) as Hrun.
    fold o_train it in Hrun. destruct (res o_train); [|discriminate].
    destruct Hrun as [_ (_ & Hend & _ & _ & Hr)]; [by repeat split|].
    by split.
  - split; [by apply (triple_test_model_grad (grad_enabled w))|].
    split; [apply triple_test_model_mode|].
    split; [apply test_model_rng|].
    intros Hok.
    pose proof (follows_test_model (model_training w) (grad_enabled w)
                  (rng w) model loss_function data_loader w) as Hrun.
    fold o_test it in Hrun. destruct (res o_test); [|discriminate].
    destruct Hrun as [_ (_ & Hend & _ & _ & Hr)]; [by repeat split|].
    by split.
Qed.

(** X2.  [train_model] writes the parameters through [optimizer.step()]
    only: with an optimizer whose step hands the parameters back as they
    were, a training pass, returning or raising, ends with the parameters
    it started with. *)
Theorem train_model_writes_parameters_by_step_only (model : Model Params)
    (loss_function : LossFn) (optimizer : Optimizer Params OptState)
    (data_loader : DataLoader Rng) (w : World) :
  (∀ s p g s' p', opt_step optimizer s p g = Ok (s', p') → p' = p) →
  params (world (train_model model loss_function optimizer data_loader w))
  = params w.
Proof.
  intros Hstep.
  cut (triple (λ w' : World, params w' = params w)
         (train_model model loss_function optimizer data_loader)
         (λ w', params w' = params w) (λ _, True)).
  { intros Hrun. by apply Hrun. }
  unfold train_model.
  apply triple_bind; [by apply triple_model_train|].
  intros _. apply triple_bind; [by apply triple_enumerate|].
  intros it. apply triple_bind.
  - apply triple_for_pass; [done|done|].
    intros [current_loss current_acc] batch.
    destruct (batch_text batch) as [text text_lengths].
    apply triple_bind; [by apply triple_zero_grad|].
    intros _. apply triple_bind.
    + apply (triple_with_grad_enabled _ (λ w', params w' = params w));
        [|done|done].
      keeps; [by apply triple_loss_backward|].
      apply triple_call_upd; [done|done|]. intros w1 w2 Hw.
      destruct (opt_step _ _ _ _) as [[s' p']|] eqn:Hs; simpl; [|done].
      intros [= <-]. cbn. rewrite <- Hw. by eapply Hstep.
    + intros [outputs loss]. keeps.
  - intros [current_loss current_acc]. keeps.
Qed.

End LoopFrames.

(** The toy passes over two batches return, with the iterator after its
    third [next()]. *)
Lemma loops_restore_grad_mode_witness :
  rng (world (train_model Toy.model Toy.loss_function Toy.optimizer
                Toy.data_loader Toy.world0)) = 3
  ∧ rng (world (test_model (OptState:=nat) Toy.model Toy.loss_function
                  Toy.data_loader Toy.world0)) = 3.
Proof.
  pose proof (@loops_restore_grad_mode Toy.torch Z nat nat Toy.model
                Toy.loss_function Toy.optimizer Toy.data_loader Toy.world0)
    as [(_ & _ & _ & Htrain) (_ & _ & _ & Htest)].
  split.
  - apply Htrain. vm_compute. reflexivity.
  - apply Htest. vm_compute. reflexivity.
Defined.

(** The toy model under the frozen optimizer. *)
Lemma train_model_writes_parameters_by_step_only_witness :
  params (world (train_model Toy.model Toy.loss_function
                   ToyMore.frozen_optimizer Toy.data_loader Toy.world0))
  = params Toy.world0.
Proof.
  apply (@train_model_writes_parameters_by_step_only Toy.torch Z nat nat
           Toy.model Toy.loss_function ToyMore.frozen_optimizer
           Toy.data_loader Toy.world0).
  intros s p g s' p' [= _ <-]. reflexivity.
Defined.

(** ** What an evaluation pass depends on *)
Section EvalInputs.
Context `{Torch} {Params OptState Rng : Type}.

#[local] Abbreviation World := (World Params OptState Rng).
#[local] Abbreviation M := (M Params OptState Rng).

Lemma respects_ret {A} (R : World → World → Prop) (a : A) :
  respects R R (ret a).
Proof. intros w1 w2 HR. by repeat split. Qed.

Lemma respects_call {A} (R : World → World → Prop) (op : Op) (r : Result A) :
  respects R R (call op r).
Proof. intros w1 w2 HR. by repeat split. Qed.

Lemma respects_print (R : World → World → Prop) (s : string) :
  respects R R (print s).
Proof. intros w1 w2 HR. by repeat split. Qed.

Lemma respects_bind {A B} (R R' : World → World → Prop) (m : M A)
    (f : A → M B) :
  respects R R' m → (∀ a, respects R' R' (f a)) → respects R R' (bind m f).
Proof.
  intros Hm Hf w1 w2 HR. destruct (Hm w1 w2 HR) as (Hres & Htrace & HR').
  unfold bind. rewrite <- Hres, Htrace.
  destruct (res (m w1)) as [a|e]; simpl; [|by repeat split].
  destruct (Hf a _ _ HR') as (Hres' & Htrace' & HR'').
  rewrite Hres', Htrace'. by repeat split.
Qed.

(** Two passes that yield the same batches and end the same way are the
    same to the loop, whatever the random states of the two iterators. *)
Lemma respects_for_pass {B S} (R : World → World → Prop)
    (body : S → B → M S) :
  (∀ w1 w2 r1 r2, R w1 w2 → R (set_rng r1 w1) (set_rng r2 w2)) →
  (∀ s x, respects R R (body s x)) →
  ∀ it1 it2 : Pass B Rng,
    pass_batches it1 = pass_batches it2 → pass_exn it1 = pass_exn it2 →
    ∀ s w1 w2, R w1 w2 →
      res (for_pass it1 s body w1) = res (for_pass it2 s body w2)
      ∧ trace (for_pass it1 s body w1) = trace (for_pass it2 s body w2)
      ∧ R (world (for_pass it1 s body w1)) (world (for_pass it2 s body w2)).
Proof.
  intros Hrng Hb.
  induction it1 as [r1|e1 r1|b1 r1 rest1 IH]; intros [r2|e2 r2|b2 r2 rest2];
    cbn [pass_batches pass_exn]; intros Hbatches Hexn s w1 w2 HR;
    try discriminate; try (destruct rest2; discriminate).
  - cbn. by repeat split; [apply Hrng].
  - injection Hexn as ->. cbn. by repeat split; [apply Hrng].
  - injection Hbatches as -> Hrest. cbn [for_pass].
    rewrite (bind_run_ok (pull r1 (Ok tt)) _ w1 (set_rng r1 w1) tt
               [Call OpNext None] eq_refl).
    rewrite (bind_run_ok (pull r2 (Ok tt)) _ w2 (set_rng r2 w2) tt
               [Call OpNext None] eq_refl).
    cbn [res world trace].
    destruct (Hb s b2 (set_rng r1 w1) (set_rng r2 w2))
      as (Hres & Htrace & HR'); [by apply Hrng|].
    unfold bind. rewrite <- Hres, Htrace.
    destruct (res (body s b2 (set_rng r1 w1))) as [s'|e]; cbn [res world trace];
      [|by repeat split].
    destruct (IH rest2 Hrest Hexn s' _ _ HR') as (Hres' & Htrace' & HR'').
    rewrite Hres', Htrace'. by repeat split.
Qed.

(** The forward computation reads the parameters and the two flags. *)
Lemma respects_model_call (model : Model Params) (text : Tensor)
    (lengths : list Z) :
  respects same_model_and_grad same_model_and_grad
    (model_call (OptState:=OptState) (Rng:=Rng) model text lengths).
Proof.
  intros w1 w2 HR. pose proof HR as [[Hp Ht] Hg].
  unfold model_call, call, ctx_of. rewrite Hp, Ht, Hg. by repeat split.
Qed.

Lemma respects_loss_call (loss_function : LossFn) (outputs label : Tensor) :
  respects same_model_and_grad same_model_and_grad
    (loss_call (Params:=Params) (OptState:=OptState) (Rng:=Rng)
       loss_function outputs label).
Proof.
  intros w1 w2 HR. pose proof HR as [[Hp Ht] Hg].
  unfold loss_call, call. rewrite Hg. by repeat split.
Qed.

(** Inside the [with] block the grad mode is the block's, whatever it was
    outside. *)
Lemma respects_with_grad_enabled {A} (mode : bool) (m : M A) :
  respects same_model_and_grad same_model_and_grad m →
  respects same_model same_model (with_grad_enabled mode m).
Proof.
  intros Hm w1 w2 [Hp Ht]. unfold with_grad_enabled. cbn [res world trace].
  destruct (Hm (set_grad_enabled mode w1) (set_grad_enabled mode w2))
    as (Hres & Htrace & [[Hp' Ht'] _]); [by repeat split|].
  by repeat split.
Qed.

Ltac respect R :=
  repeat first
    [ apply (respects_ret R)
    | apply (respects_call R)
    | apply (respects_print R)
    | apply respects_model_call
    | apply respects_loss_call
    | apply respects_bind; [|intros ?]
    | match goal with
      | |- respects _ _ (match ?a with AccInt _ => _ | AccTensor _ => _ end) =>
          destruct a
      end ].

(** Two runs that agree so far agree after a continuation that respects
    the relation between their states. *)
Lemma bind_agree {A B} (R : World → World → Prop) (m1 m2 : M A)
    (k : A → M B) (w1 w2 : World) :
  res (m1 w1) = res (m2 w2) →
  trace (m1 w1) = trace (m2 w2) →
  R (world (m1 w1)) (world (m2 w2)) →
  (∀ a, respects R R (k a)) →
  res (bind m1 k w1) = res (bind m2 k w2)
  ∧ trace (bind m1 k w1) = trace (bind m2 k w2).
Proof.
  intros Hres Htrace HR Hk. unfold bind. rewrite <- Hres, Htrace.
  destruct (res (m1 w1)) as [a|e]; cbn [res world trace]; [|done].
  destruct (Hk a _ _ HR) as (Hres' & Htrace' & _).
  by rewrite Hres', Htrace'.
Qed.

(** The body of the loop of [test_model] and what follows the loop read
    the parameters and the model's mode only. *)
Lemma test_model_same_inputs (model : Model Params) (loss_function : LossFn)
    (data_loader : DataLoader Rng) (w1 w2 : World) :
  params w1 = params w2 →
  drawn data_loader (rng w1) = drawn data_loader (rng w2) →
  res (test_model model loss_function data_loader w1)
  = res (test_model model loss_function data_loader w2)
  ∧ trace (test_model model loss_function data_loader w1)
    = trace (test_model model loss_function data_loader w2).
Proof.
  intros Hp Hdrawn. unfold test_model.
  destruct (module_train model false) as [[]|e] eqn:Hmode.
  2:{ by rewrite !(bind_run_raise _ _ _ _ _ _
                     (run_model_train_raise _ _ _ _ Hmode)). }
  rewrite !(bind_run_ok _ _ _ _ _ _ (run_model_train _ _ _ Hmode)).
  cbn [res trace]. unfold drawn in Hdrawn.
  destruct (dl_iter data_loader (rng w1)) as [it1|e1] eqn:Hit1;
    destruct (dl_iter data_loader (rng w2)) as [it2|e2] eqn:Hit2;
    try discriminate.
  2:{ injection Hdrawn as ->.
      rewrite (bind_run_raise _ _ _ _ _ _
                 (run_enumerate_raise data_loader
                    (set_model_training false w1) e2 Hit1)).
      by rewrite (bind_run_raise _ _ _ _ _ _
                    (run_enumerate_raise data_loader
                       (set_model_training false w2) e2 Hit2)). }
  injection Hdrawn as Hbatches Hexn.
  rewrite (bind_run_ok _ _ _ _ _ _
             (run_enumerate_ok data_loader (set_model_training false w1)
                it1 Hit1)).
  rewrite (bind_run_ok _ _ _ _ _ _
             (run_enumerate_ok data_loader (set_model_training false w2)
                it2 Hit2)).
  cbn [res world trace].
  match goal with
  | |- res (bind ?m1 ?k ?w1') = res (bind ?m2 _ ?w2') ∧ _ =>
      destruct (bind_agree same_model m1 m2 k w1' w2') as [Hres Htrace];
        [| | | |split; [exact Hres|];
                exact (f_equal (λ t, [Call (OpModelTrain false) None]
                                     ++ [Call OpIter None] ++ t) Htrace)]
  end.
  - apply (respects_for_pass same_model); [by intros ?? ?? [??]| |done|done|done].
    intros [current_loss current_acc] batch.
    destruct (batch_text batch) as [text text_lengths].
    apply respects_bind.
    + apply respects_with_grad_enabled.
      respect (@same_model_and_grad H Params OptState Rng).
    + intros [outputs loss]. unfold acc_iadd.
      respect (@same_model H Params OptState Rng).
  - apply (respects_for_pass same_model); [by intros ?? ?? [??]| |done|done|done].
    intros [current_loss current_acc] batch.
    destruct (batch_text batch) as [text text_lengths].
    apply respects_bind.
    + apply respects_with_grad_enabled.
      respect (@same_model_and_grad H Params OptState Rng).
    + intros [outputs loss]. unfold acc_iadd.
      respect (@same_model H Params OptState Rng).
  - apply (respects_for_pass same_model); [by intros ?? ?? [??]| |done|done|done].
    intros [current_loss current_acc] batch.
    destruct (batch_text batch) as [text text_lengths].
    apply respects_bind.
    + apply respects_with_grad_enabled.
      respect (@same_model_and_grad H Params OptState Rng).
    + intros [outputs loss]. unfold acc_iadd.
      respect (@same_model H Params OptState Rng).
  - intros [current_loss current_acc].
    unfold float_truediv, acc_double, format2.
    respect (@same_model H Params OptState Rng).
Qed.

(** X3.  What [test_model] returns (or raises) and the calls it makes are
    determined by the model's parameters and by what the pass yields (its
    batches, and the exception that ends it, if any): the gradients, the
    optimizer state, the mode the model was in, the grad mode in force
    before the call and the iterator's random state play no part. *)
Theorem test_model_reads_parameters_only (model : Model Params)
    (loss_function : LossFn) (data_loader : DataLoader Rng) (w1 w2 : World) :
  params w1 = params w2 →
  drawn data_loader (rng w1) = drawn data_loader (rng w2) →
  res (test_model model loss_function data_loader w1)
  = res (test_model model loss_function data_loader w2)
  ∧ trace (test_model model loss_function data_loader w1)
    = trace (test_model model loss_function data_loader w2).
Proof. apply test_model_same_inputs. Qed.

(** X4.  Evaluation is repeatable: when the loader yields the same
    batches from the state the first pass left its iterator in, a second
    call of [test_model] right after the first has the same result and
    prints the same line. *)
Theorem test_model_repeatable (model : Model Params)
    (loss_function : LossFn) (data_loader : DataLoader Rng) (w : World) :
  let o1 := test_model model loss_function data_loader w in
  let o2 := test_model model loss_function data_loader (world o1) in
  drawn data_loader (rng (world o1)) = drawn data_loader (rng w) →
  res o2 = res o1 ∧ printed (trace o2) = printed (trace o1).
Proof.
  intros o1 o2 Hdrawn.
  destruct (triple_test_model model loss_function data_loader
              (params w) (grads w) (opt_state w) (grad_enabled w) w)
    as [(Hp & _) _]; [by repeat split|].
  fold o1 in Hp.
  destruct (test_model_same_inputs model loss_function data_loader
              (world o1) w Hp Hdrawn) as [Hres Htrace].
  subst o2. rewrite Hres, Htrace. done.
Qed.

End EvalInputs.

(** The toy loader yields the same two batches from every state. *)
Lemma toy_drawn (r : nat) :
  drawn Toy.data_loader r = Ok ([Toy.batch1; Toy.batch2], None).
Proof. reflexivity. Qed.

(** The toy state before and after some training steps. *)
Lemma test_model_reads_parameters_only_witness :
  res (test_model Toy.model Toy.loss_function Toy.data_loader Toy.world0)
  = res (test_model Toy.model Toy.loss_function Toy.data_loader
           ToyMore.world1)
  ∧ trace (test_model Toy.model Toy.loss_function Toy.data_loader Toy.world0)
    = trace (test_model Toy.model Toy.loss_function Toy.data_loader
               ToyMore.world1).
Proof.
  exact (@test_model_reads_parameters_only Toy.torch Z nat nat Toy.model
           Toy.loss_function Toy.data_loader Toy.world0 ToyMore.world1
           eq_refl (eq_trans (toy_drawn _) (eq_sym (toy_drawn _)))).
Defined.

(** The toy loader yields the same two batches on every pass. *)
Lemma test_model_repeatable_witness :
  res (test_model Toy.model Toy.loss_function Toy.data_loader
         (world (test_model Toy.model Toy.loss_function Toy.data_loader
                   Toy.world0)))
  = res (test_model Toy.model Toy.loss_function Toy.data_loader Toy.world0)
  ∧ printed (trace (test_model Toy.model Toy.loss_function Toy.data_loader
              (world (test_model Toy.model Toy.loss_function Toy.data_loader
                        Toy.world0))))
    = printed (trace (test_model Toy.model Toy.loss_function Toy.data_loader
                        Toy.world0)).
Proof.
  exact (@test_model_repeatable Toy.torch Z nat nat Toy.model
           Toy.loss_function Toy.data_loader Toy.world0
           (eq_trans (toy_drawn _) (eq_sym (toy_drawn _)))).
Defined.

(** ** Passes that return *)
Section PassesReturn.
Context `{Torch} {Params OptState Rng : Type}.

#[local] Abbreviation World := (World Params OptState Rng).

(** X5.  When every call of the library, of the model (its forward
    computation and the switch of its mode), of the loss function and of
    the optimizer returns, a pass whose iterator yields at least one batch
    and ends by itself, over a non-empty dataset, returns: [train_model]
    returns [None] and [test_model] returns its metrics.  (Without a
    batch, or over an empty dataset, the passes raise: C10.) *)
Theorem passes_return (model : Model Params) (loss_function : LossFn)
    (optimizer : Optimizer Params OptState) (data_loader : DataLoader Rng)
    (w : World) :
  library_returns →
  model_returns model →
  loss_returns loss_function →
  optimizer_returns optimizer →
  loader_yields data_loader (rng w) →
  res (train_model model loss_function optimizer data_loader w) = Ok PyNone
  ∧ ∃ total_loss total_acc,
      res (test_model model loss_function data_loader w)
      = Ok (PyTuple2 (PyFloat total_loss) (PyTensor total_acc)).
Proof.
  intros Hlib Hmodel Hloss Hopt Hloader. split.
  - by apply train_model_returns.
  - by apply test_model_returns.
Qed.

End PassesReturn.

(** The toy library returns on every call. *)
Lemma passes_return_witness :
  res (train_model Toy.model Toy.loss_function Toy.optimizer Toy.data_loader
         Toy.world0) = Ok PyNone
  ∧ ∃ total_loss total_acc,
      res (test_model (OptState:=nat) Toy.model Toy.loss_function
             Toy.data_loader Toy.world0)
      = Ok (PyTuple2 (PyFloat total_loss) (PyTensor total_acc)).
Proof.
  apply (@passes_return Toy.torch Z nat nat).
  - by constructor.
  - split; reflexivity.
  - intros g outputs label. reflexivity.
  - split; reflexivity.
  - eexists. split; [reflexivity|]. repeat split; discriminate.
Defined.

(** ** What the driver prints and leaves behind *)
Section DriverOutput.
Context `{Torch} {Params OptState Rng : Type} `{!Optim Params OptState}.

#[local] Abbreviation World := (World Params OptState Rng).
#[local] Abbreviation M := (M Params OptState Rng).

#[local] Abbreviation any := (λ _ : World, True).

Lemma train_model_prints_line (model : Model Params) (loss_function : LossFn)
    (optimizer : Optimizer Params OptState) (data_loader : DataLoader Rng)
    (w : World) (v : PyVal) :
  res (train_model model loss_function optimizer data_loader w) = Ok v →
  ∃ s, printed (trace (train_model model loss_function optimizer
                         data_loader w)) = [s]
       ∧ is_train_line s.
Proof.
  rewrite train_model_metric_loop. intros Hres.
  apply metric_loop_returns in Hres as (tl & ta & sl & sa & _ & _ & _ & Hp).
  - eexists. split; [exact Hp|]. by exists sl, sa.
  - unfold train_kind, zero_grad. cbn [lk_before]. silent.
  - intros loss. unfold train_kind, loss_backward, step. cbn [lk_after]. silent.
Qed.

Lemma test_model_prints_line (model : Model Params) (loss_function : LossFn)
    (data_loader : DataLoader Rng) (w : World) (v : PyVal) :
  res (test_model model loss_function data_loader w) = Ok v →
  ∃ s, printed (trace (test_model model loss_function data_loader w)) = [s]
       ∧ is_test_line s.
Proof.
  rewrite test_model_metric_loop. intros Hres.
  apply metric_loop_returns in Hres as (tl & ta & sl & sa & _ & _ & _ & Hp).
  - eexists. split; [exact Hp|]. by exists sl, sa.
  - cbn [test_kind lk_before]. silent.
  - intros loss. cbn [test_kind lk_after]. silent.
Qed.

Lemma epoch_body_prints (model : Model Params) (loss_function : LossFn)
    (optimizer : Optimizer Params OptState)
    (train_iter test_iter : DataLoader Rng) (epoch : nat) (w : World)
    (v : unit) :
  res (epoch_body model loss_function optimizer train_iter test_iter epoch w)
    = Ok v →
  ∃ lines,
    printed (trace (epoch_body model loss_function optimizer train_iter
                      test_iter epoch w)) = epoch_lines epoch lines
    ∧ is_train_line lines.1 ∧ is_test_line lines.2.
Proof.
  unfold epoch_body. intros Hres.
  apply bind_ok_inv in Hres as (? & _ & Hres & _ & ->).
  apply bind_ok_inv in Hres as (v1 & Htrain & Hres & _ & ->).
  apply bind_ok_inv in Hres as (v2 & Htest & Hres & _ & ->).
  apply train_model_prints_line in Htrain as (a & Ha & Hline_a).
  apply test_model_prints_line in Htest as (b & Hb & Hline_b).
  exists (a, b). rewrite !printed_app, Ha, Hb. by repeat split.
Qed.

Lemma epochs_print (model : Model Params) (loss_function : LossFn)
    (optimizer : Optimizer Params OptState)
    (train_iter test_iter : DataLoader Rng) (n : nat) :
  ∀ (start : nat) (s : unit) (w : World) (v : unit),
    res (for_each (seq start n) s
           (λ _ epoch, epoch_body model loss_function optimizer train_iter
                         test_iter epoch) w) = Ok v →
    ∃ lines,
      length lines = n
      ∧ printed (trace (for_each (seq start n) s
                          (λ _ epoch, epoch_body model loss_function optimizer
                                        train_iter test_iter epoch) w))
        = mjoin (zip_with epoch_lines (seq start n) lines)
      ∧ Forall (λ l, is_train_line l.1 ∧ is_test_line l.2) lines.
Proof.
  induction n as [|n IH]; intros start s w v Hres.
  - exists []. by repeat split.
  - cbn [seq for_each] in *.
    apply bind_ok_inv in Hres as (s' & Hbody & Hres & _ & ->).
    apply epoch_body_prints in Hbody as (l & Hl & Hline).
    apply IH in Hres as (lines & Hlen & Hlines & Hall).
    exists (l :: lines). split; [by rewrite <- Hlen|].
    split; [|by constructor].
    rewrite printed_app, Hl, Hlines. reflexivity.
Qed.

(** X6.  A run of the driver that returns has printed fifteen lines: for
    each of the epochs 1 to 5, the line [Epoch k/5], then the line of
    [train_model] and then the line of [test_model]. *)
Theorem main_prints_three_lines_per_epoch (model : Model Params)
    (train_iter test_iter : DataLoader Rng) (w : World) :
  is_ok (res (main model train_iter test_iter w)) = true →
  ∃ lines,
    length lines = 5
    ∧ printed (trace (main model train_iter test_iter w))
      = mjoin (zip_with epoch_lines (seq 0 5) lines)
    ∧ Forall (λ l, is_train_line l.1 ∧ is_test_line l.2) lines
    ∧ length (printed (trace (main model train_iter test_iter w))) = 15.
Proof.
  intros Hok.
  destruct (res (main model train_iter test_iter w)) as [v|] eqn:Hres;
    [clear Hok|discriminate].
  unfold main in *.
  apply bind_ok_inv in Hres as (? & _ & Hres & _ & ->).
  apply bind_ok_inv in Hres as (l & _ & Hres & _ & ->).
  apply bind_ok_inv in Hres as (loss_function & _ & Hres & _ & ->).
  apply bind_ok_inv in Hres as (? & _ & Hres & _ & ->).
  apply epochs_print in Hres as (lines & Hlen & Hlines & Hall).
  exists lines. rewrite !printed_app, Hlines.
  rewrite !(printed_nil_of_calls (trace (call_upd _ _ _))).
  2,3: unfold call_upd; match goal with |- context [match ?r with _ => _ end] =>
         destruct r end; by repeat constructor.
  cbn [printed omap call trace ev_printed app].
  split; [exact Hlen|]. split; [reflexivity|]. split; [exact Hall|].
  destruct lines as [|l1 [|l2 [|l3 [|l4 [|l5 [|]]]]]]; try discriminate.
  reflexivity.
Qed.

(** X7.  A run of the driver, returning or raising, ends under the grad
    mode it started under; a run that returns leaves the model in
    evaluation mode, with the iterators' random state advanced by five
    training and five test passes in turn, each drawn to its end. *)
Theorem main_leaves_model_in_eval_mode (model : Model Params)
    (train_iter test_iter : DataLoader Rng) (w : World) :
  let o := main model train_iter test_iter w in
  grad_enabled (world o) = grad_enabled w
  ∧ (is_ok (res o) = true →
     model_training (world o) = false
     ∧ rng (world o) = epochs_rng train_iter test_iter 5 (rng w)).
Proof.
  intros o. split.
  - cut (triple (λ w' : World, grad_enabled w' = grad_enabled w)
           (main model train_iter test_iter)
           (λ w', grad_enabled w' = grad_enabled w) (λ _, True)).
    { intros Hrun. by apply Hrun. }
    unfold main.
    apply triple_bind.
    { apply triple_call_upd; [done|done|]. intros w1 w2 Hw.
      unfold mbind, Result_bind. destruct (Adam_new _); simpl; by intros [= <-]. }
    intros _. apply triple_bind; [by apply triple_call|]. intros l.
    apply triple_bind; [by apply triple_call|]. intros loss_function.
    apply triple_bind.
    { apply triple_call_upd; [done|done|]. intros w1 w2 Hw.
      unfold mbind, Result_bind.
      destruct (model_to_device _); simpl; by intros [= <-]. }
    intros _. apply triple_for_each. intros s epoch. unfold epoch_body.
    apply triple_bind; [by apply triple_print|]. intros _.
    apply triple_bind; [apply triple_train_model_grad|]. intros _.
    apply triple_bind; [apply triple_test_model_grad|]. intros _.
    apply triple_ret.
  - intros Hok.
    pose proof (follows_main (model_training w) (grad_enabled w) (rng w)
                  model train_iter test_iter w) as Hrun.
    fold o in Hrun. destruct (res o); [|discriminate].
    destruct Hrun as [_ (Ht & _ & Hr)]; [by repeat split|]. by split.
Qed.

End DriverOutput.

(** The toy run of the driver. *)
Lemma main_prints_three_lines_per_epoch_witness :
  ∃ lines,
    length lines = 5
    ∧ printed (trace (main (Optim0:=Toy.optim) Toy.model Toy.data_loader
                        Toy.test_loader Toy.world0))
      = mjoin (zip_with epoch_lines (seq 0 5) lines)
    ∧ Forall (λ l, is_train_line l.1 ∧ is_test_line l.2) lines
    ∧ length (printed (trace (main (Optim0:=Toy.optim) Toy.model
                                Toy.data_loader Toy.test_loader Toy.world0)))
      = 15.
Proof.
  apply (@main_prints_three_lines_per_epoch Toy.torch Z nat nat Toy.optim).
  vm_compute. reflexivity.
Defined.

Lemma main_leaves_model_in_eval_mode_witness :
  model_training (world (main (Optim0:=Toy.optim) Toy.model Toy.data_loader
                           Toy.test_loader Toy.world0)) = false
  ∧ rng (world (main (Optim0:=Toy.optim) Toy.model Toy.data_loader
                  Toy.test_loader Toy.world0))
    = epochs_rng Toy.data_loader Toy.test_loader 5 (rng Toy.world0).
Proof.
  assert (is_ok (res (main (Optim0:=Toy.optim) Toy.model Toy.data_loader
                        Toy.test_loader Toy.world0)) = true) as Hok
    by (vm_compute; reflexivity).
  exact (proj2 (@main_leaves_model_in_eval_mode Toy.torch Z nat nat Toy.optim
                  Toy.model Toy.data_loader Toy.test_loader Toy.world0) Hok).
Defined.

(** ** What a pass over the test iterator covers *)
Section TestPass.
Context `{Torch} {Token Label Rng Params OptState : Type}.

#[local] Abbreviation Example := (@Example Token Label).

(** The minibatches cut by [batch] are the data, in order. *)
Lemma batch_from_join {A} (batch_size : nat) (data minibatch : list A) :
  mjoin (batch_from batch_size minibatch data) = minibatch ++ data.
Proof.
  revert minibatch. induction data as [|ex data IH]; intros minibatch; simpl.
  - destruct minibatch; simpl; by rewrite ?app_nil_r.
  - repeat case_decide; simpl; rewrite IH; by rewrite <- ?app_assoc.
Qed.

(** They are not empty and hold at most [batch_size] elements. *)
Lemma batch_from_sizes {A} (batch_size : nat) (data minibatch : list A) :
  length minibatch < batch_size →
  Forall (λ chunk, 0 < length chunk ≤ batch_size)
    (batch_from batch_size minibatch data).
Proof.
  revert minibatch. induction data as [|ex data IH]; intros minibatch Hlen; simpl.
  - destruct minibatch as [|x minibatch]; [constructor|].
    constructor; [simpl in *; lia | constructor].
  - repeat case_decide.
    + constructor; [lia|]. apply IH. simpl. lia.
    + rewrite length_app in *. simpl in *. lia.
    + apply IH. rewrite length_app in *. simpl in *. lia.
Qed.

Lemma sum_chunk_lengths {A} (chunks : list (list A)) :
  sum_list_with length chunks = length (mjoin chunks).
Proof.
  induction chunks as [|c chunks IH]; simpl; [reflexivity|].
  by rewrite length_app, IH.
Qed.

Context (pool : list Example → nat → Rng → Pass (list Example) Rng)
        (numericalize : list (list Token) → Tensor)
        (label_tensor : list Label → Tensor).

(** X8.  The test iterator of cell 2 always hands out a pass, and the pass
    ends by itself; it does not depend on the random state and leaves it
    as it is at every [next()]; its batches hold between 1 and 64 reviews
    each, and together as many as the test set: the batch sizes that weigh
    the batch losses add up to the [len(data_loader.dataset)] the sums are
    divided by. *)
Theorem test_pass_covers_dataset (train test : list Example) (r : Rng) :
  let data_loader :=
    loader pool numericalize label_tensor (make_iters train test).2 in
  let it := pass_of data_loader r in
  dl_iter data_loader r = Ok it
  ∧ pass_exn it = None
  ∧ Forall (λ r', r' = r) (pass_states it)
  ∧ pass_end it = r
  ∧ (∀ r', drawn data_loader r' = Ok (pass_batches it, None))
  ∧ Forall (λ b, 0 < length (batch_text b).2 ≤ 64) (pass_batches it)
  ∧ sum_list_with (λ b, length (batch_text b).2) (pass_batches it)
    = dataset_len data_loader.
Proof.
  intros data_loader it. subst data_loader it.
  unfold drawn, pass_of, loader, make_iters, splits, BucketIterator_new.
  cbn [fst snd dl_iter dataset_len mbind Result_bind].
  unfold iterate, create_batches, within_batch, make_batch.
  cbn [bi_sort bi_sort_within_batch bi_dataset bi_batch_size negb fst snd].
  rewrite pass_exn_map, pass_exn_of_list, pass_states_map, pass_end_map,
    pass_end_of_list, pass_batches_map, pass_batches_of_list.
  split; [reflexivity|]. split; [reflexivity|].
  split; [apply pass_states_of_list|].
  split; [reflexivity|].
  split.
  { intros r'. cbn [rbind].
    by rewrite pass_exn_map, pass_exn_of_list, pass_batches_map,
      pass_batches_of_list. }
  set (chunks := batch (sorted_by_key test) 64).
  assert (Forall (λ chunk : list Example, 0 < length chunk ≤ 64) chunks)
    as Hsizes.
  { apply batch_from_sizes. simpl. lia. }
  assert (sum_list_with length chunks = length test) as Hsum.
  { rewrite sum_chunk_lengths. unfold chunks, batch.
    rewrite batch_from_join. simpl. unfold sorted_by_key.
    apply Permutation_length, stable_sort_Permutation. }
  clearbody chunks. split.
  - clear Hsum. induction Hsizes as [|c chunks' Hc _ IH]; constructor.
    + cbn [batch_text snd]. by rewrite length_map, length_reverse.
    + apply IH.
  - rewrite <- Hsum. clear. induction chunks as [|c chunks IH]; [reflexivity|].
    cbn [map sum_list_with batch_text snd].
    by rewrite length_map, length_reverse, IH.
Qed.

(** A pass of [test_model] over no batch of an empty dataset. *)
Lemma test_model_no_data (model : Model Params) (loss_function : LossFn)
    (data_loader : DataLoader Rng) (w : World Params OptState Rng) (r : Rng) :
  dl_iter data_loader (rng w) = Ok (Stop r) →
  dataset_len data_loader = 0 →
  res (test_model model loss_function data_loader w)
  = (_ ← module_train model false; Raise ZeroDivisionError)
  ∧ printed (trace (test_model model loss_function data_loader w)) = [].
Proof.
  intros Hempty Hlen. unfold test_model.
  destruct (module_train model false) as [[]|e] eqn:Heval.
  2:{ by rewrite (bind_run_raise _ _ _ _ _ _
                    (run_model_train_raise _ _ _ _ Heval)). }
  rewrite (bind_run_ok _ _ _ _ _ _ (run_model_train _ _ _ Heval)).
  rewrite (bind_run_ok _ _ _ _ _ _
             (run_enumerate_ok data_loader (set_model_training false w) _
                Hempty)).
  cbn [for_pass].
  rewrite !(bind_run_ok _ _ _ _ _ _ eq_refl).
  unfold float_truediv, call. rewrite Hlen.
  rewrite !(bind_run_raise _ _ _ _ _ _ eq_refl). by split.
Qed.

(** X9.  With an empty test set, the pass the test iterator of cell 2
    hands out ends at its first [next()], and [test_model] over it raises
    [ZeroDivisionError] (from the division of the running loss by the
    size of the dataset) without printing anything, unless [model.eval()]
    has raised before. *)
Theorem test_model_on_empty_test_set (model : Model Params)
    (loss_function : LossFn) (train : list Example)
    (w : World Params OptState Rng) :
  let data_loader :=
    loader pool numericalize label_tensor (make_iters train []).2 in
  dl_iter data_loader (rng w) = Ok (Stop (rng w))
  ∧ res (test_model model loss_function data_loader w)
    = (_ ← module_train model false; Raise ZeroDivisionError)
  ∧ printed (trace (test_model model loss_function data_loader w)) = [].
Proof.
  intros data_loader.
  assert (dl_iter data_loader (rng w) = Ok (Stop (rng w))) as Hempty
    by reflexivity.
  split; [exact Hempty|].
  by apply (test_model_no_data _ _ _ _ (rng w)).
Qed.

End TestPass.

(** ** Building the model: what can go wrong, and what fits *)
Section ModelConstruction.
Context `{Layers}.

(** X10.  [LSTMModel.__init__] succeeds exactly when the padding index is
    an index of the embedding table and the hidden size is positive
    ([torch.nn.LSTM] raises for a hidden size of zero).  The layers of the
    model it builds fit together: the embedding's output dimension is the
    recurrent layer's input size and the recurrent layer's hidden size is
    the linear layer's input size; the table has one row per token, all of
    the embedding dimension, and its padding row is zero. *)
Theorem LSTMModel_init_wires_layers
    (vocab_size embedding_size hidden output_size pad_idx : nat) :
  (is_ok (LSTMModel_init vocab_size embedding_size hidden output_size pad_idx)
     = true ↔ pad_idx < vocab_size ∧ 0 < hidden)
  ∧ ∀ model,
      LSTMModel_init vocab_size embedding_size hidden output_size pad_idx
        = Ok model →
      embedding_dim (embedding model) = input_size (rnn model)
      ∧ hidden_size (rnn model) = in_features (fc model)
      ∧ out_features (fc model) = output_size
      ∧ length (weight (embedding model)) = vocab_size
      ∧ Forall (λ row, length row = embedding_size) (weight (embedding model))
      ∧ weight (embedding model) !! pad_idx = Some (zeros embedding_size).
Proof.
  set (table := map (λ i, map (init_embedding i) (seq 0 embedding_size))
                    (seq 0 vocab_size)).
  assert (length table = vocab_size) as Hrows.
  { unfold table. by rewrite length_map, length_seq. }
  assert (Forall (λ row, length row = embedding_size) table) as Hwidth.
  { unfold table. apply Forall_forall. intros row Hrow.
    apply list_elem_of_In, in_map_iff in Hrow as (i & <- & _).
    by rewrite length_map, length_seq. }
  unfold LSTMModel_init, Embedding_new, LSTM_new. fold table.
  unfold mbind, Result_bind. split.
  - destruct (decide (0 < pad_idx ∧ ¬ pad_idx < vocab_size)) as [Hassert|Hassert];
      cbn [rbind is_ok]; [split; [done|lia]|].
    destruct (table !! pad_idx) as [row|] eqn:Hrow; cbn [rbind is_ok].
    + apply lookup_lt_Some in Hrow.
      destruct (decide (hidden = 0)) as [Hzero|Hpos]; cbn [rbind is_ok].
      * split; [done|lia].
      * split; [intros _; lia|done].
    + apply lookup_ge_None in Hrow. split; [done|lia].
  - intros model.
    destruct (decide (0 < pad_idx ∧ ¬ pad_idx < vocab_size)); [done|].
    destruct (table !! pad_idx) as [row|] eqn:Hrow; [|done].
    apply lookup_lt_Some in Hrow. cbn [rbind].
    destruct (decide (hidden = 0)); [done|].
    cbn [rbind]. intros [= <-]. cbn.
    repeat split.
    + by rewrite length_insert.
    + apply Forall_insert; [exact Hwidth | apply length_replicate].
    + by apply list_lookup_insert_eq.
Qed.

(** X11.  The embedding size of cell 4 has to be the dimension of the
    vocabulary's word vectors: when the vectors have another dimension
    (other than 1, which is broadcast), [copy_] raises, with the message
    that names the two sizes, and the cell does not complete. *)
Theorem init_model_rejects_other_dimensions (vocab : Vocab) (d : nat) :
  length (vectors vocab) = length (itos vocab) →
  Forall (λ v, length v = d) (vectors vocab) →
  stoi vocab pad_token < length (itos vocab) →
  d ≠ EMBEDDING_SIZE → d ≠ 1 →
  init_model vocab = Raise (RuntimeError_size EMBEDDING_SIZE d 1).
Proof.
  intros Hlen Hdim Hpad Hd Hd1.
  unfold init_model.
  destruct (LSTMModel_init _ _ _ _ _) as [model|] eqn:Hinit.
  2:{ assert (is_ok (LSTMModel_init (length (itos vocab)) EMBEDDING_SIZE
                       HIDDEN_SIZE 1 (stoi vocab pad_token)) = true) as Hok.
      { unfold LSTMModel_init, Embedding_new, LSTM_new, mbind, Result_bind.
        rewrite decide_False by lia.
        destruct (lookup_lt_is_Some_2
                    (map (λ i, map (init_embedding i) (seq 0 EMBEDDING_SIZE))
                       (seq 0 (length (itos vocab))))
                    (stoi vocab pad_token)) as [row Hrow].
        { by rewrite length_map, length_seq. }
        by rewrite Hrow. }
      by rewrite Hinit in Hok. }
  unfold mbind, Result_bind. cbn [rbind].
  assert (width (weight (embedding model)) = EMBEDDING_SIZE) as Hwidth.
  { unfold LSTMModel_init, mbind, Result_bind in Hinit.
    destruct (Embedding_new _ _ _) as [emb|] eqn:Hemb; [|done].
    apply Embedding_new_shape in Hemb as [_ Hw].
    cbn [rbind] in Hinit.
    destruct (LSTM_new _ _) as [cell|]; [|done].
    cbn [rbind] in Hinit. by injection Hinit as <-. }
  assert (width (vectors vocab) = d) as Hvectors.
  { apply width_rows; [|exact Hdim].
    intros Hnil. rewrite Hnil in Hlen. simpl in Hlen. lia. }
  unfold copy_, broadcast_size. rewrite Hwidth, Hvectors.
  unfold mbind, Result_bind.
  rewrite (decide_False (P := EMBEDDING_SIZE = d)) by done.
  rewrite (decide_False (P := EMBEDDING_SIZE = 1)) by done.
  by rewrite (decide_False (P := d = 1)) by done.
Qed.

End ModelConstruction.

(** The toy vocabulary with 50-dimensional vectors. *)
Lemma init_model_rejects_other_dimensions_witness :
  init_model (H0:=Toy.layers) ToyMore.vocab50
  = Raise (RuntimeError_size EMBEDDING_SIZE 50 1).
Proof.
  apply (@init_model_rejects_other_dimensions Toy.torch Toy.layers
           ToyMore.vocab50 50).
  - reflexivity.
  - repeat constructor.
  - simpl. lia.
  - unfold EMBEDDING_SIZE. lia.
  - lia.
Defined.

(** A table of four tokens with the padding token at index 1. *)
Lemma LSTMModel_init_wires_layers_witness :
  ∃ model,
    LSTMModel_init (H0:=Toy.layers) 4 100 256 1 1 = Ok model
    ∧ embedding_dim (embedding model) = input_size (rnn model)
    ∧ hidden_size (rnn model) = in_features (fc model)
    ∧ out_features (fc model) = 1
    ∧ length (weight (embedding model)) = 4
    ∧ Forall (λ row, length row = 100) (weight (embedding model))
    ∧ weight (embedding model) !! 1 = Some (zeros 100).
Proof.
  pose proof (@LSTMModel_init_wires_layers Toy.torch Toy.layers 4 100 256 1 1)
    as [Hok Hwire].
  destruct (is_ok_Ok _ (proj2 Hok ltac:(lia))) as [model Hmodel].
  exists model. split; [exact Hmodel|]. exact (Hwire model Hmodel).
Defined.
